(** * 365skill: the skill security scanner

    A shallow embedding of [scripts/scan_skills.py] (the rule catalogs, the
    risk classifier, the file, skill and directory scanners and the result
    classification of [print_results]) and of the highest-risk computation of
    [scripts/interactive_scan.py], followed by the properties proved of them.

    Conventions of the embedding.
    - A Python [str] literal of the program (category names, patterns,
      descriptions, path components) is a [string].
    - A line read from a scanned file is a [text]: the list of its code
      points, so that [len], slicing and [str.strip] count characters the way
      Python does.
    - [pathlib] paths are the record [Path] (POSIX flavour).
    - The file tree is a value of type [Node]; the scanner only reads it.
    - [re.finditer] is a parameter of the development (section variable
      [finditer]): it may raise [re.error] and otherwise yields the spans of
      the matches.
    - Methods that print, read files or update [self] live in the monad [M]
      (state, trace of events, exceptions). *)

From Stdlib Require Import List String Ascii Bool Arith NArith Lia Permutation
  Sorted.
Import ListNotations.
Local Open Scope string_scope.
Local Open Scope list_scope.

Set Implicit Arguments.

(* ================================================================== *)
(** * Strings and texts *)

(** The double quote character, as a one-character string. *)
Definition dq : string :=
  String (Ascii false true false false false true false false) EmptyString.

(** [s.startswith(p)] *)
Definition startswith (s p : string) : bool := String.prefix p s.

Fixpoint string_rev_acc (s acc : string) : string :=
  match s with
  | EmptyString => acc
  | String c r => string_rev_acc r (String c acc)
  end.

Definition string_rev (s : string) : string := string_rev_acc s EmptyString.

(** [s.endswith(p)] *)
Definition endswith (s p : string) : bool :=
  String.prefix (string_rev p) (string_rev s).

(** [x in xs] for a list or set of strings. *)
Definition str_in (x : string) (xs : list string) : bool :=
  existsb (String.eqb x) xs.

(** A text read from a file: its code points. *)
Definition text := list N.

Definition text_of_string (s : string) : text :=
  map N_of_ascii (list_ascii_of_string s).

(** The characters [str.strip()] removes: Python's Unicode whitespace. *)
Definition is_space (c : N) : bool :=
  ((9 <=? c) && (c <=? 13) || (28 <=? c) && (c <=? 32)
   || (c =? 133) || (c =? 160) || (c =? 5760)
   || (8192 <=? c) && (c <=? 8202)
   || (c =? 8232) || (c =? 8233) || (c =? 8239) || (c =? 8287)
   || (c =? 12288))%N.

Fixpoint lstrip (s : text) : text :=
  match s with
  | [] => []
  | c :: r => if is_space c then lstrip r else s
  end.

Definition rstrip (s : text) : text := rev (lstrip (rev s)).

(** [s.strip()] *)
Definition strip (s : text) : text := rstrip (lstrip s).

(* ================================================================== *)
(** * Python dictionaries with string keys

    Insertion-ordered: a key that is set again keeps its place and takes
    the new value; a new key goes to the end. *)

Section Dict.
Variable V : Type.

Definition dict := list (string * V).

Fixpoint dict_set (k : string) (v : V) (d : dict) : dict :=
  match d with
  | [] => [(k, v)]
  | (k', v') :: r =>
      if String.eqb k' k then (k', v) :: r else (k', v') :: dict_set k v r
  end.

(** [{**d, k1: v1, ..., kn: vn}] *)
Definition dict_update (d : dict) (new : list (string * V)) : dict :=
  fold_left (fun acc kv => dict_set (fst kv) (snd kv) acc) new d.

(** [d.get(k)] *)
Fixpoint dict_get (k : string) (d : dict) : option V :=
  match d with
  | [] => None
  | (k', v) :: r => if String.eqb k' k then Some v else dict_get k r
  end.

Definition dict_keys (d : dict) : list string := map fst d.
End Dict.

(* ================================================================== *)
(** * Enumerations and data classes *)

Inductive ScanLevel := BASIC | DEEP | FULL.

Inductive RiskLevel := CRITICAL | HIGH | MEDIUM | LOW | INFO.

(** [RiskLevel.value] *)
Definition value (r : RiskLevel) : string :=
  match r with
  | CRITICAL => "critical"
  | HIGH => "high"
  | MEDIUM => "medium"
  | LOW => "low"
  | INFO => "info"
  end.

Definition RiskLevel_eqb (a b : RiskLevel) : bool :=
  match a, b with
  | CRITICAL, CRITICAL | HIGH, HIGH | MEDIUM, MEDIUM | LOW, LOW | INFO, INFO => true
  | _, _ => false
  end.

Module RiskFinding.
Record t := mk {
  skill_name : string;
  file_path : string;
  line_number : nat;
  risk_level : RiskLevel;
  category : string;
  description : string;
  code_snippet : text;
  recommendation : string
}.
End RiskFinding.

Module ScanResult.
Record t := mk {
  skill_name : string;
  is_safe : bool;
  findings : list RiskFinding.t;
  total_files : nat;
  scanned_files : nat
}.

(** [ScanResult(skill_name=..., is_safe=...)] with the defaults. *)
Definition new (name : string) (safe : bool) : t :=
  mk name safe [] 0 0.
End ScanResult.

(* ================================================================== *)
(** * Paths (pathlib, POSIX flavour) *)

(** [anchor] is the root: empty for a relative path, one slash, or two
    slashes; [names] are the components after it. *)
Record Path := mkPath { anchor : string; names : list string }.

Fixpoint count_leading_slashes (s : string) : nat :=
  match s with
  | String c r => if Ascii.eqb c "/" then S (count_leading_slashes r) else 0
  | EmptyString => 0
  end.

(** Split at slashes; the components come out in order. *)
Fixpoint split_slash (s cur : string) : list string :=
  match s with
  | EmptyString => [string_rev cur]
  | String c r =>
      if Ascii.eqb c "/" then string_rev cur :: split_slash r EmptyString
      else split_slash r (String c cur)
  end.

(** [Path(s)]: empty and "." components are dropped; exactly two leading
    slashes are kept as the root, any other positive number is one. *)
Definition parse_path (s : string) : Path :=
  let n := count_leading_slashes s in
  let root := match n with 0 => "" | 2 => "//" | _ => "/" end in
  mkPath root
    (filter (fun c => negb (String.eqb c "" || String.eqb c "."))
       (split_slash s EmptyString)).

(** [p / q] for an already parsed [q]: a rooted [q] replaces [p]. *)
Definition joinpath (p q : Path) : Path :=
  if String.eqb (anchor q) "" then mkPath (anchor p) (names p ++ names q)
  else q.

(** [p / s] for a string [s]. *)
Definition path_div (p : Path) (s : string) : Path := joinpath p (parse_path s).

(** [p.name] *)
Definition path_name (p : Path) : string := last (names p) "".

(** [str(p)] *)
Definition path_str (p : Path) : string :=
  match names p with
  | [] => if String.eqb (anchor p) "" then "." else anchor p
  | _ => anchor p ++ String.concat "/" (names p)
  end.

Fixpoint strip_prefix (pre l : list string) : option (list string) :=
  match pre, l with
  | [], _ => Some l
  | a :: pre', b :: l' => if String.eqb a b then strip_prefix pre' l' else None
  | _ :: _, [] => None
  end.

(** [p.relative_to(other)]: [None] stands for the [ValueError]. *)
Definition relative_to (p other : Path) : option Path :=
  if String.eqb (anchor p) (anchor other) then
    match strip_prefix (names other) (names p) with
    | Some rest => Some (mkPath "" rest)
    | None => None
    end
  else None.

(* ================================================================== *)
(** * The rule catalogs ([_init_patterns]) *)

(** A rule: a pattern (the text of the raw string literal) and its
    description. *)
Definition Rule := (string * string)%type.

Definition Catalog := dict (list Rule).

Definition basic_patterns : Catalog :=
  dict_update []
  [ ("sensitive_api_keys",
     [ (("(?:api[_-]?key|apikey|api_key)[" ++ dq ++ "\']?\s*[:=]\s*[" ++ dq ++ "\']([a-zA-Z0-9_-]{20,})[" ++ dq ++ "\']")%string,
        "Possible API Key hardcoded");
       (("(?:token|access_token|auth_token|bearer[_-]?token)[" ++ dq ++ "\']?\s*[:=]\s*[" ++ dq ++ "\']([a-zA-Z0-9_.-]{20,})[" ++ dq ++ "\']")%string,
        "Possible auth token hardcoded");
       (("(?:password|passwd|pwd)[" ++ dq ++ "\']?\s*[:=]\s*[" ++ dq ++ "\']([^" ++ dq ++ "\'\s]{8,})[" ++ dq ++ "\']")%string,
        "Possible password hardcoded");
       (("(?:secret|private[_-]?key|secret_key)[" ++ dq ++ "\']?\s*[:=]\s*[" ++ dq ++ "\']([a-zA-Z0-9/+=_-]{16,})[" ++ dq ++ "\']")%string,
        "Possible secret key hardcoded") ]);
    ("dangerous_commands",
     [ ("\b(?:rm\s+-rf|rmdir\s+/s)\b",
        "Dangerous file deletion command");
       ("\beval\s*\(",
        "Dynamic code execution with eval");
       ("\bexec\s*\(",
        "Dynamic code execution with exec");
       (("\bsubprocess\.(?:call|run|Popen)\s*\(\s*[" ++ dq ++ "\']?\s*\$")%string,
        "Possible command injection");
       ("\bos\.system\s*\(",
        "Command execution with os.system") ]);
    ("suspicious_network",
     [ (("(?:requests|urllib|fetch|axios)\.(?:get|post|put|delete|patch)\s*\(\s*[" ++ dq ++ "\']https?://(?:[^" ++ dq ++ "\']*?)(?:key|token|password|secret|credential)")%string,
        "Network request with possible sensitive data");
       (("[" ++ dq ++ "\']https?://(?:localhost|127\.0\.0\.1|0\.0\.0\.0):\d+[" ++ dq ++ "\']")%string,
        "Localhost port connection") ]) ].

(** [{**self.basic_patterns, ...}] *)
Definition deep_patterns : Catalog :=
  dict_update basic_patterns
  [ ("code_obfuscation",
     [ ("(?:\\x[0-9a-fA-F]{2}|\\u[0-9a-fA-F]{4}|\\[0-7]{3}){5,}",
        "Possible code obfuscation (escape characters)");
       ("chr\s*\(\s*\d+\s*\)\s*\)",
        "Possible character encoding obfuscation");
       ("\bbase64\.(?:b64decode|decodebytes|standard_b64decode)\s*\(",
        "Base64 decode operation");
       ("(?:exec|eval)\s*\(\s*(?:base64\.decode|chr\(|__import__\()",
        "Multi-layer obfuscated code execution") ]);
    ("suspicious_file_ops",
     [ (("\bopen\s*\(\s*[" ++ dq ++ "\']~/(?:\.ssh|\.gnupg|\.aws)")%string,
        "Accessing sensitive config directory");
       ("\bshutil\.(?:copy|copytree|move|rmtree)\s*\(",
        "Bulk file operations");
       ("\b(?:sendmail|smtplib\.SMTP)\s*\(",
        "Email sending functionality");
       (("\bpathlib\.Path\s*\(\s*[" ++ dq ++ "\']~/\.?")%string,
        "Accessing user home directory") ]);
    ("data_exfiltration",
     [ (("(?:requests|urllib)\.(?:get|post)\s*\(\s*[" ++ dq ++ "\']https?://.*?(?:exfil|log|track|telemetry|analytics|beacon)")%string,
        "Possible data exfiltration request");
       ("\bsocket\.(?:create_connection|connect)\s*\(",
        "Raw socket connection");
       (("[" ++ dq ++ "\']https?://(?:[a-z0-9-]+\.)?(?:pastebin|gist\.github|discord|webhook|telegram)\.")%string,
        "Data possibly sent to external service") ]);
    ("shell_injection",
     [ ("\bsubprocess\.(?:call|run|Popen)\s*\(\s*.*?\$",
        "Possible shell variable injection");
       ("\bos\.popen\s*\(",
        "Command execution with os.popen");
       ("\bcommands\.getoutput\s*\(",
        "Command execution with commands.getoutput") ]) ].

(** [{**self.deep_patterns, ...}] *)
Definition full_patterns : Catalog :=
  dict_update deep_patterns
  [ ("behavior_analysis",
     [ ("(?:while\s+True|for\s+\w+\s+in\s+range\(\s*\d{6,}",
        "Possible infinite loop or massive iteration");
       ("\btime\.sleep\s*\(\s*\d{3,}",
        "Long sleep delay (possible delay attack)");
       ("\bthreading\.(?:Thread|Process)\s*\(",
        "Multi-threading/process creation");
       ("\bmultiprocessing\.(?:Process|Pool)\s*\(",
        "Multi-process creation") ]);
    ("environment_fingerprinting",
     [ ("\b(?:os|platform)\.(?:uname|system|release|version|machine)\s*\(",
        "System fingerprinting");
       ("\b(?:os\.getenv|sys\.version|platform\.platform)\s*\(",
        "Environment info gathering") ]);
    ("persistence_hooks",
     [ ("~/(?:\.bashrc|\.zshrc|\.profile|\.bash_profile)",
        "Shell config file modification");
       ("(?:crontab|systemd|launchd|plist)",
        "Cron job or service configuration") ]) ].

(* ================================================================== *)
(** * The scanner object *)

Record Scanner := mkScanner {
  skills_dir : Path;
  scan_level : ScanLevel;
  self_findings : list RiskFinding.t;
  results : list ScanResult.t;
  use_whitelist : bool;
  whitelist : list string;
  skipped_whitelist : list string
}.

(** [_load_whitelist]: [stored] is what the whitelist file gives, the
    names of its entries, or [None] when the file is missing or cannot be
    loaded. *)
Definition _load_whitelist (use : bool) (stored : option (list string))
  : list string :=
  if negb use then []
  else match stored with
       | None => []
       | Some item_names => item_names
       end.

(** [__init__] *)
Definition new_scanner (dir : string) (level : ScanLevel) (use : bool)
    (stored : option (list string)) : Scanner :=
  mkScanner (parse_path dir) level [] [] use (_load_whitelist use stored) [].

(** The catalog [scan_file] selects for the scanner's level. *)
Definition patterns_for (level : ScanLevel) : Catalog :=
  match level with
  | BASIC => basic_patterns
  | DEEP => deep_patterns
  | FULL => full_patterns
  end.

Definition critical_categories : list string :=
  ["dangerous_commands"; "shell_injection"; "persistence_hooks"].
Definition high_categories : list string :=
  ["sensitive_api_keys"; "data_exfiltration"; "code_obfuscation"].
Definition medium_categories : list string :=
  ["suspicious_file_ops"; "suspicious_network"; "behavior_analysis"].

Definition get_risk_level (self : Scanner) (category : string) : RiskLevel :=
  if str_in category critical_categories then CRITICAL
  else if str_in category high_categories then HIGH
  else if str_in category medium_categories then MEDIUM
  else LOW.

Definition recommendations : dict string :=
  dict_update []
  [ ("sensitive_api_keys", "Use environment variables or config files for sensitive info");
    ("dangerous_commands", "Remove dangerous commands or add strict validation");
    ("suspicious_network", "Review network requests for legitimacy");
    ("code_obfuscation", "Code obfuscation may hide malicious behavior, manual review needed");
    ("suspicious_file_ops", "Review necessity and permissions of file operations");
    ("data_exfiltration", "Possible data exfiltration detected, review network communications");
    ("shell_injection", "Use parameterized commands instead of string concatenation");
    ("behavior_analysis", "Review reasonableness of anomalous behavior");
    ("environment_fingerprinting", "Confirm necessity of environment probing");
    ("persistence_hooks", "Persistence mechanism detected, review needed") ].

Definition get_recommendation (self : Scanner) (category : string) : string :=
  match dict_get category recommendations with
  | Some r => r
  | None => "Manual review recommended"
  end.

(* ================================================================== *)
(** * The file tree *)

(** What [open(...)] followed by [readlines()] gives on a file: the
    lines (decoding drops malformed bytes, so it always succeeds), or an
    [OSError] for a file that cannot be read. *)
Inductive Content :=
| Unreadable
| Lines (ls : list text).

Inductive Node :=
| File (c : Content)
| Dir (es : Entries)
with Entries :=
| ENil
| ECons (name : string) (n : Node) (rest : Entries).

Fixpoint lookup_entry (name : string) (es : Entries) : option Node :=
  match es with
  | ENil => None
  | ECons name' n rest =>
      if String.eqb name' name then Some n else lookup_entry name rest
  end.

(** Walk [ns] down from [cur]; [stack] holds the directories above it,
    nearest first, for the ".." components. *)
Fixpoint walk (stack : list Node) (cur : Node) (ns : list string)
  : option Node :=
  match ns with
  | [] => Some cur
  | n :: rest =>
      match cur with
      | File _ => None
      | Dir es =>
          if String.eqb n ".." then
            match stack with
            | [] => walk [] cur rest
            | up :: stack' => walk stack' up rest
            end
          else
            match lookup_entry n es with
            | Some child => walk (cur :: stack) child rest
            | None => None
            end
      end
  end.

(** The node a path names; the process runs with the root of the tree as
    its working directory. *)
Definition resolve (fs : Node) (p : Path) : option Node := walk [] fs (names p).

Definition path_exists (fs : Node) (p : Path) : bool :=
  match resolve fs p with Some _ => true | None => false end.

Definition path_is_dir (fs : Node) (p : Path) : bool :=
  match resolve fs p with Some (Dir _) => true | _ => false end.

(** [p / name] for a directory entry. *)
Definition child (p : Path) (name : string) : Path :=
  mkPath (anchor p) (names p ++ [name]).

Fixpoint entry_names (es : Entries) : list string :=
  match es with
  | ENil => []
  | ECons name _ rest => name :: entry_names rest
  end.

(** The entries of a directory whose name matches ['*' + ext], as
    relative component lists below [prefix]. *)
Fixpoint select_children (ext : string) (prefix : list string) (es : Entries)
  : list (list string) :=
  match es with
  | ENil => []
  | ECons name _ rest =>
      (if endswith name ext then [prefix ++ [name]] else [])
      ++ select_children ext prefix rest
  end.

(** The recursive walk of [rglob]: the matching entries of a directory
    first, then those of each sub-directory in turn. Files and directories
    are matched alike, by their names. *)
Fixpoint rglob_node (ext : string) (prefix : list string) (n : Node)
  {struct n} : list (list string) :=
  match n with
  | File _ => []
  | Dir es => select_children ext prefix es ++ rglob_subdirs ext prefix es
  end
with rglob_subdirs (ext : string) (prefix : list string) (es : Entries)
  {struct es} : list (list string) :=
  match es with
  | ENil => []
  | ECons name n rest =>
      rglob_node ext (prefix ++ [name]) n ++ rglob_subdirs ext prefix rest
  end.

(** [p.rglob('*' + ext)]: nothing when [p] is not a directory. *)
Definition rglob (fs : Node) (p : Path) (ext : string) : list Path :=
  match resolve fs p with
  | Some (Dir es) =>
      map (fun rel => mkPath (anchor p) (names p ++ rel))
          (rglob_node ext [] (Dir es))
  | _ => []
  end.

(* ================================================================== *)
(** * Effects: exceptions, the trace, and the monad [M] *)

Inductive Exn :=
| FileNotFoundError
| IsADirectoryError
| NotADirectoryError
| OSError
| ValueError
| ReError.

(** The lines the scanner prints. *)
Inductive Message :=
| MsgScanning (skill_name : string)
| MsgSkipWhitelisted
| MsgCannotRead (file_path : Path) (e : Exn)
| MsgSkillNotFound (target_skill : string).

(** What the scanner does to the outside world, oldest event first. *)
Inductive Event :=
| EvPrint (m : Message)
| EvOpen (p : Path)
| EvRglob (p : Path) (ext : string)
| EvExists (p : Path)
| EvIterdir (p : Path)
| EvIsDir (p : Path).

Record State := mkState { self : Scanner; trace : list Event }.

Definition M (A : Type) : Type := State -> (Exn + A) * State.

Definition ret {A} (a : A) : M A := fun st => (inr a, st).

Definition bind {A B} (c : M A) (k : A -> M B) : M B :=
  fun st =>
    match c st with
    | (inl e, st') => (inl e, st')
    | (inr a, st') => k a st'
    end.

Notation "x <- c ;; k" := (bind c (fun x => k))
  (at level 61, c at next level, right associativity).
Notation "c ;; k" := (bind c (fun _ => k))
  (at level 61, right associativity).

Definition raise {A} (e : Exn) : M A := fun st => (inl e, st).

(** [try: c except Exception as e: ...], handing the outcome to the
    continuation. *)
Definition try_except {A} (c : M A) : M (Exn + A) :=
  fun st => let '(r, st') := c st in (inr r, st').

Definition get_self : M Scanner := fun st => (inr (self st), st).

Definition set_self (s : Scanner) : M unit :=
  fun st => (inr tt, mkState s (trace st)).

Definition emit (ev : Event) : M unit :=
  fun st => (inr tt, mkState (self st) (trace st ++ [ev])).

Definition print (m : Message) : M unit := emit (EvPrint m).

(** A loop of [scan_file]: it appends to the local list [findings] and
    may stop with an exception, the list keeping what it held. *)
Definition Loop : Type :=
  list RiskFinding.t -> list RiskFinding.t * option Exn.

Fixpoint for_each {A} (body : A -> Loop) (xs : list A) : Loop :=
  fun findings =>
    match xs with
    | [] => (findings, None)
    | x :: rest =>
        match body x findings with
        | (findings', None) => for_each body rest findings'
        | (findings', Some e) => (findings', Some e)
        end
    end.

(** [enumerate(xs, 1)] *)
Definition enumerate1 {A} (xs : list A) : list (nat * A) :=
  combine (seq 1 (List.length xs)) xs.

(** The set of file extensions of [scan_skill]. *)
Definition extensions : list string :=
  [".py"; ".js"; ".ts"; ".sh"; ".bash"; ".md"; ".json"; ".yml"; ".yaml"; ".txt"].

Definition set_is_safe (b : bool) (r : ScanResult.t) : ScanResult.t :=
  ScanResult.mk (ScanResult.skill_name r) b (ScanResult.findings r)
    (ScanResult.total_files r) (ScanResult.scanned_files r).

Definition set_total_files (n : nat) (r : ScanResult.t) : ScanResult.t :=
  ScanResult.mk (ScanResult.skill_name r) (ScanResult.is_safe r)
    (ScanResult.findings r) n (ScanResult.scanned_files r).

Definition extend_findings (fs : list RiskFinding.t) (r : ScanResult.t)
  : ScanResult.t :=
  ScanResult.mk (ScanResult.skill_name r) (ScanResult.is_safe r)
    (ScanResult.findings r ++ fs)
    (ScanResult.total_files r) (ScanResult.scanned_files r).

Definition incr_scanned_files (r : ScanResult.t) : ScanResult.t :=
  ScanResult.mk (ScanResult.skill_name r) (ScanResult.is_safe r)
    (ScanResult.findings r) (ScanResult.total_files r)
    (ScanResult.scanned_files r + 1).

Definition append_skipped (name : string) (s : Scanner) : Scanner :=
  mkScanner (skills_dir s) (scan_level s) (self_findings s) (results s)
    (use_whitelist s) (whitelist s) (skipped_whitelist s ++ [name]).

Definition extend_results (rs : list ScanResult.t) (s : Scanner) : Scanner :=
  mkScanner (skills_dir s) (scan_level s) (self_findings s) (results s ++ rs)
    (use_whitelist s) (whitelist s) (skipped_whitelist s).

(* ================================================================== *)
(** * The scanner's methods *)

Section Scanner.

(** [re.finditer(pattern, line, re.IGNORECASE)]: [None] when the
    pattern does not compile ([re.error]), else the spans of the
    non-overlapping matches. *)
Variable finditer : string -> text -> option (list (nat * nat)).

(** The file tree being scanned. *)
Variable fs : Node.

(** The order in which this run iterates the set [extensions]. *)
Variable ext_iter : list string.

(** [open(p, 'r', encoding='utf-8', errors='ignore')] and
    [readlines()] *)
Definition open_readlines (p : Path) : M (list text) :=
  emit (EvOpen p) ;;
  match resolve fs p with
  | None => raise FileNotFoundError
  | Some (Dir _) => raise IsADirectoryError
  | Some (File Unreadable) => raise OSError
  | Some (File (Lines ls)) => ret ls
  end.

Definition exists_ (p : Path) : M bool :=
  emit (EvExists p) ;; ret (path_exists fs p).

Definition is_dir (p : Path) : M bool :=
  emit (EvIsDir p) ;; ret (path_is_dir fs p).

Definition iterdir (p : Path) : M (list Path) :=
  emit (EvIterdir p) ;;
  match resolve fs p with
  | None => raise FileNotFoundError
  | Some (File _) => raise NotADirectoryError
  | Some (Dir es) => ret (map (child p) (entry_names es))
  end.

Definition rglob_ (p : Path) (ext : string) : M (list Path) :=
  emit (EvRglob p ext) ;; ret (rglob fs p ext).

(** The body of the innermost loop of [scan_file]: build the snippet
    and the finding, and append it. *)
Definition add_finding (slf : Scanner) (file_path : Path)
    (skill_name : string) (line_num : nat) (line : text)
    (category description : string) : Loop :=
  fun findings =>
    let snippet := strip line in
    let snippet :=
      if (100 <? List.length snippet)%nat
      then firstn 100 snippet ++ text_of_string "..."
      else snippet in
    match relative_to file_path (skills_dir slf) with
    | None => (findings, Some ValueError)
    | Some rel =>
        (findings ++
           [RiskFinding.mk skill_name (path_str rel) line_num
              (get_risk_level slf category) category description snippet
              (get_recommendation slf category)],
         None)
    end.

(** The nested loops of [scan_file] over lines, categories, rules and
    matches. *)
Definition scan_lines (slf : Scanner) (file_path : Path)
    (skill_name : string) (patterns : Catalog) (lines : list text) : Loop :=
  for_each (fun '(line_num, line) =>
    for_each (fun '(category, pattern_list) =>
      for_each (fun '(pattern, description) => fun findings =>
        match finditer pattern line with
        | None => (findings, Some ReError)
        | Some matches =>
            for_each (fun _ : nat * nat =>
              add_finding slf file_path skill_name line_num line
                category description)
              matches findings
        end)
      pattern_list)
    patterns)
  (enumerate1 lines).

Definition scan_file (file_path : Path) (skill_name : string)
  : M (list RiskFinding.t) :=
  slf <- get_self ;;
  r <- try_except (open_readlines file_path) ;;
  match r with
  | inl e => print (MsgCannotRead file_path e) ;; ret []
  | inr lines =>
      let patterns := patterns_for (scan_level slf) in
      let '(findings, raised) :=
        scan_lines slf file_path skill_name patterns lines [] in
      match raised with
      | Some e => print (MsgCannotRead file_path e) ;; ret findings
      | None => ret findings
      end
  end.

(** [for ext in extensions: files_to_scan.extend(skill_path.rglob(...))] *)
Fixpoint collect_files (skill_path : Path) (exts : list string)
    (files_to_scan : list Path) : M (list Path) :=
  match exts with
  | [] => ret files_to_scan
  | ext :: rest =>
      found <- rglob_ skill_path ext ;;
      collect_files skill_path rest (files_to_scan ++ found)
  end.

(** [for file_path in files_to_scan: ...] of [scan_skill] *)
Fixpoint scan_files (files_to_scan : list Path) (skill_name : string)
    (result : ScanResult.t) : M ScanResult.t :=
  match files_to_scan with
  | [] => ret result
  | file_path :: rest =>
      findings <- scan_file file_path skill_name ;;
      let result := extend_findings findings result in
      let result :=
        match findings with
        | [] => result
        | _ :: _ => incr_scanned_files result
        end in
      scan_files rest skill_name result
  end.

Definition scan_skill (skill_path : Path) : M ScanResult.t :=
  let skill_name := path_name skill_path in
  print (MsgScanning skill_name) ;;
  let result := ScanResult.new skill_name true in
  if String.eqb skill_name "365skill" then
    ret (set_is_safe true result)
  else
    slf <- get_self ;;
    if str_in skill_name (whitelist slf) then
      print MsgSkipWhitelisted ;;
      set_self (append_skipped skill_name slf) ;;
      ret (set_is_safe true result)
    else
      files_to_scan <- collect_files skill_path ext_iter [] ;;
      let result := set_total_files (List.length files_to_scan) result in
      result <- scan_files files_to_scan skill_name result ;;
      ret (set_is_safe (List.length (ScanResult.findings result) =? 0)%nat result).

(** [[d for d in ds if d.is_dir() and not d.name.startswith('.')]] *)
Fixpoint visible_dirs (ds : list Path) : M (list Path) :=
  match ds with
  | [] => ret []
  | d :: rest =>
      isd <- is_dir d ;;
      keep <- ret (isd && negb (startswith (path_name d) ".")) ;;
      more <- visible_dirs rest ;;
      ret (if keep then d :: more else more)
  end.

(** [for skill_path in skill_paths: ...] of [scan_all_skills] *)
Fixpoint scan_paths (skill_paths : list Path) (acc : list ScanResult.t)
  : M (list ScanResult.t) :=
  match skill_paths with
  | [] => ret acc
  | skill_path :: rest =>
      result <- scan_skill skill_path ;;
      slf <- get_self ;;
      set_self (extend_results [result] slf) ;;
      scan_paths rest (acc ++ [result])
  end.

(** [if target_skill:] holds for a string that is given and not empty. *)
Definition truthy (target_skill : option string) : option string :=
  match target_skill with
  | Some "" => None
  | other => other
  end.

Definition scan_all_skills (target_skill : option string)
  : M (list ScanResult.t) :=
  slf <- get_self ;;
  match truthy target_skill with
  | Some target =>
      let skill_paths := [path_div (skills_dir slf) target] in
      found <- exists_ (hd (skills_dir slf) skill_paths) ;;
      if negb found then
        print (MsgSkillNotFound target) ;; ret []
      else scan_paths skill_paths []
  | None =>
      ds <- iterdir (skills_dir slf) ;;
      skill_paths <- visible_dirs ds ;;
      scan_paths skill_paths []
  end.

End Scanner.

(* ================================================================== *)
(** * Classification of the results ([print_results]) *)

(** The loop "Find highest risk level": [highest_risk] is the value of
    the variable before the remaining findings are visited; a critical
    finding ends the loop ([break]). *)
Fixpoint highest_risk_loop (highest_risk : RiskLevel)
    (findings : list RiskFinding.t) : RiskLevel :=
  match findings with
  | [] => highest_risk
  | finding :: rest =>
      let v := value (RiskFinding.risk_level finding) in
      if String.eqb v "critical" then CRITICAL
      else if String.eqb v "high"
              && str_in (value highest_risk) ["info"; "low"; "medium"]
      then highest_risk_loop HIGH rest
      else if String.eqb v "medium"
              && str_in (value highest_risk) ["info"; "low"]
      then highest_risk_loop MEDIUM rest
      else if String.eqb (value highest_risk) "info"
      then highest_risk_loop LOW rest
      else highest_risk_loop highest_risk rest
  end.

Definition print_results_highest (findings : list RiskFinding.t) : RiskLevel :=
  highest_risk_loop INFO findings.

(** The four lists [print_results] fills. *)
Record Groups := mkGroups {
  critical_skills : list (string * ScanResult.t);
  high_risk_skills : list (string * ScanResult.t);
  medium_risk_skills : list (string * ScanResult.t);
  low_risk_skills : list (string * ScanResult.t)
}.

(** One turn of [for result in self.results]. *)
Definition classify_step (g : Groups) (result : ScanResult.t) : Groups :=
  if ScanResult.is_safe result then g
  else
    let highest_risk := print_results_highest (ScanResult.findings result) in
    let skill_info := (ScanResult.skill_name result, result) in
    if RiskLevel_eqb highest_risk CRITICAL then
      mkGroups (critical_skills g ++ [skill_info]) (high_risk_skills g)
        (medium_risk_skills g) (low_risk_skills g)
    else if RiskLevel_eqb highest_risk HIGH then
      mkGroups (critical_skills g) (high_risk_skills g ++ [skill_info])
        (medium_risk_skills g) (low_risk_skills g)
    else if RiskLevel_eqb highest_risk MEDIUM then
      mkGroups (critical_skills g) (high_risk_skills g)
        (medium_risk_skills g ++ [skill_info]) (low_risk_skills g)
    else
      mkGroups (critical_skills g) (high_risk_skills g)
        (medium_risk_skills g) (low_risk_skills g ++ [skill_info]).

(** The classification part of [print_results], on [self.results]. *)
Definition print_results_classify (slf : Scanner) : Groups :=
  fold_left classify_step (results slf) (mkGroups [] [] [] []).

(** The four groups, and the list of each. *)
Inductive Group := GCritical | GHigh | GMedium | GLow.

Definition members (g : Group) (gs : Groups) : list (string * ScanResult.t) :=
  match g with
  | GCritical => critical_skills gs
  | GHigh => high_risk_skills gs
  | GMedium => medium_risk_skills gs
  | GLow => low_risk_skills gs
  end.

(** The group [classify_step] files a result under, by its highest
    risk: the last branch takes every level that is left. *)
Definition group_of_level (highest_risk : RiskLevel) : Group :=
  if RiskLevel_eqb highest_risk CRITICAL then GCritical
  else if RiskLevel_eqb highest_risk HIGH then GHigh
  else if RiskLevel_eqb highest_risk MEDIUM then GMedium
  else GLow.

(* ================================================================== *)
(** * The highest risk of [InteractiveScanner.run] *)

(** The dictionary [risk_priority]. *)
Definition risk_priority (r : RiskLevel) : nat :=
  match r with
  | CRITICAL => 4
  | HIGH => 3
  | MEDIUM => 2
  | LOW => 1
  | INFO => 0
  end.

Fixpoint run_highest_loop (highest_risk : RiskLevel)
    (findings : list RiskFinding.t) : RiskLevel :=
  match findings with
  | [] => highest_risk
  | finding :: rest =>
      if (risk_priority highest_risk
           <? risk_priority (RiskFinding.risk_level finding))%nat
      then run_highest_loop (RiskFinding.risk_level finding) rest
      else run_highest_loop highest_risk rest
  end.

Definition run_highest (findings : list RiskFinding.t) : RiskLevel :=
  run_highest_loop INFO findings.

(* ================================================================== *)
(** * A sample run

    A small skills directory and the part of [re.finditer] it needs, used
    to evaluate the scanner on concrete inputs. *)

Definition text_eqb (a b : text) : bool :=
  (List.length a =? List.length b)%nat
  && forallb (fun p => N.eqb (fst p) (snd p)) (combine a b).

(** The lines of the sample files, each with its newline. A rule of the
    basic and deep catalogs matches this one. *)
Definition line_os_system : text := text_of_string "os.system(cmd)" ++ [10%N].

(** The same call, indented, with an argument of 120 characters. *)
Definition line_long : text :=
  text_of_string "    " ++ text_of_string "os.system('"
  ++ repeat 97%N 120 ++ text_of_string "')" ++ [10%N].

Definition line_plain : text := text_of_string "hello world" ++ [10%N].

(** [re.finditer] on the lines above: the first rule of
    [behavior_analysis] opens a group it never closes, so compiling it
    raises [re.error]; the [os.system] rule matches once at the call;
    no other rule of the catalogs matches these lines. *)
Definition sample_finditer (pattern : string) (line : text)
  : option (list (nat * nat)) :=
  if String.eqb pattern "(?:while\s+True|for\s+\w+\s+in\s+range\(\s*\d{6,}"
  then None
  else if String.eqb pattern "\bos\.system\s*\("
  then if text_eqb line line_os_system then Some [(0, 10)]
       else if text_eqb line line_long then Some [(4, 14)]
       else Some []
  else Some [].

(** /skills/evil/{run.py, notes.md, data.bin, sub/big.sh, locked.txt,
    docs.md/}, /skills/.hidden/x.py, /skills/trusted/t.py,
    /skills/README.txt *)
Definition sample_fs : Node :=
  Dir (ECons "skills"
    (Dir (ECons "evil"
            (Dir (ECons "run.py" (File (Lines [line_plain; line_os_system]))
                 (ECons "notes.md" (File (Lines [line_plain]))
                 (ECons "data.bin" (File Unreadable)
                 (ECons "sub" (Dir (ECons "big.sh" (File (Lines [line_long])) ENil))
                 (ECons "locked.txt" (File Unreadable)
                 (ECons "docs.md" (Dir ENil)
                  ENil)))))))
         (ECons ".hidden"
            (Dir (ECons "x.py" (File (Lines [line_os_system])) ENil))
         (ECons "trusted"
            (Dir (ECons "t.py" (File (Lines [line_os_system])) ENil))
         (ECons "README.txt" (File (Lines [line_os_system]))
          ENil)))))
    ENil).

Definition sample_scanner : Scanner :=
  new_scanner "/skills" DEEP true (Some ["trusted"]).

Definition sample_state : State := mkState sample_scanner [].

Definition evil : Path := path_div (skills_dir sample_scanner) "evil".

Definition run_py : Path := child evil "run.py".

(** The finding of the sample for line 2 of /skills/evil/run.py. *)
Definition finding_run_py : RiskFinding.t :=
  RiskFinding.mk "evil" "evil/run.py" 2 CRITICAL "dangerous_commands"
    "Command execution with os.system" (text_of_string "os.system(cmd)")
    "Remove dangerous commands or add strict validation".

(** Two findings of lower levels and a result holding both. *)
Definition finding_medium : RiskFinding.t :=
  RiskFinding.mk "mixed" "mixed/a.py" 1 MEDIUM "suspicious_network"
    "Localhost port connection" (text_of_string "url")
    "Review network requests for legitimacy".

Definition finding_low : RiskFinding.t :=
  RiskFinding.mk "mixed" "mixed/a.py" 2 LOW "environment_fingerprinting"
    "System fingerprinting" (text_of_string "os.uname()")
    "Confirm necessity of environment probing".

Definition result_mixed : ScanResult.t :=
  ScanResult.mk "mixed" false [finding_low; finding_medium] 1 1.

Definition scanner_with_results : Scanner :=
  extend_results [result_mixed] sample_scanner.

(* ================================================================== *)
(** * Notions used in the statements *)

Definition level_of (f : RiskFinding.t) : RiskLevel := RiskFinding.risk_level f.

(** How the variable of the [elif] chain relates to that of the numeric
    loop: equal, or [LOW] against [INFO] (after [INFO] findings only). *)
Definition chain_tracks (hc hr : RiskLevel) : Prop :=
  hc = hr \/ (hc = LOW /\ hr = INFO).

(** What [scan_file] comes to on a file: the findings it returns and
    the exception it caught, if any. *)
Definition file_outcome (finditer : string -> text -> option (list (nat * nat)))
    (fs : Node) (slf : Scanner) (file_path : Path) (skill_name : string)
  : list RiskFinding.t * option Exn :=
  match resolve fs file_path with
  | None => ([], Some FileNotFoundError)
  | Some (Dir _) => ([], Some IsADirectoryError)
  | Some (File Unreadable) => ([], Some OSError)
  | Some (File (Lines lines)) =>
      scan_lines finditer slf file_path skill_name
        (patterns_for (scan_level slf)) lines []
  end.

(** The events of one call of [scan_file]. *)
Definition file_events (finditer : string -> text -> option (list (nat * nat)))
    (fs : Node) (slf : Scanner) (file_path : Path) (skill_name : string)
  : list Event :=
  EvOpen file_path ::
  match snd (file_outcome finditer fs slf file_path skill_name) with
  | Some e => [EvPrint (MsgCannotRead file_path e)]
  | None => []
  end.

(** The list [files_to_scan] of [scan_skill]. *)
Definition candidates (fs : Node) (skill_path : Path) (exts : list string)
  : list Path :=
  List.concat (map (rglob fs skill_path) exts).

Definition has_findings (finditer : string -> text -> option (list (nat * nat)))
    (fs : Node) (slf : Scanner) (skill_name : string) (file_path : Path)
  : bool :=
  match fst (file_outcome finditer fs slf file_path skill_name) with
  | [] => false
  | _ :: _ => true
  end.

(** The result object after the loop of [scan_skill] over [files]. *)
Definition after_files (finditer : string -> text -> option (list (nat * nat)))
    (fs : Node) (slf : Scanner) (skill_name : string)
    (files : list Path) (r : ScanResult.t) : ScanResult.t :=
  ScanResult.mk (ScanResult.skill_name r) (ScanResult.is_safe r)
    (ScanResult.findings r ++
     List.concat
       (map (fun p => fst (file_outcome finditer fs slf p skill_name)) files))
    (ScanResult.total_files r)
    (ScanResult.scanned_files r
     + List.length (filter (has_findings finditer fs slf skill_name) files)).

(** The snippet [scan_file] stores for a line. *)
Definition snippet_of (line : text) : text :=
  let snippet := strip line in
  if (100 <? List.length snippet)%nat
  then firstn 100 snippet ++ text_of_string "..."
  else snippet.

(** [f] is a finding the loops of [scan_file] build: for some line of
    the file and some rule of the catalog. *)
Definition produced (slf : Scanner) (file_path : Path) (skill_name : string)
    (patterns : Catalog) (lines : list text) (f : RiskFinding.t) : Prop :=
  exists line_num line category pattern_list pattern description rel,
    nth_error lines (line_num - 1) = Some line
    /\ 1 <= line_num
    /\ In (category, pattern_list) patterns
    /\ In (pattern, description) pattern_list
    /\ relative_to file_path (skills_dir slf) = Some rel
    /\ f = RiskFinding.mk skill_name (path_str rel) line_num
             (get_risk_level slf category) category description
             (snippet_of line) (get_recommendation slf category).

(** The file can be opened and read. *)
Definition readable (fs : Node) (p : Path) : bool :=
  match resolve fs p with
  | Some (File (Lines _)) => true
  | _ => false
  end.

Definition is_print (ev : Event) : bool :=
  match ev with EvPrint _ => true | _ => false end.

Definition is_open (ev : Event) : bool :=
  match ev with EvOpen _ => true | _ => false end.

(** The name ends with one of the extensions of [scan_skill]. *)
Definition has_extension (name : string) : bool :=
  existsb (endswith name) extensions.

(** The entries below a node, files and directories alike, each counted
    with the weight [m] of its name. *)
Fixpoint count_matching (m : string -> nat) (n : Node) {struct n} : nat :=
  match n with
  | File _ => 0
  | Dir es => count_matching_entries m es
  end
with count_matching_entries (m : string -> nat) (es : Entries) {struct es}
  : nat :=
  match es with
  | ENil => 0
  | ECons name n rest =>
      m name + count_matching m n + count_matching_entries m rest
  end.

(** The number of entries below the skill directory whose name ends with
    one of the extensions. *)
Definition count_candidates (fs : Node) (skill_path : Path) : nat :=
  match resolve fs skill_path with
  | Some n => count_matching (fun name => if has_extension name then 1 else 0) n
  | None => 0
  end.

(** The candidates by kind: the entries below a node with one of the
    extensions that are directories ([dirs] true) or files ([dirs]
    false). *)
Fixpoint count_kind (dirs : bool) (n : Node) {struct n} : nat :=
  match n with
  | File _ => 0
  | Dir es => count_kind_entries dirs es
  end
with count_kind_entries (dirs : bool) (es : Entries) {struct es} : nat :=
  match es with
  | ENil => 0
  | ECons name n rest =>
      (if has_extension name
          && Bool.eqb (match n with Dir _ => true | File _ => false end) dirs
       then 1 else 0)
      + count_kind dirs n + count_kind_entries dirs rest
  end.

Definition candidate_files (fs : Node) (skill_path : Path) : nat :=
  match resolve fs skill_path with
  | Some n => count_kind false n
  | None => 0
  end.

Definition candidate_dirs (fs : Node) (skill_path : Path) : nat :=
  match resolve fs skill_path with
  | Some n => count_kind true n
  | None => 0
  end.

(** A call of [scan_file] on [p] gives at least one finding. *)
Definition scan_finds (finditer : string -> text -> option (list (nat * nat)))
    (fs : Node) (skill_name : string) (st : State) (p : Path) : bool :=
  match fst (scan_file finditer fs p skill_name st) with
  | inr (_ :: _) => true
  | _ => false
  end.

Scheme Node_mut := Induction for Node Sort Prop
  with Entries_mut := Induction for Entries Sort Prop.

(** The filter of [scan_all_skills] when no target is given. *)
Definition visible_dir (fs : Node) (d : Path) : bool :=
  path_is_dir fs d && negb (startswith (path_name d) ".").

(** The findings [scan_file] builds for the lines of a file when no call
    raises: for each line in turn, each category of the catalog, each
    rule of the category, one finding per match. *)
Definition expected_findings
    (finditer : string -> text -> option (list (nat * nat)))
    (slf : Scanner) (rel : Path) (skill_name : string) (patterns : Catalog)
    (lines : list text) : list RiskFinding.t :=
  flat_map (fun '(line_num, line) =>
    flat_map (fun '(category, pattern_list) =>
      flat_map (fun '(pattern, description) =>
        match finditer pattern line with
        | Some matches =>
            map (fun _ : nat * nat =>
                   RiskFinding.mk skill_name (path_str rel) line_num
                     (get_risk_level slf category) category description
                     (snippet_of line) (get_recommendation slf category))
                matches
        | None => []
        end)
      pattern_list)
    patterns)
  (enumerate1 lines).

(** Every rule of the catalog compiles, as far as the lines need it. *)
Definition rules_compile
    (finditer : string -> text -> option (list (nat * nat)))
    (patterns : Catalog) (lines : list text) : Prop :=
  forall line category pattern_list pattern description,
    In line lines ->
    In (category, pattern_list) patterns ->
    In (pattern, description) pattern_list ->
    finditer pattern line <> None.

(** The number of matches of the rules of the catalog on the lines. *)
Definition count_matches
    (finditer : string -> text -> option (list (nat * nat)))
    (patterns : Catalog) (lines : list text) : nat :=
  list_sum (map (fun line =>
    list_sum (map (fun cat : string * list Rule =>
      list_sum (map (fun rule : Rule =>
        match finditer (fst rule) line with
        | Some matches => List.length matches
        | None => 0
        end) (snd cat))) patterns)) lines).

(** The components of [l] leave those of [pre] at some position, so that
    no extension of [l] has [pre] as a prefix. *)
Fixpoint diverges (pre l : list string) : bool :=
  match pre, l with
  | a :: pre', b :: l' => if String.eqb a b then diverges pre' l' else true
  | _, _ => false
  end.

(** The path is not below the directory, whatever is appended to it. *)
Definition outside (dir p : Path) : bool :=
  negb (String.eqb (anchor p) (anchor dir)) || diverges (names dir) (names p).

(** A second tree: the skills directory is empty and a package with a
    call to [os.system] lies beside it, at /other/bad/x.py. *)
Definition outside_fs : Node :=
  Dir (ECons "skills" (Dir ENil)
      (ECons "other"
         (Dir (ECons "bad"
                 (Dir (ECons "x.py" (File (Lines [line_os_system])) ENil))
                 ENil))
       ENil)).

(* ================================================================== *)
(** * The report of [print_results]

    The lines are kept as data: one constructor per [print] call of the
    method, with the values the line shows. *)

Inductive Line :=
| LNoSkills
| LWhitelistHeader (n : nat)
| LWhitelistName (name : string)
| LReportHeader
| LStatistics (total safe risky total_risks : nat)
| LGroupHeader (g : Group) (n : nat)
| LSkill (name : string)
| LFinding (level : RiskLevel) (description : string)
| LFile (file_path : string) (line_number : nat)
| LFix (recommendation : string)
| LMore (n : nat)
| LListed (name : string)
| LFound (n : nat)
| LAllSafe.

Definition unsafe (r : ScanResult.t) : bool := negb (ScanResult.is_safe r).

(** The block of the critical group: every finding of every skill, with
    its file and its fix. *)
Definition critical_block (skills : list (string * ScanResult.t)) : list Line :=
  match skills with
  | [] => []
  | _ :: _ =>
      LGroupHeader GCritical (List.length skills) ::
      flat_map (fun '(name, result) =>
        LSkill name ::
        flat_map (fun finding =>
          [LFinding (RiskFinding.risk_level finding)
             (RiskFinding.description finding);
           LFile (RiskFinding.file_path finding)
             (RiskFinding.line_number finding);
           LFix (RiskFinding.recommendation finding)])
          (ScanResult.findings result))
        skills
  end.

(** The block of the high group: the first three findings of a skill,
    and how many more there are. *)
Definition high_block (skills : list (string * ScanResult.t)) : list Line :=
  match skills with
  | [] => []
  | _ :: _ =>
      LGroupHeader GHigh (List.length skills) ::
      flat_map (fun '(name, result) =>
        LSkill name ::
        flat_map (fun finding =>
          [LFinding (RiskFinding.risk_level finding)
             (RiskFinding.description finding);
           LFile (RiskFinding.file_path finding)
             (RiskFinding.line_number finding)])
          (firstn 3 (ScanResult.findings result))
        ++ (if (3 <? List.length (ScanResult.findings result))%nat
            then [LMore (List.length (ScanResult.findings result) - 3)]
            else []))
        skills
  end.

(** The blocks of the medium and low groups: the names. *)
Definition names_block (g : Group) (skills : list (string * ScanResult.t))
  : list Line :=
  match skills with
  | [] => []
  | _ :: _ =>
      LGroupHeader g (List.length skills) ::
      map (fun '(name, _) => LListed name) skills
  end.

Definition print_results (slf : Scanner) : list Line :=
  match results slf with
  | [] => [LNoSkills]
  | _ :: _ =>
      let skipped :=
        match skipped_whitelist slf with
        | [] => []
        | _ :: _ =>
            LWhitelistHeader (List.length (skipped_whitelist slf)) ::
            map LWhitelistName (skipped_whitelist slf)
        end in
      let groups := print_results_classify slf in
      let total_risks :=
        list_sum (map (fun r => List.length (ScanResult.findings r))
                    (filter unsafe (results slf))) in
      let all_risky_skills :=
        map fst (critical_skills groups ++ high_risk_skills groups
                 ++ medium_risk_skills groups ++ low_risk_skills groups) in
      skipped
      ++ [LReportHeader;
          LStatistics (List.length (results slf))
            (List.length (filter ScanResult.is_safe (results slf)))
            (List.length (filter unsafe (results slf)))
            total_risks]
      ++ critical_block (critical_skills groups)
      ++ high_block (high_risk_skills groups)
      ++ names_block GMedium (medium_risk_skills groups)
      ++ names_block GLow (low_risk_skills groups)
      ++ match all_risky_skills with
         | [] => [LAllSafe]
         | _ :: _ => [LFound (List.length all_risky_skills)]
         end
  end.

Definition Group_eqb (a b : Group) : bool :=
  match a, b with
  | GCritical, GCritical | GHigh, GHigh | GMedium, GMedium | GLow, GLow => true
  | _, _ => false
  end.

(** The results [print_results] files under the group [g]. *)
Definition filed_under (g : Group) (r : ScanResult.t) : bool :=
  unsafe r
  && Group_eqb (group_of_level (print_results_highest (ScanResult.findings r)))
       g.

(* ================================================================== *)
(** * The whitelist file and the whitelist commands of [main]

    The JSON document of the file is taken as typed data: an object
    whose "whitelisted_skills", when present, is a list of objects with
    string values, each key present or not. *)

Record Item := mkItem {
  item_name : option string;
  item_reason : option string;
  item_added_at : option string
}.

Record WhitelistData := mkData {
  whitelisted_skills : option (list Item);
  notes : option string
}.

(** The file: missing, not a JSON document, or a document. *)
Inductive WhitelistFile :=
| Absent
| Malformed
| Stored (data : WhitelistData).

(** [data.get('whitelisted_skills', [])] *)
Definition entries (data : WhitelistData) : list Item :=
  match whitelisted_skills data with
  | Some items => items
  | None => []
  end.

(** [item.get('name', '')] *)
Definition name_or_empty (item : Item) : string :=
  match item_name item with
  | Some n => n
  | None => ""
  end.

(** [item.get('name') == name] *)
Definition named (name : string) (item : Item) : bool :=
  match item_name item with
  | Some n => String.eqb n name
  | None => false
  end.

(** What [_load_whitelist] reads from the file: the names of the
    entries, or nothing when the file is missing or [json.load] raises
    (the exception is caught there). *)
Definition stored_names (file : WhitelistFile) : option (list string) :=
  match file with
  | Absent => None
  | Malformed => None
  | Stored data => Some (map name_or_empty (entries data))
  end.

(** [_load_whitelist] on the file. *)
Definition load_from (use : bool) (file : WhitelistFile) : list string :=
  _load_whitelist use (stored_names file).

(** [SkillSecurityScanner(dir, level, use)] with the file in place. *)
Definition scanner_on (dir : string) (level : ScanLevel) (use : bool)
    (file : WhitelistFile) : Scanner :=
  new_scanner dir level use (stored_names file).

Inductive CliError := JSONDecodeError | KeyError.

(** The lines the whitelist commands print. *)
Inductive CliLine :=
| CliEmptyOrMissing
| CliTrustedHeader
| CliEntryName (name : string)
| CliEntryReason (reason : string)
| CliEntryAdded (added_at : string)
| CliAlready (name : string)
| CliAdded (name : string)
| CliNoWhitelist
| CliNotFound (name : string)
| CliRemoved (name : string).

Definition Cli : Type := (CliError + (WhitelistFile * list CliLine))%type.

(** [json.load] of the file, for a file that exists. *)
Definition json_load (file : WhitelistFile) (default : WhitelistData)
  : CliError + WhitelistData :=
  match file with
  | Absent => inr default
  | Malformed => inl JSONDecodeError
  | Stored data => inr data
  end.

(** [--whitelist-show] *)
Definition whitelist_show (file : WhitelistFile) : Cli :=
  match file with
  | Absent => inr (file, [CliEmptyOrMissing])
  | Malformed => inl JSONDecodeError
  | Stored data =>
      inr (file,
           CliTrustedHeader ::
           flat_map (fun item =>
             [CliEntryName
                (match item_name item with Some n => n | None => "Unknown" end)]
             ++ match item_reason item with
                | Some (String c r) => [CliEntryReason (String c r)]
                | _ => []
                end
             ++ [CliEntryAdded
                   (match item_added_at item with
                    | Some d => d
                    | None => "Unknown"
                    end)])
             (entries data))
  end.

(** [--whitelist-add name]; [today] is the date [datetime.now()] gives. *)
Definition whitelist_add (name today : string) (file : WhitelistFile) : Cli :=
  match json_load file
          (mkData (Some [])
             (Some "Skills in this list will be skipped during security scans"))
  with
  | inl e => inl e
  | inr data =>
      if existsb (named name) (entries data) then
        inr (file, [CliAlready name])
      else
        match whitelisted_skills data with
        | None => inl KeyError
        | Some items =>
            inr (Stored
                   (mkData
                      (Some (items ++
                             [mkItem (Some name)
                                (Some "Manually added via CLI") (Some today)]))
                      (notes data)),
                 [CliAdded name])
        end
  end.

(** [--whitelist-remove name] *)
Definition whitelist_remove (name : string) (file : WhitelistFile) : Cli :=
  match file with
  | Absent => inr (file, [CliNoWhitelist])
  | Malformed => inl JSONDecodeError
  | Stored data =>
      let original_count := List.length (entries data) in
      let kept := filter (fun item => negb (named name item)) (entries data) in
      if (List.length kept =? original_count)%nat then
        inr (file, [CliNotFound name])
      else
        inr (Stored (mkData (Some kept) (notes data)), [CliRemoved name])
  end.

(* ================================================================== *)
(** * The interactive scanner ([interactive_scan.py])

    The lines are kept as data, one constructor per message (a run of
    unconditional [print] calls is one message). The answers typed by the
    user are a list of texts; [input()] raises [EOFError] when it is used
    up. *)

Inductive RunLine :=
| RStart (level : ScanLevel) (dir : Path)
| RAllSafe
| RFound (n : nat)
| RSummary (i : nat) (level : RiskLevel) (name : string) (count : nat)
| RProcessing (name : string) (level : RiskLevel) (count : nat)
| RRisk (level : RiskLevel) (description : string)
| RMoreRisks (n : nat)
| RMenu
| RDetailsHeader (name : string)
| RDetailsLevel (level : RiskLevel) (count : nat)
| RDetail (finding : RiskFinding.t)
| RConfirm (name : string)
| RConfirmHint
| RDeleted (name : string)
| RDeleteFailed (name : string)
| RKept (name : string)
| RExiting
| RInvalidChoice
| RComplete
| RDeletedCount (n : nat)
| RDeletedName (name : string)
| RNoneDeleted
| RRemaining (n : nat).

Inductive RunError := EOFError | LevelKeyError.

(** The dictionary [by_level] of [print_finding_details]: a list for
    each of the four levels that are its keys. *)
Record ByLevel := mkByLevel {
  bl_critical : list RiskFinding.t;
  bl_high : list RiskFinding.t;
  bl_medium : list RiskFinding.t;
  bl_low : list RiskFinding.t
}.

(** [by_level[finding.risk_level].append(finding)]: [None] is the
    [KeyError] for a level that is no key. *)
Definition by_level_append (bl : ByLevel) (finding : RiskFinding.t)
  : option ByLevel :=
  match RiskFinding.risk_level finding with
  | CRITICAL =>
      Some (mkByLevel (bl_critical bl ++ [finding]) (bl_high bl)
              (bl_medium bl) (bl_low bl))
  | HIGH =>
      Some (mkByLevel (bl_critical bl) (bl_high bl ++ [finding])
              (bl_medium bl) (bl_low bl))
  | MEDIUM =>
      Some (mkByLevel (bl_critical bl) (bl_high bl)
              (bl_medium bl ++ [finding]) (bl_low bl))
  | LOW =>
      Some (mkByLevel (bl_critical bl) (bl_high bl) (bl_medium bl)
              (bl_low bl ++ [finding]))
  | INFO => None
  end.

Fixpoint group_by_level (findings : list RiskFinding.t) (bl : ByLevel)
  : option ByLevel :=
  match findings with
  | [] => Some bl
  | finding :: rest =>
      match by_level_append bl finding with
      | Some bl' => group_by_level rest bl'
      | None => None
      end
  end.

(** The lines for one level: nothing when it has no findings. *)
Definition level_lines (level : RiskLevel) (findings : list RiskFinding.t)
  : list RunLine :=
  match findings with
  | [] => []
  | _ :: _ => RDetailsLevel level (List.length findings) :: map RDetail findings
  end.

(** [print_finding_details]: the lines printed, and the exception that
    ended the call, if any. *)
Fixpoint print_finding_details (results : list ScanResult.t)
    (skill_name : string) : list RunLine * option RunError :=
  match results with
  | [] => ([], None)
  | result :: rest =>
      if String.eqb (ScanResult.skill_name result) skill_name
         && negb (ScanResult.is_safe result)
      then
        match group_by_level (ScanResult.findings result)
                (mkByLevel [] [] [] []) with
        | None => ([RDetailsHeader skill_name], Some LevelKeyError)
        | Some bl =>
            let '(more, raised) := print_finding_details rest skill_name in
            (RDetailsHeader skill_name
             :: level_lines CRITICAL (bl_critical bl)
             ++ level_lines HIGH (bl_high bl)
             ++ level_lines MEDIUM (bl_medium bl)
             ++ level_lines LOW (bl_low bl)
             ++ more,
             raised)
        end
      else print_finding_details rest skill_name
  end.

(** The list [risky_skills] of [run], before it is sorted. *)
Definition risky_skills (results : list ScanResult.t)
  : list (string * RiskLevel * nat) :=
  map (fun result =>
         (ScanResult.skill_name result,
          run_highest (ScanResult.findings result),
          List.length (ScanResult.findings result)))
      (filter (fun result =>
                 negb (ScanResult.is_safe result)
                 && negb (String.eqb (ScanResult.skill_name result) "365skill"))
         results).

(** The second dictionary [risk_priority] of [run], which has no key
    INFO. *)
Definition sort_priority (level : RiskLevel) : option nat :=
  match level with
  | CRITICAL => Some 4
  | HIGH => Some 3
  | MEDIUM => Some 2
  | LOW => Some 1
  | INFO => None
  end.

Definition level_of_entry (x : string * RiskLevel * nat) : RiskLevel :=
  snd (fst x).

(** Put [x] before the first entry whose priority is not above its
    own. *)
Fixpoint insert_desc (x : string * RiskLevel * nat)
    (l : list (string * RiskLevel * nat)) : list (string * RiskLevel * nat) :=
  match l with
  | [] => [x]
  | y :: rest =>
      if (risk_priority (level_of_entry y)
          <=? risk_priority (level_of_entry x))%nat
      then x :: y :: rest
      else y :: insert_desc x rest
  end.

(** [risky_skills.sort(key=..., reverse=True)]: the keys are computed
    first, which raises for INFO; the sort is stable, so its result is the
    one of any stable sort by descending priority. *)
Definition sort_risky (l : list (string * RiskLevel * nat))
  : RunError + list (string * RiskLevel * nat) :=
  if forallb (fun x => match sort_priority (level_of_entry x) with
                       | Some _ => true
                       | None => false
                       end) l
  then inr (fold_right insert_desc [] l)
  else inl LevelKeyError.

(** The outcome of a part of the dialogue: a value with the answers left
    to read, or an exception; the lines printed either way. *)
Inductive Step (A : Type) :=
| Done (a : A) (rest : list text) (lines : list RunLine)
| Stop (e : RunError) (lines : list RunLine).

Arguments Done {A} a rest lines.
Arguments Stop {A} e lines.

Definition say {A} (before : list RunLine) (s : Step A) : Step A :=
  match s with
  | Done a rest lines => Done a rest (before ++ lines)
  | Stop e lines => Stop e (before ++ lines)
  end.

(** What ends the dialogue about one skill. *)
Inductive Verdict :=
| NextSkill (deleted : bool)
| QuitRun.

Definition lines_of {A} (s : Step A) : list RunLine :=
  match s with
  | Done _ _ lines => lines
  | Stop _ lines => lines
  end.

(** The lines that [delete_skill] prints, one per call. *)
Definition is_delete_line (l : RunLine) : bool :=
  match l with
  | RDeleted _ | RDeleteFailed _ => true
  | _ => false
  end.

Section Interactive.

(** [input(...).strip().lower()] on what the user typed. *)
Variable normalize : text -> string.

(** [shutil.rmtree]: the tree it leaves, and whether it returned
    ([true]) or raised ([false]). What it had removed before it raised
    stays removed, so the tree can have changed in both cases. *)
Variable rmtree : Node -> Path -> Node * bool.

(** [self.scanner.results] and [self.skills_dir]. *)
Variable results_ : list ScanResult.t.
Variable skills_dir_ : Path.

Definition delete_skill (skill_name : string) (tree : Node)
  : bool * Node * list RunLine :=
  match rmtree tree (path_div skills_dir_ skill_name) with
  | (tree', true) => (true, tree', [RDeleted skill_name])
  | (tree', false) => (false, tree', [RDeleteFailed skill_name])
  end.

(** The loop of [confirm_deletion]. *)
Fixpoint confirm_loop (skill_name : string) (inputs : list text)
  : Step bool :=
  match inputs with
  | [] => Stop EOFError []
  | typed :: rest =>
      let response := normalize typed in
      if String.eqb response "y" then Done true rest []
      else if String.eqb response "n" then Done false rest []
      else if String.eqb response "v" then
        match print_finding_details results_ skill_name with
        | (lines, Some e) => Stop e lines
        | (lines, None) => say lines (confirm_loop skill_name rest)
        end
      else say [RConfirmHint] (confirm_loop skill_name rest)
  end.

Definition confirm_deletion (skill_name : string) (inputs : list text)
  : Step bool :=
  say [RConfirm skill_name] (confirm_loop skill_name inputs).

(** The loop of [run] over the choices for one skill. The tree is
    returned beside the outcome: a deletion stays done when the dialogue
    ends with an exception later. *)
Fixpoint choice_loop (name : string) (tree : Node) (inputs : list text)
  : Node * Step Verdict :=
  match inputs with
  | [] => (tree, Stop EOFError [RMenu])
  | typed :: rest =>
      let choice := normalize typed in
      if String.eqb choice "v" then
        match print_finding_details results_ name with
        | (lines, Some e) => (tree, Stop e (RMenu :: lines))
        | (lines, None) =>
            let '(tree', s) := choice_loop name tree rest in
            (tree', say (RMenu :: lines) s)
        end
      else if String.eqb choice "d" then
        match confirm_deletion name rest with
        | Stop e lines => (tree, Stop e (RMenu :: lines))
        | Done true rest' lines =>
            let '(ok, tree', said) := delete_skill name tree in
            (tree', Done (NextSkill ok) rest' (RMenu :: lines ++ said))
        | Done false rest' lines =>
            (tree, Done (NextSkill false) rest' (RMenu :: lines))
        end
      else if String.eqb choice "s" then
        (tree, Done (NextSkill false) rest [RMenu; RKept name])
      else if String.eqb choice "q" then
        (tree, Done QuitRun rest [RMenu; RExiting])
      else
        let '(tree', s) := choice_loop name tree rest in
        (tree', say [RMenu; RInvalidChoice] s)
  end.

(** The first three risks of the first result with the name. *)
Fixpoint first_risks (results : list ScanResult.t) (name : string)
  : list RunLine :=
  match results with
  | [] => []
  | result :: rest =>
      if String.eqb (ScanResult.skill_name result) name then
        map (fun finding =>
               RRisk (RiskFinding.risk_level finding)
                 (RiskFinding.description finding))
            (firstn 3 (ScanResult.findings result))
        ++ (if (3 <? List.length (ScanResult.findings result))%nat
            then [RMoreRisks (List.length (ScanResult.findings result) - 3)]
            else [])
      else first_risks rest name
  end.

(** The loop of [run] over the risky skills; the value is whether the
    user quit, with the list [skills_to_delete]. *)
Fixpoint skills_loop (risky : list (string * RiskLevel * nat)) (tree : Node)
    (skills_to_delete : list string) (inputs : list text)
  : Node * Step (bool * list string) :=
  match risky with
  | [] => (tree, Done (false, skills_to_delete) inputs [])
  | (name, level, count) :: more =>
      let shown := RProcessing name level count :: first_risks results_ name in
      match choice_loop name tree inputs with
      | (tree', Stop e lines) => (tree', Stop e (shown ++ lines))
      | (tree', Done QuitRun rest lines) =>
          (tree', Done (true, skills_to_delete) rest (shown ++ lines))
      | (tree', Done (NextSkill ok) rest lines) =>
          let '(tree'', s) :=
            skills_loop more tree'
              (if ok then skills_to_delete ++ [name] else skills_to_delete)
              rest in
          (tree'', say (shown ++ lines) s)
      end
  end.

(** The summary of [run]: one line per risky skill, numbered from 1. *)
Definition summary_lines (risky : list (string * RiskLevel * nat))
  : list RunLine :=
  map (fun '(i, (name, level, count)) => RSummary i level name count)
      (enumerate1 risky).

(** The final report of [run]. *)
Definition final_report (risky : list (string * RiskLevel * nat))
    (skills_to_delete : list string) : list RunLine :=
  RComplete
  :: match skills_to_delete with
     | [] => [RNoneDeleted]
     | _ :: _ =>
         RDeletedCount (List.length skills_to_delete)
         :: map RDeletedName skills_to_delete
     end
  ++ (if (0 <? List.length risky - List.length skills_to_delete)%nat
      then [RRemaining (List.length risky - List.length skills_to_delete)]
      else []).

(** [run] from the classification of the results on: the tree after the
    deletions, and the list [skills_to_delete] when the method returns. *)
Definition remediate (tree : Node) (inputs : list text)
  : Node * Step (list string) :=
  match sort_risky (risky_skills results_) with
  | inl e => (tree, Stop e [])
  | inr [] => (tree, Done [] inputs [RAllSafe])
  | inr risky =>
      let shown := RFound (List.length risky) :: summary_lines risky in
      match skills_loop risky tree [] inputs with
      | (tree', Stop e lines) => (tree', Stop e (shown ++ lines))
      | (tree', Done (true, deleted) rest lines) =>
          (tree', Done deleted rest (shown ++ lines))
      | (tree', Done (false, deleted) rest lines) =>
          (tree',
           Done deleted rest (shown ++ lines ++ final_report risky deleted))
      end
  end.

End Interactive.

(** [InteractiveScanner.run]: the opening message, the scan of all
    skills, whose lines are in the trace of the scanner, then the
    dialogue on [self.scanner.results]. The value is the tree after the
    deletions with the outcome of the dialogue, or the exception of the
    scan. *)
Definition run (finditer : string -> text -> option (list (nat * nat)))
    (normalize : text -> string) (rmtree : Node -> Path -> Node * bool)
    (fs : Node) (ext_iter : list string) (st : State) (inputs : list text)
  : State * (Exn + Node * Step (list string)) :=
  match scan_all_skills finditer fs ext_iter None st with
  | (inl e, st') => (st', inl e)
  | (inr _, st') =>
      let '(tree, s) :=
        remediate normalize rmtree (results (self st'))
          (skills_dir (self st)) fs inputs in
      (st',
       inr (tree,
            say [RStart (scan_level (self st)) (skills_dir (self st))] s))
  end.

(* ================================================================== *)
(** * Notions used in the statements about the interactive scanner *)

(** The entries of [risky_skills] of a level. *)
Definition has_level (level : RiskLevel) (x : string * RiskLevel * nat)
  : bool :=
  RiskLevel_eqb (level_of_entry x) level.

(** [x] is not ranked below [y]. *)
Definition not_below (x y : string * RiskLevel * nat) : Prop :=
  risk_priority (level_of_entry y) <= risk_priority (level_of_entry x).

(** A result that [run] lists as risky and ranks INFO. *)
Definition ranked_info (r : ScanResult.t) : Prop :=
  ScanResult.is_safe r = false
  /\ ScanResult.skill_name r <> "365skill"
  /\ run_highest (ScanResult.findings r) = INFO.

(** The results whose details [print_finding_details] prints. *)
Definition detailed (skill_name : string) (r : ScanResult.t) : bool :=
  String.eqb (ScanResult.skill_name r) skill_name
  && negb (ScanResult.is_safe r).

Definition at_level (level : RiskLevel) (f : RiskFinding.t) : bool :=
  RiskLevel_eqb (RiskFinding.risk_level f) level.

(** The details of one result, level by level, each level in the order
    of the findings. *)
Definition details_of (skill_name : string) (r : ScanResult.t)
  : list RunLine :=
  RDetailsHeader skill_name
  :: flat_map (fun level =>
                 level_lines level
                   (filter (at_level level) (ScanResult.findings r)))
       [CRITICAL; HIGH; MEDIUM; LOW].

(** The findings shown in the lines, and the names reported as deleted
    by [delete_skill]. *)
Definition shown_findings (lines : list RunLine) : list RiskFinding.t :=
  flat_map (fun l => match l with RDetail f => [f] | _ => [] end) lines.

Definition deleted_names (lines : list RunLine) : list string :=
  flat_map (fun l => match l with RDeleted name => [name] | _ => [] end)
    lines.

(** The names [delete_skill] was called for: it prints one line per
    call, whether [shutil.rmtree] returned or raised. *)
Definition attempted_names (lines : list RunLine) : list string :=
  flat_map (fun l => match l with
                     | RDeleted name | RDeleteFailed name => [name]
                     | _ => []
                     end)
    lines.

(** A result as [scan_skill] builds it: no finding of level INFO, and
    not safe only with findings. *)
Definition well_ranked (r : ScanResult.t) : Prop :=
  (forall f, In f (ScanResult.findings r) -> RiskFinding.risk_level f <> INFO)
  /\ (ScanResult.is_safe r = false -> ScanResult.findings r <> []).

(** [strip().lower()] on answers typed in ASCII. *)
Definition ascii_lower (c : N) : N :=
  if ((65 <=? c) && (c <=? 90))%N then (c + 32)%N else c.

Definition ascii_normalize (typed : text) : string :=
  string_of_list_ascii (map ascii_of_N (map ascii_lower (strip typed))).

Fixpoint remove_entry (name : string) (es : Entries) : Entries :=
  match es with
  | ENil => ENil
  | ECons name' n rest =>
      if String.eqb name' name then rest
      else ECons name' n (remove_entry name rest)
  end.

Fixpoint replace_entry (name : string) (n : Node) (es : Entries) : Entries :=
  match es with
  | ENil => ENil
  | ECons name' n' rest =>
      if String.eqb name' name then ECons name' n rest
      else ECons name' n' (replace_entry name n rest)
  end.

(** [shutil.rmtree] on a path without [..] components: the directory is
    removed with all below it; a path that names no directory raises. *)
Fixpoint rmtree_at (ns : list string) (cur : Node) : option Node :=
  match ns, cur with
  | [], _ => None
  | _ :: _, File _ => None
  | [name], Dir es =>
      match lookup_entry name es with
      | Some (Dir _) => Some (Dir (remove_entry name es))
      | _ => None
      end
  | n :: rest, Dir es =>
      match lookup_entry n es with
      | Some sub =>
          match rmtree_at rest sub with
          | Some sub' => Some (Dir (replace_entry n sub' es))
          | None => None
          end
      | None => None
      end
  end.

Definition rmtree_plain (tree : Node) (p : Path) : Node * bool :=
  match rmtree_at (names p) tree with
  | Some tree' => (tree', true)
  | None => (tree, false)
  end.

(** The directory at [ns] without its first entry. *)
Fixpoint drop_first_at (ns : list string) (cur : Node) : option Node :=
  match ns, cur with
  | [], Dir (ECons _ _ rest) => Some (Dir rest)
  | [], _ => None
  | _ :: _, File _ => None
  | n :: more, Dir es =>
      match lookup_entry n es with
      | Some sub =>
          match drop_first_at more sub with
          | Some sub' => Some (Dir (replace_entry n sub' es))
          | None => None
          end
      | None => None
      end
  end.

(** A [shutil.rmtree] that removes the first entry of the directory and
    then raises, as when a later entry cannot be removed. *)
Definition rmtree_partial (tree : Node) (p : Path) : Node * bool :=
  match drop_first_at (names p) tree with
  | Some tree' => (tree', false)
  | None => (tree, false)
  end.

(** An answer that [confirm_deletion] asks again for. *)
Definition undecided (normalize : text -> string) (typed : text) : Prop :=
  normalize typed <> "y" /\ normalize typed <> "n".

(** No answer of the list is [answer], once stripped and lowered. *)
Definition never (normalize : text -> string) (answer : string)
    (inputs : list text) : Prop :=
  Forall (fun typed => normalize typed <> answer) inputs.

(** Lines none of which is printed by [delete_skill]. *)
Definition quiet (lines : list RunLine) : Prop :=
  Forall (fun l => is_delete_line l = false) lines.

(** The tree after [shutil.rmtree] was called on the skills of the
    names, in order: each call leaves its tree to the next one, whether it
    returned or raised. *)
Definition removed (rmtree : Node -> Path -> Node * bool) (skills_dir_ : Path)
    (tree : Node) (skill_names : list string) : Node :=
  fold_left (fun t name => fst (rmtree t (path_div skills_dir_ name)))
    skill_names tree.

(** What the dialogue about one skill comes to, from [inputs] in [tree]
    to [tree'] with the outcome [s]: either [delete_skill] was not
    called, or the answers read hold a d and a y and it was called
    once. *)
Definition choice_outcome (normalize : text -> string)
    (rmtree : Node -> Path -> Node * bool) (skills_dir_ : Path)
    (name : string) (tree : Node) (inputs : list text)
    (tree' : Node) (s : Step Verdict) : Prop :=
  (tree' = tree
   /\ quiet (lines_of s)
   /\ forall v rest lines,
        s = Done v rest lines ->
        v <> NextSkill true /\ exists used, inputs = used ++ rest)
  \/ exists used rest lines,
       inputs = used ++ rest
       /\ In "d" (map normalize used)
       /\ In "y" (map normalize used)
       /\ s = Done (NextSkill
                      (snd (rmtree tree (path_div skills_dir_ name))))
             rest lines
       /\ tree' = fst (rmtree tree (path_div skills_dir_ name))
       /\ attempted_names lines = [name]
       /\ deleted_names lines
          = if snd (rmtree tree (path_div skills_dir_ name))
            then [name] else [].

(** The name of an entry of [risky_skills]. *)
Definition name_of_entry (x : string * RiskLevel * nat) : string :=
  fst (fst x).

(** A tree with the skill [mixed], and the skills directory as a
    relative path. *)
Definition mixed_fs : Node :=
  Dir (ECons "skills"
         (Dir (ECons "mixed"
                 (Dir (ECons "a.py" (File (Lines [line_plain])) ENil))
              (ECons "other" (Dir ENil) ENil)))
       ENil).

(** The entries the whitelist commands find in the file: none when
    there is no file. *)
Definition file_entries (file : WhitelistFile) : list Item :=
  match file with
  | Stored data => entries data
  | Absent | Malformed => []
  end.

(** A skill that holds nothing but a directory named like a script:
    /skills/web/highlight.js/LICENSE *)
Definition highlight_fs : Node :=
  Dir (ECons "skills"
         (Dir (ECons "web"
                 (Dir (ECons "highlight.js"
                         (Dir (ECons "LICENSE" (File (Lines [line_plain]))
                                 ENil))
                       ENil))
               ENil))
       ENil).

Definition web : Path := path_div (skills_dir sample_scanner) "web".

(* ================================================================== *)
(** * Facts about dictionaries *)

Section DictFacts.
Variable V : Type.
Implicit Types (d : dict V) (k : string) (v : V).

Lemma dict_get_set_other k k' v d :
  k <> k' -> dict_get k (dict_set k' v d) = dict_get k d.
Proof.
  intros Hne. induction d as [|[k0 v0] r IH]; simpl.
  - destruct (String.eqb_spec k' k); congruence.
  - destruct (String.eqb_spec k0 k') as [->|Hk0]; simpl.
    + destruct (String.eqb_spec k' k); congruence.
    + destruct (String.eqb_spec k0 k); auto.
Qed.

Lemma dict_keys_set k v d x :
  In x (dict_keys d) -> In x (dict_keys (dict_set k v d)).
Proof.
  unfold dict_keys. induction d as [|[k0 v0] r IH]; simpl; [tauto|].
  destruct (String.eqb k0 k); simpl; tauto.
Qed.

Lemma dict_get_update_fresh k d (new : list (string * V)) :
  ~ In k (map fst new) ->
  dict_get k (dict_update d new) = dict_get k d.
Proof.
  unfold dict_update. revert d.
  induction new as [|[k' v'] new IH]; simpl; intros d Hfresh; [reflexivity|].
  rewrite IH by tauto. apply dict_get_set_other. intros ->. tauto.
Qed.

Lemma dict_keys_update d (new : list (string * V)) x :
  In x (dict_keys d) -> In x (dict_keys (dict_update d new)).
Proof.
  unfold dict_update. revert d.
  induction new as [|[k' v'] new IH]; simpl; intros d Hin; [assumption|].
  apply IH, dict_keys_set, Hin.
Qed.

Lemma dict_get_Some_key k d v :
  dict_get k d = Some v -> In k (dict_keys d).
Proof.
  unfold dict_keys. induction d as [|[k0 v0] r IH]; simpl; [discriminate|].
  destruct (String.eqb_spec k0 k); auto.
Qed.
End DictFacts.

(* ================================================================== *)
(** * The catalogs grow with the depth *)

Lemma basic_keys :
  dict_keys basic_patterns =
  ["sensitive_api_keys"; "dangerous_commands"; "suspicious_network"].
Proof. reflexivity. Qed.

Lemma deep_keys :
  dict_keys deep_patterns =
  dict_keys basic_patterns ++
  ["code_obfuscation"; "suspicious_file_ops"; "data_exfiltration";
   "shell_injection"].
Proof. reflexivity. Qed.

Lemma full_keys :
  dict_keys full_patterns =
  dict_keys deep_patterns ++
  ["behavior_analysis"; "environment_fingerprinting"; "persistence_hooks"].
Proof. reflexivity. Qed.

Ltac in_literal :=
  repeat match goal with
         | H : In _ (_ :: _) |- _ => destruct H as [H | H]
         | H : In _ [] |- _ => destruct H
         | H : _ = _ :> string |- _ => first [discriminate H | subst]
         end.

Lemma basic_rules_kept_in_deep c rules :
  dict_get c basic_patterns = Some rules ->
  dict_get c deep_patterns = Some rules.
Proof.
  intros Hget. pose proof (dict_get_Some_key _ _ Hget) as Hkey.
  rewrite basic_keys in Hkey.
  unfold deep_patterns. rewrite dict_get_update_fresh; [exact Hget|].
  cbn [map fst]. intros Hnew. in_literal.
Qed.

Lemma deep_rules_kept_in_full c rules :
  dict_get c deep_patterns = Some rules ->
  dict_get c full_patterns = Some rules.
Proof.
  intros Hget. pose proof (dict_get_Some_key _ _ Hget) as Hkey.
  rewrite deep_keys, basic_keys in Hkey. cbn [app] in Hkey.
  unfold full_patterns. rewrite dict_get_update_fresh; [exact Hget|].
  cbn [map fst]. intros Hnew. in_literal.
Qed.

(** C4. The categories of the basic catalog are among those of the deep
    catalog, and those among the full catalog's, each inclusion strict; a
    category keeps its list of rules in every catalog that has it; and the
    risk level of a category is the same whatever scanner, hence whatever
    depth, asks for it. *)
Theorem C4_catalogs_nested :
  (incl (dict_keys basic_patterns) (dict_keys deep_patterns)
   /\ exists c, In c (dict_keys deep_patterns)
                /\ ~ In c (dict_keys basic_patterns))
  /\ (incl (dict_keys deep_patterns) (dict_keys full_patterns)
      /\ exists c, In c (dict_keys full_patterns)
                   /\ ~ In c (dict_keys deep_patterns))
  /\ (forall c rules,
        dict_get c basic_patterns = Some rules ->
        dict_get c deep_patterns = Some rules
        /\ dict_get c full_patterns = Some rules)
  /\ (forall c rules,
        dict_get c deep_patterns = Some rules ->
        dict_get c full_patterns = Some rules)
  /\ (forall (slf slf' : Scanner) c,
        get_risk_level slf c = get_risk_level slf' c).
Proof.
  repeat split.
  - intros c Hc. unfold deep_patterns. apply dict_keys_update, Hc.
  - exists "code_obfuscation". split.
    + rewrite deep_keys. apply in_or_app. right. simpl. tauto.
    + rewrite basic_keys. intros H. in_literal.
  - intros c Hc. unfold full_patterns. apply dict_keys_update, Hc.
  - exists "behavior_analysis". split.
    + rewrite full_keys. apply in_or_app. right. simpl. tauto.
    + rewrite deep_keys, basic_keys. cbn [app]. intros H. in_literal.
  - apply basic_rules_kept_in_deep; assumption.
  - apply deep_rules_kept_in_full, basic_rules_kept_in_deep; assumption.
  - apply deep_rules_kept_in_full.
Qed.

(** C4, witness: the rules of "dangerous_commands" are the same in the
    three catalogs. *)
Lemma C4_dangerous_commands_witness :
  exists rules,
    dict_get "dangerous_commands" basic_patterns = Some rules
    /\ dict_get "dangerous_commands" deep_patterns = Some rules
    /\ dict_get "dangerous_commands" full_patterns = Some rules
    /\ List.length rules = 5.
Proof.
  destruct (dict_get "dangerous_commands" basic_patterns) as [rules|] eqn:Hget;
    [|vm_compute in Hget; discriminate Hget].
  exists rules.
  destruct C4_catalogs_nested as (_ & _ & Hkept & _).
  destruct (Hkept _ _ Hget) as [Hdeep Hfull].
  repeat split; try assumption.
  vm_compute in Hget. injection Hget as <-. reflexivity.
Defined.

(* ================================================================== *)
(** * The two computations of the highest risk *)

Lemma run_loop_critical findings :
  run_highest_loop CRITICAL findings = CRITICAL.
Proof.
  induction findings as [|f rest IH]; simpl; [reflexivity|].
  destruct (RiskFinding.risk_level f); simpl; exact IH.
Qed.

(** On findings without an [INFO] level the two loops agree from any
    starting value. *)
Lemma loops_agree findings :
  (forall f, In f findings -> level_of f <> INFO) ->
  forall h, highest_risk_loop h findings = run_highest_loop h findings.
Proof.
  unfold level_of.
  induction findings as [|f rest IH]; intros Hno h; [reflexivity|].
  assert (Hf : RiskFinding.risk_level f <> INFO) by (apply Hno; left; reflexivity).
  assert (Hrest : forall h', highest_risk_loop h' rest = run_highest_loop h' rest)
    by (apply IH; intros; apply Hno; right; assumption).
  cbn [highest_risk_loop run_highest_loop].
  destruct (RiskFinding.risk_level f); try congruence;
    destruct h; cbn; rewrite ?Hrest, ?run_loop_critical; reflexivity.
Qed.

Lemma run_loop_swap h x y rest :
  run_highest_loop h (x :: y :: rest) = run_highest_loop h (y :: x :: rest).
Proof.
  cbn [run_highest_loop].
  destruct (RiskFinding.risk_level x), (RiskFinding.risk_level y), h;
    reflexivity.
Qed.

Lemma run_loop_perm findings ordering :
  Permutation findings ordering ->
  forall h, run_highest_loop h findings = run_highest_loop h ordering.
Proof.
  induction 1 as [|x l l' _ IH|x y l|l l' l'' _ IH1 _ IH2]; intros h.
  - reflexivity.
  - cbn [run_highest_loop]. now rewrite !IH.
  - apply run_loop_swap.
  - now rewrite IH1.
Qed.

(** The result of the numeric loop is an upper bound of the start and of
    every finding, and it is the start or the level of a finding. *)
Lemma run_loop_max findings : forall h,
  risk_priority h <= risk_priority (run_highest_loop h findings)
  /\ (forall f, In f findings ->
        risk_priority (level_of f)
        <= risk_priority (run_highest_loop h findings))
  /\ (run_highest_loop h findings = h
      \/ exists f, In f findings /\ level_of f = run_highest_loop h findings).
Proof.
  unfold level_of.
  induction findings as [|f rest IH]; intros h; cbn [run_highest_loop].
  - repeat split; auto. intros f [].
  - destruct (Nat.ltb_spec (risk_priority h)
                (risk_priority (RiskFinding.risk_level f))) as [Hlt|Hge].
    + destruct (IH (RiskFinding.risk_level f)) as (Hh & Hall & Hex).
      split; [lia|]. split.
      * intros f' [<-|Hin]; [exact Hh | apply Hall, Hin].
      * right. destruct Hex as [Heq|(f' & Hin & Heq)].
        -- exists f. split; [left; reflexivity | symmetry; exact Heq].
        -- exists f'. split; [right; exact Hin | exact Heq].
    + destruct (IH h) as (Hh & Hall & Hex).
      split; [exact Hh|]. split.
      * intros f' [<-|Hin]; [lia | apply Hall, Hin].
      * destruct Hex as [Heq|(f' & Hin & Heq)]; [left; exact Heq|].
        right. exists f'. split; [right; exact Hin | exact Heq].
Qed.

(** A finding of greatest severity whose level is the numeric loop's
    result, for a list that is not empty. *)
Lemma run_highest_attained findings :
  findings <> [] ->
  exists f, In f findings
            /\ level_of f = run_highest findings
            /\ forall f', In f' findings ->
                 risk_priority (level_of f') <= risk_priority (level_of f).
Proof.
  intros Hne. unfold run_highest.
  destruct (run_loop_max findings INFO) as (_ & Hall & Hex).
  destruct Hex as [Heq|(f & Hin & Heq)].
  - destruct findings as [|f0 rest]; [congruence|].
    exists f0. split; [left; reflexivity|].
    assert (H0 : risk_priority (level_of f0) <= 0).
    { specialize (Hall f0 (or_introl eq_refl)). rewrite Heq in Hall. exact Hall. }
    assert (Hl : level_of f0 = INFO)
      by (destruct (level_of f0); simpl in H0; try lia; reflexivity).
    split; [now rewrite Heq|].
    intros f' Hin. rewrite Hl. specialize (Hall f' Hin).
    rewrite Heq in Hall. exact Hall.
  - exists f. split; [exact Hin|]. split; [exact Heq|].
    intros f' Hin'. rewrite Heq. apply Hall, Hin'.
Qed.

Lemma loops_related findings : forall hc hr,
  chain_tracks hc hr ->
  chain_tracks (highest_risk_loop hc findings) (run_highest_loop hr findings).
Proof.
  unfold chain_tracks.
  induction findings as [|f rest IH]; intros hc hr Hrel; [exact Hrel|].
  cbn [highest_risk_loop run_highest_loop].
  destruct Hrel as [<-|[-> ->]];
    destruct (RiskFinding.risk_level f); try destruct hc; cbn;
    first [ solve [apply IH; auto]
          | solve [rewrite run_loop_critical; auto] ].
Qed.

Lemma group_of_chain findings :
  group_of_level (print_results_highest findings)
  = group_of_level (run_highest findings).
Proof.
  destruct (loops_related findings (hc := INFO) (hr := INFO)) as [H|[H1 H2]].
  - left. reflexivity.
  - unfold print_results_highest, run_highest. now rewrite H.
  - unfold print_results_highest, run_highest. now rewrite H1, H2.
Qed.

(** C9. On findings whose levels are among CRITICAL, HIGH, MEDIUM and
    LOW, the level the [elif] chain of [print_results] ends with is the
    level the numeric maximum of [InteractiveScanner.run] ends with, in
    every order of the findings; and that level is the same for every
    order. *)
Theorem C9_elif_chain_is_numeric_maximum :
  forall findings,
    (forall f, In f findings ->
       In (RiskFinding.risk_level f) [CRITICAL; HIGH; MEDIUM; LOW]) ->
    forall ordering,
      Permutation findings ordering ->
      print_results_highest ordering = run_highest ordering
      /\ run_highest ordering = run_highest findings.
Proof.
  intros findings Hlevels ordering Hperm. split.
  - unfold print_results_highest, run_highest. apply loops_agree.
    intros f Hin Hinfo.
    apply (Permutation_in f (Permutation_sym Hperm)) in Hin.
    specialize (Hlevels f Hin). unfold level_of in Hinfo.
    rewrite Hinfo in Hlevels. simpl in Hlevels.
    intuition discriminate.
  - unfold run_highest. symmetry. apply run_loop_perm, Hperm.
Qed.

(** C9, witness: the two loops agree on a MEDIUM and a LOW finding, in
    the other order too. *)
Lemma C9_sample_witness :
  print_results_highest [finding_medium; finding_low]
  = run_highest [finding_medium; finding_low]
  /\ run_highest [finding_medium; finding_low]
     = run_highest [finding_low; finding_medium].
Proof.
  apply (@C9_elif_chain_is_numeric_maximum [finding_low; finding_medium]).
  - intros f [<-|[<-|[]]]; cbn; tauto.
  - apply perm_swap.
Defined.

(* ================================================================== *)
(** * Classification puts a result in the group of its worst finding *)

Lemma classify_step_members g gs r x :
  In x (members g (classify_step gs r)) <->
  In x (members g gs)
  \/ (ScanResult.is_safe r = false
      /\ group_of_level (print_results_highest (ScanResult.findings r)) = g
      /\ x = (ScanResult.skill_name r, r)).
Proof.
  unfold classify_step, group_of_level.
  destruct (ScanResult.is_safe r).
  - split; [tauto | intros [H|(H & _)]; [exact H | discriminate H]].
  - destruct (print_results_highest (ScanResult.findings r)); cbn;
      destruct g; cbn; rewrite ?in_app_iff; cbn;
      intuition (try discriminate; auto).
Qed.

Lemma classify_members g rs : forall gs x,
  In x (members g (fold_left classify_step rs gs)) <->
  In x (members g gs)
  \/ exists r, In r rs
       /\ ScanResult.is_safe r = false
       /\ group_of_level (print_results_highest (ScanResult.findings r)) = g
       /\ x = (ScanResult.skill_name r, r).
Proof.
  induction rs as [|r0 rs IH]; intros gs x; cbn [fold_left].
  - split; [tauto | intros [H|(r & [] & _)]; exact H].
  - rewrite IH, classify_step_members. split.
    + intros [[H|(Hs & Hg & Hx)]|(r & Hin & Hr)].
      * left. exact H.
      * right. exists r0. repeat split; auto. left. reflexivity.
      * right. exists r. split; [right; exact Hin | exact Hr].
    + intros [H|(r & [<-|Hin] & Hr)].
      * left. left. exact H.
      * left. right. exact Hr.
      * right. exists r. split; assumption.
Qed.

(** C3. A result that keeps the invariant of [ScanResult] and has a
    finding is listed in one group only: that of a finding of greatest
    severity among its own; a result without findings is listed in none.
    The group does not depend on the order of the findings, and findings
    of levels MEDIUM and LOW, in either order, give MEDIUM. *)
Theorem C3_group_of_maximum_severity :
  forall (slf : Scanner) (r : ScanResult.t),
    In r (results slf) ->
    (ScanResult.is_safe r = true <-> ScanResult.findings r = []) ->
    (ScanResult.findings r = [] ->
       forall g, ~ In (ScanResult.skill_name r, r)
                      (members g (print_results_classify slf)))
    /\ (ScanResult.findings r <> [] ->
          exists f,
            In f (ScanResult.findings r)
            /\ (forall f', In f' (ScanResult.findings r) ->
                  risk_priority (RiskFinding.risk_level f')
                  <= risk_priority (RiskFinding.risk_level f))
            /\ forall g,
                 In (ScanResult.skill_name r, r)
                    (members g (print_results_classify slf))
                 <-> g = group_of_level (RiskFinding.risk_level f))
    /\ (forall ordering,
          Permutation (ScanResult.findings r) ordering ->
          group_of_level (print_results_highest ordering)
          = group_of_level (print_results_highest (ScanResult.findings r)))
    /\ (forall f1 f2,
          RiskFinding.risk_level f1 = MEDIUM ->
          RiskFinding.risk_level f2 = LOW ->
          print_results_highest [f1; f2] = MEDIUM
          /\ print_results_highest [f2; f1] = MEDIUM).
Proof.
  intros slf r Hin Hinv. unfold print_results_classify.
  split; [|split; [|split]].
  - intros Hempty g Hmem. apply classify_members in Hmem.
    destruct Hmem as [Hmem|(r' & _ & Hs & _ & Hx)]; [destruct g; exact Hmem|].
    injection Hx as _ <-.
    apply (proj2 Hinv) in Hempty. congruence.
  - intros Hne.
    destruct (run_highest_attained Hne) as (f & Hf & Hlevel & Hmax).
    exists f. split; [exact Hf|]. split; [exact Hmax|].
    intros g. rewrite classify_members. split.
    + intros [Hmem|(r' & _ & _ & Hg & Hx)]; [destruct g; destruct Hmem|].
      injection Hx as _ <-.
      rewrite <- Hg, group_of_chain. unfold level_of in Hlevel.
      now rewrite Hlevel.
    + intros ->. right. exists r. split; [exact Hin|]. split.
      * destruct (ScanResult.is_safe r); [|reflexivity].
        exfalso. apply Hne, Hinv. reflexivity.
      * split; [|reflexivity].
        rewrite group_of_chain. unfold level_of in Hlevel. now rewrite Hlevel.
  - intros ordering Hperm. rewrite !group_of_chain. unfold run_highest.
    now rewrite (run_loop_perm Hperm).
  - intros f1 f2 H1 H2. unfold print_results_highest.
    cbn [highest_risk_loop]. rewrite H1, H2. split; reflexivity.
Qed.

(** C3, witness: the sample result with a LOW and a MEDIUM finding is
    listed in the medium group and not in the low group. *)
Lemma C3_sample_witness :
  In ("mixed", result_mixed)
     (members GMedium (print_results_classify scanner_with_results))
  /\ ~ In ("mixed", result_mixed)
          (members GLow (print_results_classify scanner_with_results)).
Proof.
  assert (Hin : In result_mixed (results scanner_with_results))
    by (left; reflexivity).
  assert (Hinv : ScanResult.is_safe result_mixed = true
                 <-> ScanResult.findings result_mixed = [])
    by (cbn; split; discriminate).
  destruct (@C3_group_of_maximum_severity scanner_with_results result_mixed
              Hin Hinv) as (_ & Hgroup & _).
  destruct Hgroup as (f & Hf & Hmax & Hiff); [cbn; discriminate|].
  assert (Hlevel : RiskFinding.risk_level f = MEDIUM).
  { destruct Hf as [<-|[<-|[]]]; [|reflexivity].
    specialize (Hmax finding_medium (or_intror (or_introl eq_refl))).
    cbn in Hmax. lia. }
  rewrite Hlevel in Hiff. split.
  - apply Hiff. reflexivity.
  - intros Hlow. apply Hiff in Hlow. discriminate Hlow.
Defined.

(* ================================================================== *)
(** * What the monadic methods compute *)

Section Runs.

Variable finditer : string -> text -> option (list (nat * nat)).
Variable fs : Node.
Variable ext_iter : list string.

Lemma scan_file_run file_path skill_name st :
  scan_file finditer fs file_path skill_name st =
  (inr (fst (file_outcome finditer fs (self st) file_path skill_name)),
   mkState (self st)
     (trace st ++ file_events finditer fs (self st) file_path skill_name)).
Proof.
  unfold scan_file, file_events, file_outcome, open_readlines, try_except,
    bind,
    get_self, print, emit, raise, ret.
  cbn [self trace].
  destruct (resolve fs file_path) as [[[|lines]|es]|]; cbn [fst snd self trace];
    rewrite <- ?app_assoc; try reflexivity.
  destruct (scan_lines finditer (self st) file_path skill_name
              (patterns_for (scan_level (self st))) lines [])
    as [findings [e|]]; cbn [fst snd self trace];
    rewrite <- ?app_assoc; reflexivity.
Qed.

Lemma collect_files_run skill_path exts : forall acc st,
  collect_files fs skill_path exts acc st =
  (inr (acc ++ candidates fs skill_path exts),
   mkState (self st) (trace st ++ map (EvRglob skill_path) exts)).
Proof.
  unfold candidates.
  induction exts as [|ext rest IH]; intros acc st; cbn.
  - rewrite !app_nil_r. destruct st; reflexivity.
  - unfold bind, rglob_, emit, ret. cbn. rewrite IH. cbn.
    now rewrite <- !app_assoc.
Qed.

Lemma scan_files_run skill_name files : forall r st,
  scan_files finditer fs files skill_name r st =
  (inr (after_files finditer fs (self st) skill_name files r),
   mkState (self st)
     (trace st ++
      List.concat (map (fun p => file_events finditer fs (self st) p skill_name)
                files))).
Proof.
  unfold after_files.
  induction files as [|p rest IH]; intros r st; cbn [scan_files].
  - cbn. rewrite !app_nil_r, Nat.add_0_r. destruct r, st; reflexivity.
  - unfold bind. rewrite scan_file_run. rewrite IH. cbn [self trace].
    f_equal; [|now rewrite <- app_assoc].
    f_equal. unfold has_findings. cbn [map List.concat filter].
    destruct (fst (file_outcome finditer fs (self st) p skill_name))
      as [|f0 fds]; cbn; f_equal; rewrite <- ?app_assoc; cbn; try reflexivity; lia.
Qed.

(** [scan_skill] on a skill that is neither the tool itself nor
    whitelisted. *)
Lemma scan_skill_scanned skill_path st :
  path_name skill_path <> "365skill" ->
  str_in (path_name skill_path) (whitelist (self st)) = false ->
  let name := path_name skill_path in
  let files := candidates fs skill_path ext_iter in
  let found :=
    List.concat (map (fun p => fst (file_outcome finditer fs (self st) p name))
              files) in
  scan_skill finditer fs ext_iter skill_path st =
  (inr (ScanResult.mk name (List.length found =? 0)%nat found
          (List.length files)
          (List.length (filter (has_findings finditer fs (self st) name) files))),
   mkState (self st)
     (trace st ++ EvPrint (MsgScanning name) ::
      map (EvRglob skill_path) ext_iter ++
      List.concat (map (fun p => file_events finditer fs (self st) p name) files))).
Proof.
  intros Hself Hwl. cbv zeta. unfold scan_skill.
  unfold bind at 1. unfold print, emit. cbn [self trace].
  destruct (String.eqb_spec (path_name skill_path) "365skill") as [Heq|_];
    [contradiction|].
  unfold bind at 1. unfold get_self. cbn [self trace]. rewrite Hwl.
  unfold bind at 1. rewrite collect_files_run. cbn [self trace app].
  unfold bind at 1. rewrite scan_files_run. cbn [self trace].
  unfold ret, after_files, set_is_safe, set_total_files, ScanResult.new.
  cbn. f_equal. now rewrite <- !app_assoc.
Qed.

(** [scan_skill] never raises. *)
Lemma scan_skill_returns skill_path st :
  exists r st', scan_skill finditer fs ext_iter skill_path st = (inr r, st').
Proof.
  unfold scan_skill. unfold bind at 1. unfold print, emit. cbn [self trace].
  destruct (String.eqb (path_name skill_path) "365skill").
  - eexists _, _. reflexivity.
  - unfold bind at 1. unfold get_self. cbn [self trace].
    destruct (str_in (path_name skill_path) (whitelist (self st))).
    + eexists _, _. reflexivity.
    + unfold bind at 1. rewrite collect_files_run.
      unfold bind at 1. rewrite scan_files_run.
      eexists _, _. reflexivity.
Qed.

End Runs.

(* ================================================================== *)
(** * The findings of a file *)

Lemma for_each_preserves {A} (P : list RiskFinding.t -> Prop)
    (body : A -> Loop) (xs : list A) :
  (forall x acc, In x xs -> P acc -> P (fst (body x acc))) ->
  forall acc, P acc -> P (fst (for_each body xs acc)).
Proof.
  induction xs as [|x rest IH]; intros Hbody acc Hacc; cbn [for_each].
  - exact Hacc.
  - pose proof (Hbody x acc (or_introl eq_refl) Hacc) as Hx.
    destruct (body x acc) as [acc' [e|]]; cbn [fst] in *.
    + exact Hx.
    + apply IH; [|exact Hx]. intros y a Hy. apply Hbody. right. exact Hy.
Qed.

Lemma enumerate_from_nth {A} (l : list A) : forall s n x,
  In (n, x) (combine (seq s (List.length l)) l) ->
  s <= n /\ nth_error l (n - s) = Some x.
Proof.
  induction l as [|a l IH]; intros s n x Hin; cbn in Hin; [destruct Hin|].
  destruct Hin as [Heq|Hin].
  - injection Heq as <- <-. rewrite Nat.sub_diag. split; [lia | reflexivity].
  - apply IH in Hin. destruct Hin as [Hle Hnth]. split; [lia|].
    replace (n - s) with (S (n - S s)) by lia. exact Hnth.
Qed.

Section Findings.

Variable finditer : string -> text -> option (list (nat * nat)).

(** Every finding the loops of [scan_file] add is [produced]. *)
Lemma scan_lines_produced slf file_path skill_name patterns lines acc :
  Forall (produced slf file_path skill_name patterns lines) acc ->
  Forall (produced slf file_path skill_name patterns lines)
    (fst (scan_lines finditer slf file_path skill_name patterns lines acc)).
Proof.
  unfold scan_lines.
  apply for_each_preserves. intros [line_num line] acc1 Hline.
  apply enumerate_from_nth in Hline. destruct Hline as [Hnum Hnth].
  apply for_each_preserves. intros [category pattern_list] acc2 Hcat.
  apply for_each_preserves. intros [pattern description] acc3 Hrule Hacc3.
  destruct (finditer pattern line) as [matches|]; [|exact Hacc3].
  revert Hacc3. apply for_each_preserves. intros _ acc4 _ Hacc4.
  unfold add_finding.
  destruct (relative_to file_path (skills_dir slf)) as [rel|] eqn:Hrel;
    cbn [fst]; [|exact Hacc4].
  apply Forall_app. split; [exact Hacc4|].
  constructor; [|constructor].
  exists line_num, line, category, pattern_list, pattern, description, rel.
  repeat split; auto.
Qed.

Lemma file_outcome_produced fs slf file_path skill_name f :
  In f (fst (file_outcome finditer fs slf file_path skill_name)) ->
  exists lines,
    resolve fs file_path = Some (File (Lines lines))
    /\ produced slf file_path skill_name (patterns_for (scan_level slf))
         lines f.
Proof.
  unfold file_outcome.
  destruct (resolve fs file_path) as [[[|lines]|es]|]; cbn [fst];
    try (intros []).
  intros Hin. exists lines. split; [reflexivity|].
  pose proof (@scan_lines_produced slf file_path skill_name
                (patterns_for (scan_level slf)) lines [] (Forall_nil _)) as Hall.
  rewrite Forall_forall in Hall. apply Hall, Hin.
Qed.

End Findings.

Lemma strip_prefix_app pre l : strip_prefix pre (pre ++ l) = Some l.
Proof.
  induction pre as [|a pre IH]; cbn; [reflexivity|].
  now rewrite String.eqb_refl.
Qed.

(* ================================================================== *)
(** * [str.strip] *)

Lemma lstrip_spaces pre l :
  Forall (fun c => is_space c = true) pre -> lstrip (pre ++ l) = lstrip l.
Proof.
  induction 1 as [|c pre Hc _ IH]; cbn; [reflexivity|]. now rewrite Hc.
Qed.

Lemma lstrip_starts_nonspace l :
  (forall a, hd_error l = Some a -> is_space a = false) -> lstrip l = l.
Proof.
  destruct l as [|c l]; cbn; [reflexivity|]. intros H.
  now rewrite (H c eq_refl).
Qed.

(** [strip] removes the whitespace around a text that neither starts nor
    ends with whitespace, and nothing else. *)
Lemma strip_spec pre core post :
  Forall (fun c => is_space c = true) pre ->
  Forall (fun c => is_space c = true) post ->
  (forall a, hd_error core = Some a -> is_space a = false) ->
  (forall z, hd_error (rev core) = Some z -> is_space z = false) ->
  strip (pre ++ core ++ post) = core.
Proof.
  intros Hpre Hpost Hfirst Hlast. unfold strip, rstrip.
  rewrite lstrip_spaces by exact Hpre.
  destruct core as [|c core].
  - cbn [app]. replace post with (post ++ []) by apply app_nil_r.
    rewrite lstrip_spaces by exact Hpost. reflexivity.
  - cbn [app lstrip]. rewrite (Hfirst c eq_refl).
    change (c :: core ++ post) with ((c :: core) ++ post).
    rewrite rev_app_distr, lstrip_spaces
      by (apply Forall_rev; exact Hpost).
    rewrite lstrip_starts_nonspace by exact Hlast.
    apply rev_involutive.
Qed.

Lemma snippet_of_short line :
  List.length (strip line) <= 100 -> snippet_of line = strip line.
Proof.
  intros Hlen. unfold snippet_of.
  destruct (Nat.ltb_spec 100 (List.length (strip line))); [lia | reflexivity].
Qed.

Lemma snippet_of_long line :
  100 < List.length (strip line) ->
  snippet_of line = firstn 100 (strip line) ++ text_of_string "..."
  /\ List.length (snippet_of line) = 103.
Proof.
  intros Hlen. unfold snippet_of.
  destruct (Nat.ltb_spec 100 (List.length (strip line))); [|lia].
  split; [reflexivity|].
  rewrite length_app, length_firstn.
  change (List.length (text_of_string "...")) with 3. lia.
Qed.

(* ================================================================== *)
(** * Properties of the findings of [scan_file] *)

(* ================================================================== *)
(** * Properties of the findings of [scan_file] *)

(** C1, counterexample. [scan_file] on the sample file
    /skills/evil/run.py of the skill /skills/evil gives one finding, whose
    [file_path] is "evil/run.py", while the path of the file relative to
    the root of the skill package is "run.py". *)
Lemma C1_file_path_keeps_skill_directory :
  exists rel,
    fst (scan_file sample_finditer sample_fs run_py (path_name evil)
           sample_state) = inr [finding_run_py]
    /\ relative_to run_py evil = Some rel
    /\ path_str rel = "run.py"
    /\ RiskFinding.file_path finding_run_py = "evil/run.py"
    /\ RiskFinding.file_path finding_run_py <> path_str rel.
Proof.
  exists (mkPath "" ["run.py"]).
  split; [vm_compute; reflexivity|].
  split; [vm_compute; reflexivity|].
  split; [reflexivity|].
  split; [reflexivity|].
  cbn. discriminate.
Qed.

(** C1 (amended). [scan_file] returns, and the [file_path] of every
    finding is the path of the scanned file relative to the skills
    directory of the scanner: for a file below a skill directory that
    lies in the skills directory, the name of the skill directory followed
    by the components below it, joined by slashes. *)
Theorem C1_file_path_relative_to_skills_dir :
  forall finditer fs file_path skill_name st,
  exists findings st',
    scan_file finditer fs file_path skill_name st = (inr findings, st')
    /\ forall f, In f findings ->
         (exists rel,
            relative_to file_path (skills_dir (self st)) = Some rel
            /\ RiskFinding.file_path f = path_str rel)
         /\ (forall skill below,
               anchor file_path = anchor (skills_dir (self st)) ->
               names file_path
               = names (skills_dir (self st)) ++ skill :: below ->
               RiskFinding.file_path f = String.concat "/" (skill :: below)).
Proof.
  intros finditer fs file_path skill_name st.
  eexists _, _. split; [apply scan_file_run|].
  intros f Hin. apply file_outcome_produced in Hin.
  destruct Hin as (lines & _ & Hprod).
  destruct Hprod as (n & line & c & pl & pat & d & rel & _ & _ & _ & _ & Hrel & ->).
  cbn [RiskFinding.file_path]. split.
  - exists rel. split; [exact Hrel | reflexivity].
  - intros skill below Hanchor Hnames. unfold relative_to in Hrel.
    rewrite Hanchor, String.eqb_refl, Hnames, strip_prefix_app in Hrel.
    injection Hrel as <-. reflexivity.
Qed.

(** C1, witness: the finding of /skills/evil/run.py in the sample. *)
Lemma C1_sample_witness :
  exists findings st',
    scan_file sample_finditer sample_fs run_py "evil" sample_state
    = (inr findings, st')
    /\ In finding_run_py findings
    /\ RiskFinding.file_path finding_run_py
       = String.concat "/" ["evil"; "run.py"].
Proof.
  destruct (C1_file_path_relative_to_skills_dir sample_finditer sample_fs
              run_py "evil" sample_state) as (findings & st' & Hrun & Hall).
  assert (Hfst : fst (scan_file sample_finditer sample_fs run_py "evil"
                        sample_state) = inr [finding_run_py])
    by (vm_compute; reflexivity).
  rewrite Hrun in Hfst. cbn [fst] in Hfst. injection Hfst as ->.
  exists [finding_run_py], st'. split; [exact Hrun|].
  split; [left; reflexivity|].
  apply (Hall finding_run_py (or_introl eq_refl)); reflexivity.
Defined.

(** C8. [scan_file] returns, and every finding carries the number of a
    line of the file (counted from 1) and, as its snippet, that line
    stripped when the stripped line has at most 100 characters, else its
    first 100 characters followed by three dots, 103 characters in all.
    Stripping removes the whitespace around a text that neither starts
    nor ends with whitespace. *)
Theorem C8_snippet_is_stripped_line_cut_at_100 :
  forall finditer fs file_path skill_name st,
  exists findings st',
    scan_file finditer fs file_path skill_name st = (inr findings, st')
    /\ (forall f, In f findings ->
          exists lines line,
            resolve fs file_path = Some (File (Lines lines))
            /\ 1 <= RiskFinding.line_number f
            /\ nth_error lines (RiskFinding.line_number f - 1) = Some line
            /\ (List.length (strip line) <= 100 ->
                RiskFinding.code_snippet f = strip line)
            /\ (100 < List.length (strip line) ->
                RiskFinding.code_snippet f
                = firstn 100 (strip line) ++ text_of_string "..."
                /\ List.length (RiskFinding.code_snippet f) = 103))
    /\ (forall pre core post,
          Forall (fun c => is_space c = true) pre ->
          Forall (fun c => is_space c = true) post ->
          (forall a, hd_error core = Some a -> is_space a = false) ->
          (forall z, hd_error (rev core) = Some z -> is_space z = false) ->
          strip (pre ++ core ++ post) = core).
Proof.
  intros finditer fs file_path skill_name st.
  eexists _, _. split; [apply scan_file_run|].
  split; [|apply strip_spec].
  intros f Hin. apply file_outcome_produced in Hin.
  destruct Hin as (lines & Hres & Hprod).
  destruct Hprod as (n & line & c & pl & pat & d & rel & Hnth & Hn & _ & _ & _ & ->).
  exists lines, line. cbn [RiskFinding.line_number RiskFinding.code_snippet].
  repeat split; auto using snippet_of_short.
  - apply snippet_of_long. assumption.
  - apply snippet_of_long. assumption.
Qed.

(** C8, witness: the long line of /skills/evil/sub/big.sh in the sample
    gives a snippet of 103 characters. *)
Lemma C8_sample_witness :
  exists findings st' f,
    scan_file sample_finditer sample_fs (path_div evil "sub/big.sh") "evil"
      sample_state = (inr findings, st')
    /\ findings = [f]
    /\ List.length (RiskFinding.code_snippet f) = 103.
Proof.
  destruct (C8_snippet_is_stripped_line_cut_at_100 sample_finditer sample_fs
              (path_div evil "sub/big.sh") "evil" sample_state)
    as (findings & st' & Hrun & Hall & _).
  assert (Hone : exists f,
            fst (scan_file sample_finditer sample_fs
                   (path_div evil "sub/big.sh") "evil" sample_state)
            = inr [f])
    by (vm_compute; eexists; reflexivity).
  destruct Hone as [f Hfst].
  rewrite Hrun in Hfst. cbn [fst] in Hfst. injection Hfst as ->.
  exists [f], st', f. split; [exact Hrun|]. split; [reflexivity|].
  destruct (Hall f (or_introl eq_refl))
    as (lines & line & Hres & _ & Hnth & _ & Hlong).
  apply Hlong.
  vm_compute in Hres. injection Hres as <-.
  apply nth_error_In in Hnth. destruct Hnth as [<-|[]].
  vm_compute. repeat constructor.
Defined.

(* ================================================================== *)
(** * Properties of [scan_skill] *)

Section SkillFacts.

Variable finditer : string -> text -> option (list (nat * nat)).
Variable fs : Node.
Variable ext_iter : list string.

Lemma scan_skill_own_package skill_path st :
  path_name skill_path = "365skill" ->
  scan_skill finditer fs ext_iter skill_path st =
  (inr (ScanResult.mk "365skill" true [] 0 0),
   mkState (self st) (trace st ++ [EvPrint (MsgScanning "365skill")])).
Proof.
  intros Hname. unfold scan_skill. rewrite Hname. reflexivity.
Qed.

Lemma scan_skill_whitelisted skill_path st :
  path_name skill_path <> "365skill" ->
  str_in (path_name skill_path) (whitelist (self st)) = true ->
  scan_skill finditer fs ext_iter skill_path st =
  (inr (ScanResult.mk (path_name skill_path) true [] 0 0),
   mkState (append_skipped (path_name skill_path) (self st))
     (trace st ++ [EvPrint (MsgScanning (path_name skill_path));
                   EvPrint MsgSkipWhitelisted])).
Proof.
  intros Hname Hwl. unfold scan_skill.
  unfold bind at 1. unfold print, emit. cbn [self trace].
  destruct (String.eqb_spec (path_name skill_path) "365skill");
    [contradiction|].
  unfold bind at 1. unfold get_self. cbn [self trace]. rewrite Hwl.
  unfold bind, emit, set_self, ret. cbn. now rewrite <- app_assoc.
Qed.

Lemma scan_file_unreadable file_path skill_name st :
  readable fs file_path = false ->
  exists e,
    scan_file finditer fs file_path skill_name st =
    (inr [],
     mkState (self st)
       (trace st ++ [EvOpen file_path; EvPrint (MsgCannotRead file_path e)])).
Proof.
  intros Hread. rewrite scan_file_run. unfold file_events, file_outcome.
  unfold readable in Hread.
  destruct (resolve fs file_path) as [[[|lines]|es]|]; try discriminate;
    eexists; reflexivity.
Qed.

End SkillFacts.

(** C2. [scan_skill] returns a result, and the result is marked safe
    exactly when it has no findings, whether the skill is the tool's own
    package, whitelisted, or scanned. *)
Theorem C2_is_safe_iff_no_findings :
  forall finditer fs ext_iter skill_path st,
  exists r st',
    scan_skill finditer fs ext_iter skill_path st = (inr r, st')
    /\ (ScanResult.is_safe r = true <-> ScanResult.findings r = []).
Proof.
  intros finditer fs ext_iter skill_path st.
  destruct (String.eqb_spec (path_name skill_path) "365skill") as [Hown|Hown].
  - eexists _, _. split; [apply scan_skill_own_package, Hown|].
    cbn. tauto.
  - destruct (str_in (path_name skill_path) (whitelist (self st))) eqn:Hwl.
    + eexists _, _. split; [apply scan_skill_whitelisted; assumption|].
      cbn. tauto.
    + eexists _, _. split; [apply scan_skill_scanned; assumption|].
      cbn [ScanResult.is_safe ScanResult.findings].
      rewrite Nat.eqb_eq. apply length_zero_iff_nil.
Qed.

(** C2, witness: the skill /skills/evil of the sample is not safe and
    has findings. *)
Lemma C2_sample_witness :
  exists r st',
    scan_skill sample_finditer sample_fs extensions evil sample_state
    = (inr r, st')
    /\ ScanResult.is_safe r = false
    /\ ScanResult.findings r <> [].
Proof.
  destruct (C2_is_safe_iff_no_findings sample_finditer sample_fs extensions
              evil sample_state) as (r & st' & Hrun & Hiff).
  exists r, st'. split; [exact Hrun|].
  assert (Hunsafe : ScanResult.is_safe r = false).
  { assert (Hr : fst (scan_skill sample_finditer sample_fs extensions evil
                        sample_state) = inr r) by (rewrite Hrun; reflexivity).
    vm_compute in Hr. injection Hr as <-. reflexivity. }
  split; [exact Hunsafe|].
  intros Hnone. apply Hiff in Hnone. congruence.
Defined.

(** C5. For a skill whose name is in the whitelist of the scanner,
    [scan_skill] returns a safe result without findings; the events of the
    call are prints only (no enumeration, no file is opened); the outcome is
    the same for every file tree; and a scanner built with the whitelist
    disabled has an empty whitelist. *)
Theorem C5_whitelisted_skill_is_not_read :
  forall finditer fs ext_iter skill_path st,
    str_in (path_name skill_path) (whitelist (self st)) = true ->
    (exists st',
       scan_skill finditer fs ext_iter skill_path st =
       (inr (ScanResult.mk (path_name skill_path) true [] 0 0), st')
       /\ exists evs, trace st' = trace st ++ evs
                      /\ forallb is_print evs = true)
    /\ (forall finditer' fs' ext_iter',
          scan_skill finditer' fs' ext_iter' skill_path st
          = scan_skill finditer fs ext_iter skill_path st)
    /\ (forall dir level stored,
          whitelist (new_scanner dir level false stored) = []).
Proof.
  intros finditer fs ext_iter skill_path st Hwl.
  destruct (String.eqb_spec (path_name skill_path) "365skill") as [Hown|Hown].
  - split; [|split; [|reflexivity]].
    + eexists. split.
      * rewrite scan_skill_own_package by exact Hown.
        rewrite Hown. reflexivity.
      * eexists. split; reflexivity.
    + intros. now rewrite !scan_skill_own_package.
  - split; [|split; [|reflexivity]].
    + eexists. split; [apply scan_skill_whitelisted; assumption|].
      eexists. split; reflexivity.
    + intros. now rewrite !scan_skill_whitelisted.
Qed.

(** C5, witness: the whitelisted skill /skills/trusted of the sample. *)
Lemma C5_whitelisted_witness :
  str_in (path_name (path_div (skills_dir sample_scanner) "trusted"))
    (whitelist (self sample_state)) = true
  /\ exists st',
       scan_skill sample_finditer sample_fs extensions
         (path_div (skills_dir sample_scanner) "trusted") sample_state =
       (inr (ScanResult.mk "trusted" true [] 0 0), st').
Proof.
  split; [reflexivity|].
  destruct (@C5_whitelisted_skill_is_not_read sample_finditer sample_fs
              extensions (path_div (skills_dir sample_scanner) "trusted")
              sample_state eq_refl) as ((st' & Hrun & _) & _).
  exists st'. exact Hrun.
Defined.



(* ================================================================== *)
(** * Counting the candidates of a skill *)

Lemma prefix_both s : forall a b,
  String.prefix a s = true -> String.prefix b s = true ->
  String.prefix a b = true \/ String.prefix b a = true.
Proof.
  induction s as [|c s IH]; intros [|x a] [|y b] Ha Hb; cbn in *;
    auto; try discriminate.
  destruct (ascii_dec x c) as [->|]; [|discriminate].
  destruct (ascii_dec y c) as [->|]; [|discriminate].
  destruct (ascii_dec c c) as [_|Hne]; [|contradiction].
  apply IH; assumption.
Qed.

(** No extension is the end of another one. *)
Lemma extensions_apart :
  forallb (fun e1 =>
    forallb (fun e2 => String.eqb e1 e2 || negb (endswith e2 e1)) extensions)
    extensions = true.
Proof. vm_compute. reflexivity. Qed.

Lemma one_extension_at_most name e1 e2 :
  In e1 extensions -> In e2 extensions ->
  endswith name e1 = true -> endswith name e2 = true -> e1 = e2.
Proof.
  intros H1 H2 He1 He2.
  pose proof extensions_apart as Hap. rewrite forallb_forall in Hap.
  pose proof (Hap e1 H1) as H12. rewrite forallb_forall in H12.
  pose proof (Hap e2 H2) as H21. rewrite forallb_forall in H21.
  specialize (H12 e2 H2). specialize (H21 e1 H1).
  destruct (String.eqb_spec e1 e2) as [Heq|Hne]; [exact Heq|].
  destruct (String.eqb_spec e2 e1) as [Heq|_]; [now symmetry|].
  cbn [orb] in H12, H21. apply negb_true_iff in H12, H21.
  unfold endswith in *.
  destruct (prefix_both _ _ _ He1 He2); congruence.
Qed.

Ltac list_sum_cons :=
  repeat match goal with
         | |- context [list_sum (?x :: ?r)] =>
             change (list_sum (x :: r)) with (x + list_sum r)
         end.

Lemma sum_of_exclusive {A} (p : A -> bool) (l : list A) :
  NoDup l ->
  (forall x y, In x l -> In y l -> p x = true -> p y = true -> x = y) ->
  list_sum (map (fun x => if p x then 1 else 0) l)
  = if existsb p l then 1 else 0.
Proof.
  induction 1 as [|a l Hnotin Hnd IH]; intros Hexcl; [reflexivity|].
  cbn [map existsb]. list_sum_cons.
  rewrite IH by (intros; apply Hexcl; auto using in_cons).
  destruct (p a) eqn:Hpa; cbn; [|reflexivity].
  destruct (existsb p l) eqn:Hex; [|reflexivity].
  apply existsb_exists in Hex. destruct Hex as (y & Hy & Hpy).
  assert (a = y) by (apply Hexcl; auto using in_eq, in_cons).
  subst. contradiction.
Qed.

Lemma extensions_NoDup : NoDup extensions.
Proof.
  unfold extensions.
  repeat (constructor; [cbn; intuition discriminate|]). constructor.
Qed.

(** Over any order of the extensions, a name is matched once if it has
    an extension and not at all otherwise. *)
Lemma matches_of_name ext_iter name :
  Permutation ext_iter extensions ->
  list_sum (map (fun ext => if endswith name ext then 1 else 0) ext_iter)
  = if has_extension name then 1 else 0.
Proof.
  intros Hperm.
  rewrite (Permutation_list_sum
             (Permutation_map (fun ext => if endswith name ext then 1 else 0)
                Hperm)).
  apply sum_of_exclusive; [exact extensions_NoDup|].
  intros x y Hx Hy. apply one_extension_at_most; assumption.
Qed.

Lemma list_sum_zero {A} (l : list A) : list_sum (map (fun _ => 0) l) = 0.
Proof. induction l; cbn [map]; list_sum_cons; auto. Qed.

Lemma list_sum_add {A} (f g : A -> nat) (l : list A) :
  list_sum (map (fun x => f x + g x) l)
  = list_sum (map f l) + list_sum (map g l).
Proof.
  induction l as [|a l IH]; [reflexivity|].
  cbn [map]. list_sum_cons. rewrite IH. lia.
Qed.

Lemma count_matching_ext m m' :
  (forall name, m name = m' name) ->
  forall n, count_matching m n = count_matching m' n.
Proof.
  intros Hm.
  apply (Node_mut
           (fun n => count_matching m n = count_matching m' n)
           (fun es => count_matching_entries m es
                      = count_matching_entries m' es));
    cbn; intros; try rewrite Hm; congruence.
Qed.

(** Counting with a sum of weights is summing the counts. *)
Lemma count_matching_sum (ms : list (string -> nat)) n :
  list_sum (map (fun m => count_matching m n) ms)
  = count_matching (fun name => list_sum (map (fun m => m name) ms)) n.
Proof.
  revert n.
  apply (Node_mut
           (fun n => list_sum (map (fun m => count_matching m n) ms)
              = count_matching
                  (fun name => list_sum (map (fun m => m name) ms)) n)
           (fun es => list_sum (map (fun m => count_matching_entries m es) ms)
              = count_matching_entries
                  (fun name => list_sum (map (fun m => m name) ms)) es));
    cbn [count_matching count_matching_entries]; intros;
    rewrite ?list_sum_zero, ?list_sum_add; congruence.
Qed.

(** [rglob] finds as many paths as there are entries with the
    extension. *)
Lemma rglob_node_length ext n : forall prefix,
  List.length (rglob_node ext prefix n)
  = count_matching (fun name => if endswith name ext then 1 else 0) n.
Proof.
  revert n.
  apply (Node_mut
           (fun n => forall prefix,
              List.length (rglob_node ext prefix n)
              = count_matching
                  (fun name => if endswith name ext then 1 else 0) n)
           (fun es => forall prefix,
              List.length (select_children ext prefix es)
              + List.length (rglob_subdirs ext prefix es)
              = count_matching_entries
                  (fun name => if endswith name ext then 1 else 0) es));
    cbn [rglob_node rglob_subdirs select_children count_matching
           count_matching_entries]; intros; auto.
  - rewrite length_app. auto.
  - rewrite !length_app, <- (H0 prefix), (H (prefix ++ [name])).
    destruct (endswith name ext); cbn; lia.
Qed.

Lemma rglob_length fs skill_path ext :
  List.length (rglob fs skill_path ext)
  = match resolve fs skill_path with
    | Some n => count_matching (fun name => if endswith name ext then 1 else 0) n
    | None => 0
    end.
Proof.
  unfold rglob. destruct (resolve fs skill_path) as [[c|es]|]; try reflexivity.
  rewrite length_map. apply rglob_node_length.
Qed.

(** The list [files_to_scan] has one path for each entry below the
    skill directory whose name has one of the extensions. *)
Lemma candidates_length fs skill_path ext_iter :
  Permutation ext_iter extensions ->
  List.length (candidates fs skill_path ext_iter)
  = count_candidates fs skill_path.
Proof.
  intros Hperm. unfold candidates, count_candidates.
  rewrite length_concat, map_map.
  rewrite (map_ext _ _ (fun ext => rglob_length fs skill_path ext)).
  destruct (resolve fs skill_path) as [n|].
  - pose proof (count_matching_sum
      (map (fun ext name => if endswith name ext then 1 else 0) ext_iter) n)
      as Hsum.
    rewrite !map_map in Hsum. rewrite Hsum.
    apply count_matching_ext. intros name. rewrite map_map.
    apply matches_of_name, Hperm.
  - apply list_sum_zero.
Qed.

(** The candidates are the files and the directories whose name has
    one of the extensions. *)
Lemma candidates_by_kind fs skill_path :
  count_candidates fs skill_path
  = candidate_files fs skill_path + candidate_dirs fs skill_path.
Proof.
  unfold count_candidates, candidate_files, candidate_dirs.
  destruct (resolve fs skill_path) as [n|]; [|reflexivity].
  revert n.
  apply (Node_mut
           (fun n =>
              count_matching (fun name => if has_extension name then 1 else 0) n
              = count_kind false n + count_kind true n)
           (fun es =>
              count_matching_entries
                (fun name => if has_extension name then 1 else 0) es
              = count_kind_entries false es + count_kind_entries true es));
    cbn [count_matching count_matching_entries count_kind count_kind_entries];
    intros; auto.
  rewrite H, H0. destruct (has_extension name), n; cbn; lia.
Qed.

Lemma opens_of_files finditer fs slf skill_name files :
  List.length
    (filter is_open
       (List.concat
          (map (fun p => file_events finditer fs slf p skill_name) files)))
  = List.length files.
Proof.
  induction files as [|p rest IH]; [reflexivity|].
  cbn [map List.concat]. rewrite filter_app, length_app, IH.
  unfold file_events.
  destruct (snd (file_outcome finditer fs slf p skill_name)); reflexivity.
Qed.

Lemma no_open_in_rglob skill_path exts :
  filter is_open (map (EvRglob skill_path) exts) = [].
Proof. induction exts; cbn; auto. Qed.

Lemma scan_finds_has_findings finditer fs skill_name st p :
  scan_finds finditer fs skill_name st p
  = has_findings finditer fs (self st) skill_name p.
Proof.
  unfold scan_finds, has_findings. rewrite scan_file_run. reflexivity.
Qed.




(* ================================================================== *)
(** * [scan_all_skills] *)

Section AllSkills.

Variable finditer : string -> text -> option (list (nat * nat)).
Variable fs : Node.
Variable ext_iter : list string.

Lemma visible_dirs_run ds : forall st,
  visible_dirs fs ds st =
  (inr (filter (visible_dir fs) ds),
   mkState (self st) (trace st ++ map EvIsDir ds)).
Proof.
  induction ds as [|d rest IH]; intros st; cbn [visible_dirs].
  - cbn. rewrite app_nil_r. destruct st; reflexivity.
  - cbv [bind is_dir emit ret]. cbn [self trace]. rewrite IH.
    cbn [self trace filter map]. unfold visible_dir.
    now rewrite <- app_assoc.
Qed.

Lemma scan_paths_one skill_path st r st1 :
  scan_skill finditer fs ext_iter skill_path st = (inr r, st1) ->
  scan_paths finditer fs ext_iter [skill_path] [] st =
  (inr [r], mkState (extend_results [r] (self st1)) (trace st1)).
Proof.
  intros Hrun. cbn [scan_paths]. unfold bind at 1. rewrite Hrun.
  reflexivity.
Qed.

End AllSkills.

(** C10. Given a target that is not the empty string, [scan_all_skills]
    checks only that the path [skills_dir / target] exists and then scans
    it with [scan_skill], returning that one result, whatever the name
    starts with and whether or not the path is a directory. Given no
    target, it scans the entries of the skills directory that are
    directories and whose name does not start with a dot. *)
Theorem C10_target_is_scanned_unfiltered :
  forall finditer fs ext_iter st,
    (forall target,
       target <> "" ->
       let skill_path := path_div (skills_dir (self st)) target in
       path_exists fs skill_path = true ->
       exists r st1,
         scan_skill finditer fs ext_iter skill_path
           (mkState (self st) (trace st ++ [EvExists skill_path]))
         = (inr r, st1)
         /\ scan_all_skills finditer fs ext_iter (Some target) st
            = (inr [r], mkState (extend_results [r] (self st1)) (trace st1)))
    /\ (forall es,
          resolve fs (skills_dir (self st)) = Some (Dir es) ->
          let ds := map (child (skills_dir (self st))) (entry_names es) in
          scan_all_skills finditer fs ext_iter None st
          = scan_paths finditer fs ext_iter (filter (visible_dir fs) ds) []
              (mkState (self st)
                 (trace st ++ EvIterdir (skills_dir (self st))
                            :: map EvIsDir ds))).
Proof.
  intros finditer fs ext_iter st. split.
  - intros target Hne skill_path Hex.
    destruct (scan_skill_returns finditer fs ext_iter skill_path
                (mkState (self st) (trace st ++ [EvExists skill_path])))
      as (r & st1 & Hrun).
    exists r, st1. split; [exact Hrun|].
    assert (Htruthy : truthy (Some target) = Some target)
      by (destruct target; [congruence | reflexivity]).
    unfold scan_all_skills. cbv [bind get_self]. rewrite Htruthy.
    cbv [exists_ bind emit ret]. cbn [self trace hd].
    fold skill_path. rewrite Hex. cbn [negb].
    apply (scan_paths_one _ _ _ _ _ Hrun).
  - intros es Hres ds.
    unfold scan_all_skills. cbv [bind get_self truthy iterdir emit ret].
    cbn [self trace]. rewrite Hres. fold ds.
    rewrite visible_dirs_run. cbn [self trace].
    rewrite <- app_assoc. reflexivity.
Qed.

(** C10, witness: in the sample the hidden directory /skills/.hidden is
    scanned when it is the target, and its finding is reported. *)
Lemma C10_hidden_target_witness :
  exists r st',
    scan_all_skills sample_finditer sample_fs extensions (Some ".hidden")
      sample_state = (inr [r], st')
    /\ startswith (ScanResult.skill_name r) "." = true
    /\ ScanResult.is_safe r = false.
Proof.
  destruct (C10_target_is_scanned_unfiltered sample_finditer sample_fs
              extensions sample_state) as [Htarget _].
  destruct (Htarget ".hidden") as (r & st1 & Hskill & Hall);
    [discriminate | reflexivity |].
  exists r. eexists. split; [exact Hall|].
  assert (Hr : fst (scan_skill sample_finditer sample_fs extensions
                      (path_div (skills_dir (self sample_state)) ".hidden")
                      (mkState (self sample_state)
                         (trace sample_state ++
                          [EvExists (path_div (skills_dir (self sample_state))
                                       ".hidden")])))
               = inr r) by (rewrite Hskill; reflexivity).
  vm_compute in Hr. injection Hr as <-. split; reflexivity.
Defined.

(* ================================================================== *)
(** * The sample run, evaluated *)

(** The long line of /skills/evil/sub/big.sh gives a snippet of 103
    characters that ends with three dots. *)
Example big_sh_snippet :
  match fst (scan_file sample_finditer sample_fs
               (path_div evil "sub/big.sh") "evil" sample_state) with
  | inr [f] =>
      List.length (strip line_long) = 133
      /\ List.length (RiskFinding.code_snippet f) = 103
      /\ skipn 100 (RiskFinding.code_snippet f) = text_of_string "..."
      /\ RiskFinding.file_path f = "evil/sub/big.sh"
  | _ => False
  end.
Proof. vm_compute. repeat split. Qed.

(** With the target ".hidden", a directory the enumeration leaves out,
    the skill is scanned and its finding reported. *)
Example target_hidden_directory :
  match fst (scan_all_skills sample_finditer sample_fs extensions
               (Some ".hidden") sample_state) with
  | inr [r] =>
      ScanResult.skill_name r = ".hidden"
      /\ ScanResult.is_safe r = false
      /\ ScanResult.total_files r = 1
      /\ List.length (ScanResult.findings r) = 1
  | _ => False
  end.
Proof. vm_compute. repeat split. Qed.

(** With the target "README.txt", a regular file, [scan_skill] runs on
    it and finds no candidate below it. *)
Example target_regular_file :
  fst (scan_all_skills sample_finditer sample_fs extensions
         (Some "README.txt") sample_state)
  = inr [ScanResult.mk "README.txt" true [] 0 0].
Proof. vm_compute. reflexivity. Qed.

(** A target that does not exist is reported and nothing is scanned. *)
Example target_missing :
  scan_all_skills sample_finditer sample_fs extensions (Some "nope")
    sample_state
  = (inr [],
     mkState sample_scanner
       [EvExists (path_div (skills_dir sample_scanner) "nope");
        EvPrint (MsgSkillNotFound "nope")]).
Proof. vm_compute. reflexivity. Qed.

(** Without a target the hidden directory and the regular file are left
    out; the whitelisted skill is visited and skipped. *)
Example no_target_enumeration :
  match scan_all_skills sample_finditer sample_fs extensions None
          sample_state with
  | (inr rs, st) =>
      map ScanResult.skill_name rs = ["evil"; "trusted"]
      /\ map ScanResult.is_safe rs = [false; true]
      /\ map ScanResult.total_files rs = [5; 0]
      /\ map ScanResult.scanned_files rs = [2; 0]
      /\ skipped_whitelist (self st) = ["trusted"]
      /\ results (self st) = rs
  | _ => False
  end.
Proof. vm_compute. repeat split. Qed.

(* ================================================================== *)
(** * The full catalog and [re.error]

    The first rule of [behavior_analysis] does not compile. Whenever
    [finditer] raises on it, a scan at level FULL raises while it handles
    the first line of a file: the lines after it are not looked at. *)

Lemma for_each_raises {A} (body : A -> Loop) (xs : list A) (x : A) :
  In x xs ->
  (forall acc, snd (body x acc) <> None) ->
  forall acc, snd (for_each body xs acc) <> None.
Proof.
  induction xs as [|y rest IH]; intros Hin Hx acc; [destruct Hin|].
  cbn [for_each]. destruct (body y acc) as [acc' [e|]] eqn:Hy.
  - cbn. discriminate.
  - destruct Hin as [->|Hin].
    + specialize (Hx acc). rewrite Hy in Hx. cbn in Hx. congruence.
    + apply IH; assumption.
Qed.

Lemma full_level_stops_at_first_line finditer slf file_path skill_name
    line rest acc :
  (forall l,
     finditer "(?:while\s+True|for\s+\w+\s+in\s+range\(\s*\d{6,}" l = None) ->
  snd (scan_lines finditer slf file_path skill_name full_patterns
         (line :: rest) acc) <> None
  /\ scan_lines finditer slf file_path skill_name full_patterns
       (line :: rest) acc
     = scan_lines finditer slf file_path skill_name full_patterns [line] acc.
Proof.
  intros Hbad. unfold scan_lines, enumerate1.
  cbn [List.length seq combine for_each].
  match goal with
  | |- context [for_each ?body full_patterns acc] =>
      assert (Hraise : snd (for_each body full_patterns acc) <> None);
      [| destruct (for_each body full_patterns acc) as [acc' [e|]];
         [split; [cbn; discriminate | reflexivity]
         | cbn in Hraise; congruence] ]
  end.
  eapply for_each_raises with
    (x := ("behavior_analysis",
           [("(?:while\s+True|for\s+\w+\s+in\s+range\(\s*\d{6,}",
             "Possible infinite loop or massive iteration");
            ("\btime\.sleep\s*\(\s*\d{3,}",
             "Long sleep delay (possible delay attack)");
            ("\bthreading\.(?:Thread|Process)\s*\(",
             "Multi-threading/process creation");
            ("\bmultiprocessing\.(?:Process|Pool)\s*\(",
             "Multi-process creation")])).
  - vm_compute. tauto.
  - intros acc0. cbn [for_each]. rewrite Hbad. cbn. discriminate.
Qed.

(** At level FULL the call in line 2 of /skills/evil/run.py is not
    reported: the scan of the file ends in line 1 with the warning. *)
Example full_level_misses_line_two :
  scan_file sample_finditer sample_fs run_py "evil"
    (mkState (new_scanner "/skills" FULL true None) [])
  = (inr [],
     mkState (new_scanner "/skills" FULL true None)
       [EvOpen run_py; EvPrint (MsgCannotRead run_py ReError)]).
Proof. vm_compute. reflexivity. Qed.

(* ================================================================== *)
(** * More on the findings of a file *)

Lemma get_risk_level_not_info slf category :
  get_risk_level slf category <> INFO.
Proof.
  unfold get_risk_level.
  destruct (str_in category critical_categories); [discriminate|].
  destruct (str_in category high_categories); [discriminate|].
  destruct (str_in category medium_categories); discriminate.
Qed.

Lemma for_each_exact {A} (body : A -> Loop) (g : A -> list RiskFinding.t)
    (xs : list A) :
  (forall x acc, In x xs -> body x acc = (acc ++ g x, None)) ->
  forall acc, for_each body xs acc = (acc ++ flat_map g xs, None).
Proof.
  induction xs as [|x rest IH]; intros Hbody acc; cbn [for_each flat_map].
  - now rewrite app_nil_r.
  - rewrite (Hbody x acc (or_introl eq_refl)).
    rewrite IH by (intros; apply Hbody; right; assumption).
    now rewrite app_assoc.
Qed.

Lemma flat_map_singleton {A B} (b : B) (l : list A) :
  flat_map (fun _ => [b]) l = map (fun _ => b) l.
Proof. induction l; cbn; congruence. Qed.

Lemma rules_compile_check finditer patterns lines :
  forallb (fun line =>
    forallb (fun cat : string * list Rule =>
      forallb (fun rule : Rule =>
        match finditer (fst rule) line with
        | Some _ => true
        | None => false
        end) (snd cat)) patterns) lines = true ->
  rules_compile finditer patterns lines.
Proof.
  intros Hall line category pattern_list pattern description Hl Hc Hr.
  rewrite forallb_forall in Hall. specialize (Hall line Hl).
  rewrite forallb_forall in Hall. specialize (Hall _ Hc). cbn [snd] in Hall.
  rewrite forallb_forall in Hall. specialize (Hall _ Hr). cbn [fst] in Hall.
  destruct (finditer pattern line); [discriminate | discriminate Hall].
Qed.

(** When nothing raises, the loops of [scan_file] append exactly the
    expected findings. *)
Lemma scan_lines_exact finditer slf file_path skill_name patterns lines rel :
  relative_to file_path (skills_dir slf) = Some rel ->
  rules_compile finditer patterns lines ->
  forall acc,
    scan_lines finditer slf file_path skill_name patterns lines acc
    = (acc ++ expected_findings finditer slf rel skill_name patterns lines,
       None).
Proof.
  intros Hrel Hcompile acc. unfold scan_lines, expected_findings.
  apply for_each_exact. intros [line_num line] acc1 Hline.
  apply in_combine_r in Hline.
  apply for_each_exact. intros [category pattern_list] acc2 Hcat.
  apply for_each_exact. intros [pattern description] acc3 Hrule.
  pose proof (Hcompile line category pattern_list pattern description
                Hline Hcat Hrule) as Hsome.
  destruct (finditer pattern line) as [matches|]; [|congruence].
  rewrite <- flat_map_singleton.
  apply for_each_exact. intros _ acc4 _.
  unfold add_finding. rewrite Hrel. reflexivity.
Qed.

Lemma length_flat_map_sum {A B} (g : A -> list B) (l : list A) :
  List.length (flat_map g l) = list_sum (map (fun x => List.length (g x)) l).
Proof.
  induction l as [|a l IH]; [reflexivity|].
  cbn [flat_map map]. list_sum_cons. now rewrite length_app, IH.
Qed.

Lemma expected_findings_length finditer slf rel skill_name patterns lines :
  List.length (expected_findings finditer slf rel skill_name patterns lines)
  = count_matches finditer patterns lines.
Proof.
  unfold expected_findings, count_matches, enumerate1.
  rewrite length_flat_map_sum.
  generalize 1 as start. induction lines as [|line rest IH]; intros start;
    [reflexivity|].
  cbn [List.length seq combine map]. list_sum_cons. rewrite IH. f_equal.
  rewrite length_flat_map_sum. f_equal. apply map_ext.
  intros [category pattern_list]. rewrite length_flat_map_sum. f_equal.
  apply map_ext. intros [pattern description]. cbn [fst snd].
  destruct (finditer pattern line); [apply length_map | reflexivity].
Qed.

(** X1. On a file that can be read and lies below the skills directory,
    with rules that compile on its lines, [scan_file] prints nothing and
    returns one finding per match, for the lines in order, the categories
    in the order of the catalog and the rules in the order of the
    category; so it returns as many findings as there are matches, and
    none when no rule matches. *)
Theorem scan_file_one_finding_per_match :
  forall finditer fs file_path skill_name st lines rel,
    resolve fs file_path = Some (File (Lines lines)) ->
    relative_to file_path (skills_dir (self st)) = Some rel ->
    rules_compile finditer (patterns_for (scan_level (self st))) lines ->
    let found :=
      expected_findings finditer (self st) rel skill_name
        (patterns_for (scan_level (self st))) lines in
    scan_file finditer fs file_path skill_name st
    = (inr found, mkState (self st) (trace st ++ [EvOpen file_path]))
    /\ List.length found
       = count_matches finditer (patterns_for (scan_level (self st))) lines
    /\ (count_matches finditer (patterns_for (scan_level (self st))) lines = 0
        -> found = []).
Proof.
  intros finditer fs file_path skill_name st lines rel Hres Hrel Hcompile.
  cbv zeta. split; [|split].
  - rewrite scan_file_run. unfold file_events, file_outcome. rewrite Hres.
    rewrite scan_lines_exact with (rel := rel) by assumption. reflexivity.
  - apply expected_findings_length.
  - intros Hzero. apply length_zero_iff_nil.
    now rewrite expected_findings_length.
Qed.

(** X1, witness: /skills/evil/run.py of the sample has one match. *)
Lemma scan_file_one_finding_per_match_witness :
  scan_file sample_finditer sample_fs run_py "evil" sample_state
  = (inr [finding_run_py], mkState sample_scanner [EvOpen run_py])
  /\ count_matches sample_finditer deep_patterns [line_plain; line_os_system]
     = 1.
Proof.
  assert (Hcompile : rules_compile sample_finditer
                       (patterns_for (scan_level (self sample_state)))
                       [line_plain; line_os_system])
    by (apply rules_compile_check; vm_compute; reflexivity).
  destruct (@scan_file_one_finding_per_match sample_finditer sample_fs run_py
              "evil" sample_state [line_plain; line_os_system]
              (mkPath "" ["evil"; "run.py"]) eq_refl eq_refl Hcompile)
    as (Hrun & Hlen & _).
  split.
  - rewrite Hrun. vm_compute. reflexivity.
  - vm_compute. reflexivity.
Defined.

Lemma for_each_appends {A} (Q : RiskFinding.t -> Prop) (body : A -> Loop)
    (xs : list A) :
  (forall x acc, In x xs ->
     exists extra, fst (body x acc) = acc ++ extra /\ Forall Q extra) ->
  forall acc,
    exists extra, fst (for_each body xs acc) = acc ++ extra /\ Forall Q extra.
Proof.
  induction xs as [|x rest IH]; intros Hbody acc; cbn [for_each].
  - exists []. split; [now rewrite app_nil_r | constructor].
  - destruct (Hbody x acc (or_introl eq_refl)) as (e1 & He1 & HQ1).
    destruct (body x acc) as [acc' [e|]]; cbn [fst] in *.
    + exists e1. split; assumption.
    + destruct (IH (fun y a Hy => Hbody y a (or_intror Hy)) acc')
        as (e2 & He2 & HQ2).
      exists (e1 ++ e2). split.
      * now rewrite He2, He1, app_assoc.
      * apply Forall_app. split; assumption.
Qed.

(** What the loops add while they handle one line carries the number of
    that line. *)
Lemma line_appends_its_number
    (finditer : string -> text -> option (list (nat * nat)))
    slf file_path skill_name (patterns : Catalog) line_num line acc :
  exists extra,
    fst (for_each (fun '(category, pattern_list) =>
           for_each (fun '(pattern, description) => fun findings =>
             match finditer pattern line with
             | None => (findings, Some ReError)
             | Some matches =>
                 for_each (fun _ : nat * nat =>
                   add_finding slf file_path skill_name line_num line
                     category description)
                   matches findings
             end)
           pattern_list)
         patterns acc)
    = acc ++ extra
    /\ Forall (fun f => RiskFinding.line_number f = line_num) extra.
Proof.
  apply for_each_appends. intros [category pattern_list] acc2 _.
  apply for_each_appends. intros [pattern description] acc3 _.
  destruct (finditer pattern line) as [matches|].
  - apply for_each_appends. intros _ acc4 _. unfold add_finding.
    destruct (relative_to file_path (skills_dir slf)); cbn [fst].
    + eexists. split; [reflexivity|]. repeat constructor.
    + exists []. split; [now rewrite app_nil_r | constructor].
  - exists []. split; [now rewrite app_nil_r | constructor].
Qed.

Lemma StronglySorted_app_le (l1 l2 : list nat) :
  StronglySorted le l1 -> StronglySorted le l2 ->
  (forall x y, In x l1 -> In y l2 -> x <= y) ->
  StronglySorted le (l1 ++ l2).
Proof.
  induction 1 as [|a l1 Hs IH Ha]; intros H2 Hle; cbn; [assumption|].
  constructor.
  - apply IH; [assumption|]. intros; apply Hle; [right|]; assumption.
  - apply Forall_app. split; [exact Ha|].
    apply Forall_forall. intros y Hy. apply Hle; [left; reflexivity | exact Hy].
Qed.

Lemma StronglySorted_constant (n : nat) (l : list nat) :
  Forall (fun x => x = n) l -> StronglySorted le l.
Proof.
  induction 1 as [|a l Ha Hl IH]; constructor; [assumption|].
  subst a. apply Forall_impl with (2 := Hl). intros x ->. constructor.
Qed.

(** From line number [start] on, the loops keep the findings in the
    order of the line numbers. *)
Lemma scan_lines_sorted_from
    (finditer : string -> text -> option (list (nat * nat)))
    slf file_path skill_name (patterns : Catalog) lines :
  forall start acc,
    StronglySorted le (map RiskFinding.line_number acc) ->
    (forall f, In f acc -> RiskFinding.line_number f < start) ->
    StronglySorted le
      (map RiskFinding.line_number
         (fst (for_each (fun '(line_num, line) =>
                 for_each (fun '(category, pattern_list) =>
                   for_each (fun '(pattern, description) => fun findings =>
                     match finditer pattern line with
                     | None => (findings, Some ReError)
                     | Some matches =>
                         for_each (fun _ : nat * nat =>
                           add_finding slf file_path skill_name line_num line
                             category description)
                           matches findings
                     end)
                   pattern_list)
                 patterns)
               (combine (seq start (List.length lines)) lines) acc))).
Proof.
  induction lines as [|line rest IH]; intros start acc Hsorted Hbelow;
    cbn [List.length seq combine for_each]; [exact Hsorted|].
  destruct (line_appends_its_number finditer slf file_path skill_name patterns
              start line acc) as (extra & Hextra & Hnum).
  assert (Hnew : StronglySorted le (map RiskFinding.line_number (acc ++ extra))).
  { rewrite map_app. apply StronglySorted_app_le; [exact Hsorted| |].
    - apply StronglySorted_constant with (n := start).
      apply Forall_map. exact Hnum.
    - intros x y Hx Hy. apply in_map_iff in Hx, Hy.
      destruct Hx as (f & <- & Hf). destruct Hy as (g & <- & Hg).
      rewrite Forall_forall in Hnum. rewrite (Hnum g Hg).
      apply Nat.lt_le_incl, Hbelow, Hf. }
  match goal with
  | |- context [match ?b with (_, _) => _ end] => destruct b as [acc' [e|]]
  end; cbn [fst] in *; subst acc'; [exact Hnew|].
  apply IH; [exact Hnew|].
  intros f Hf. apply in_app_or in Hf. destruct Hf as [Hf|Hf].
  - apply Nat.lt_lt_succ_r, Hbelow, Hf.
  - rewrite Forall_forall in Hnum. rewrite (Hnum f Hf). apply Nat.lt_succ_diag_r.
Qed.

(** X2. The findings [scan_file] returns are in the order of their line
    numbers, whether or not the scan of the file ended with an exception.
    Each carries the skill name given, a category of the catalog of the
    scanner's level with the description of one of its rules, the risk
    level and the recommendation the classifier gives for the category,
    and a level that is not INFO. *)
Theorem scan_file_findings_ordered_and_classified :
  forall finditer fs file_path skill_name st,
  exists findings st',
    scan_file finditer fs file_path skill_name st = (inr findings, st')
    /\ StronglySorted le (map RiskFinding.line_number findings)
    /\ forall f, In f findings ->
         RiskFinding.skill_name f = skill_name
         /\ RiskFinding.risk_level f
            = get_risk_level (self st) (RiskFinding.category f)
         /\ RiskFinding.risk_level f <> INFO
         /\ RiskFinding.recommendation f
            = get_recommendation (self st) (RiskFinding.category f)
         /\ exists pattern_list pattern,
              In (RiskFinding.category f, pattern_list)
                 (patterns_for (scan_level (self st)))
              /\ In (pattern, RiskFinding.description f) pattern_list.
Proof.
  intros finditer fs file_path skill_name st.
  eexists _, _. split; [apply scan_file_run|]. split.
  - unfold file_outcome.
    destruct (resolve fs file_path) as [[[|lines]|es]|]; cbn [fst map];
      try constructor.
    apply scan_lines_sorted_from; [constructor | intros f []].
  - intros f Hin. apply file_outcome_produced in Hin.
    destruct Hin as (lines & _ & Hprod).
    destruct Hprod as (n & line & c & pl & pat & d & rel
                       & _ & _ & Hcat & Hrule & _ & ->).
    cbn [RiskFinding.skill_name RiskFinding.risk_level RiskFinding.category
         RiskFinding.recommendation RiskFinding.description].
    repeat split; auto using get_risk_level_not_info.
    exists pl, pat. split; assumption.
Qed.

(** X2, witness: the findings of /skills/evil/run.py in the sample. *)
Lemma scan_file_findings_ordered_witness :
  exists findings st',
    scan_file sample_finditer sample_fs run_py "evil" sample_state
    = (inr findings, st')
    /\ In finding_run_py findings
    /\ RiskFinding.risk_level finding_run_py
       = get_risk_level sample_scanner "dangerous_commands".
Proof.
  destruct (scan_file_findings_ordered_and_classified sample_finditer
              sample_fs run_py "evil" sample_state)
    as (findings & st' & Hrun & _ & Hall).
  assert (Hfst : fst (scan_file sample_finditer sample_fs run_py "evil"
                        sample_state) = inr [finding_run_py])
    by (vm_compute; reflexivity).
  rewrite Hrun in Hfst. cbn [fst] in Hfst. injection Hfst as ->.
  exists [finding_run_py], st'. split; [exact Hrun|].
  split; [left; reflexivity|].
  apply (Hall finding_run_py (or_introl eq_refl)).
Defined.

(* ================================================================== *)
(** * Paths outside the skills directory *)

Lemma diverges_strip_prefix pre : forall l r,
  diverges pre l = true -> strip_prefix pre (l ++ r) = None.
Proof.
  induction pre as [|a pre IH]; intros [|b l] r Hd; cbn in *;
    try discriminate.
  destruct (String.eqb a b); [apply IH; exact Hd | reflexivity].
Qed.

Lemma outside_relative_to dir p below :
  outside dir p = true ->
  relative_to (mkPath (anchor p) (names p ++ below)) dir = None.
Proof.
  unfold outside, relative_to. cbn [anchor names]. intros Hout.
  destruct (String.eqb (anchor p) (anchor dir)); [|reflexivity].
  cbn [negb orb] in Hout. now rewrite diverges_strip_prefix.
Qed.

Lemma rglob_below fs p ext q :
  In q (rglob fs p ext) ->
  exists below, q = mkPath (anchor p) (names p ++ below).
Proof.
  unfold rglob. destruct (resolve fs p) as [[c|es]|]; try (intros []).
  intros Hin. apply in_map_iff in Hin. destruct Hin as (below & <- & _).
  exists below. reflexivity.
Qed.

Lemma candidates_below fs p exts q :
  In q (candidates fs p exts) ->
  exists below, q = mkPath (anchor p) (names p ++ below).
Proof.
  unfold candidates. intros Hin. apply in_concat in Hin.
  destruct Hin as (l & Hl & Hq). apply in_map_iff in Hl.
  destruct Hl as (ext & <- & _). eapply rglob_below, Hq.
Qed.

(** No finding can be built for a file that is not below the skills
    directory: the list is returned as it was. *)
Lemma scan_lines_not_below
    (finditer : string -> text -> option (list (nat * nat)))
    slf file_path skill_name (patterns : Catalog) lines acc :
  relative_to file_path (skills_dir slf) = None ->
  fst (scan_lines finditer slf file_path skill_name patterns lines acc) = acc.
Proof.
  intros Hrel. unfold scan_lines.
  apply for_each_preserves with (P := fun l => l = acc); [|reflexivity].
  intros [line_num line] acc1 _ ->.
  apply for_each_preserves with (P := fun l => l = acc); [|reflexivity].
  intros [category pattern_list] acc2 _ ->.
  apply for_each_preserves with (P := fun l => l = acc); [|reflexivity].
  intros [pattern description] acc3 _ ->.
  destruct (finditer pattern line) as [matches|]; [|reflexivity].
  apply for_each_preserves with (P := fun l => l = acc); [|reflexivity].
  intros _ acc4 _ ->. unfold add_finding. now rewrite Hrel.
Qed.

Lemma file_outcome_not_below finditer fs slf file_path skill_name :
  relative_to file_path (skills_dir slf) = None ->
  fst (file_outcome finditer fs slf file_path skill_name) = [].
Proof.
  intros Hrel. unfold file_outcome.
  destruct (resolve fs file_path) as [[[|lines]|es]|]; try reflexivity.
  now apply scan_lines_not_below.
Qed.

Lemma concat_all_nil {A B} (g : A -> list B) (l : list A) :
  (forall x, In x l -> g x = []) -> List.concat (map g l) = [].
Proof.
  induction l as [|a l IH]; intros Hnil; cbn; [reflexivity|].
  rewrite (Hnil a (or_introl eq_refl)), IH; [reflexivity|].
  intros x Hx. apply Hnil. right. exact Hx.
Qed.

Lemma filter_none {A} (p : A -> bool) (l : list A) :
  (forall x, In x l -> p x = false) -> filter p l = [].
Proof.
  induction l as [|a l IH]; intros Hp; cbn; [reflexivity|].
  rewrite (Hp a (or_introl eq_refl)). apply IH.
  intros x Hx. apply Hp. right. exact Hx.
Qed.

(** X3. A skill whose path is not below the skills directory of the
    scanner (another root, or components that leave those of the skills
    directory) is reported safe with no findings and no file counted as
    having findings, whatever its files contain: [relative_to] raises for
    each of its files when the first finding is built. *)
Theorem skill_outside_skills_dir_is_reported_safe :
  forall finditer fs ext_iter skill_path st,
    outside (skills_dir (self st)) skill_path = true ->
    exists r st',
      scan_skill finditer fs ext_iter skill_path st = (inr r, st')
      /\ ScanResult.findings r = []
      /\ ScanResult.is_safe r = true
      /\ ScanResult.scanned_files r = 0.
Proof.
  intros finditer fs ext_iter skill_path st Hout.
  destruct (String.eqb_spec (path_name skill_path) "365skill") as [Hown|Hown].
  - eexists _, _. split; [apply scan_skill_own_package, Hown|].
    repeat split.
  - destruct (str_in (path_name skill_path) (whitelist (self st))) eqn:Hwl.
    + eexists _, _. split; [apply scan_skill_whitelisted; assumption|].
      repeat split.
    + eexists _, _. split; [apply scan_skill_scanned; assumption|].
      cbn [ScanResult.findings ScanResult.is_safe ScanResult.scanned_files].
      assert (Hnone : forall q,
                In q (candidates fs skill_path ext_iter) ->
                fst (file_outcome finditer fs (self st) q
                       (path_name skill_path)) = []).
      { intros q Hq. apply candidates_below in Hq. destruct Hq as (below & ->).
        apply file_outcome_not_below, outside_relative_to, Hout. }
      rewrite (concat_all_nil _ _ Hnone). repeat split.
      rewrite filter_none; [reflexivity|].
      intros q Hq. unfold has_findings. now rewrite (Hnone q Hq).
Qed.

(** X3, witness: with the skills directory /skills, the package
    /other/bad, whose one candidate calls [os.system], is reported safe. *)
Lemma skill_outside_skills_dir_witness :
  exists r st',
    scan_skill sample_finditer outside_fs extensions (parse_path "/other/bad")
      sample_state = (inr r, st')
    /\ ScanResult.is_safe r = true
    /\ ScanResult.total_files r = 1.
Proof.
  destruct (@skill_outside_skills_dir_is_reported_safe sample_finditer
              outside_fs extensions (parse_path "/other/bad") sample_state
              eq_refl) as (r & st1 & Hrun & _ & Hsafe & _).
  exists r, st1. split; [exact Hrun|]. split; [exact Hsafe|].
  assert (Hr : fst (scan_skill sample_finditer outside_fs extensions
                      (parse_path "/other/bad") sample_state) = inr r)
    by (rewrite Hrun; reflexivity).
  vm_compute in Hr. injection Hr as <-. reflexivity.
Defined.

(** The same through [scan_all_skills], with the absolute target. *)
Example absolute_target_is_reported_safe :
  fst (scan_all_skills sample_finditer outside_fs extensions
         (Some "/other/bad") sample_state)
  = inr [ScanResult.mk "bad" true [] 1 0].
Proof. vm_compute. reflexivity. Qed.

(* ================================================================== *)
(** * The level FULL on a whole file *)

Lemma scan_lines_single_line
    (finditer : string -> text -> option (list (nat * nat)))
    slf file_path skill_name (patterns : Catalog) line :
  Forall (fun f => RiskFinding.line_number f = 1)
    (fst (scan_lines finditer slf file_path skill_name patterns [line] [])).
Proof.
  unfold scan_lines, enumerate1. cbn [List.length seq combine for_each].
  destruct (line_appends_its_number finditer slf file_path skill_name patterns
              1 line []) as (extra & Hextra & Hnum).
  match goal with
  | |- context [match ?b with (_, _) => _ end] => destruct b as [acc' [e|]]
  end; cbn [fst] in *; subst acc'; exact Hnum.
Qed.

(** X4. When [re.finditer] raises on the first rule of
    [behavior_analysis], which opens a group it does not close, a scan at
    level FULL of a file that has at least one line ends while it handles
    line 1: [scan_file] prints the warning, every finding it returns is of
    line 1, and it returns what it returns for the first line alone. *)
Theorem full_level_scans_first_line_only :
  forall finditer fs file_path skill_name st line rest,
    scan_level (self st) = FULL ->
    resolve fs file_path = Some (File (Lines (line :: rest))) ->
    (forall l,
       finditer "(?:while\s+True|for\s+\w+\s+in\s+range\(\s*\d{6,}" l
       = None) ->
    exists findings e,
      scan_file finditer fs file_path skill_name st
      = (inr findings,
         mkState (self st)
           (trace st ++
            [EvOpen file_path; EvPrint (MsgCannotRead file_path e)]))
      /\ (forall f, In f findings -> RiskFinding.line_number f = 1)
      /\ findings
         = fst (scan_lines finditer (self st) file_path skill_name
                  full_patterns [line] []).
Proof.
  intros finditer fs file_path skill_name st line rest Hfull Hres Hbad.
  destruct (@full_level_stops_at_first_line finditer (self st) file_path
              skill_name line rest [] Hbad) as [Hraise Hsame].
  rewrite scan_file_run. unfold file_events, file_outcome.
  rewrite Hres, Hfull. cbn [patterns_for].
  destruct (snd (scan_lines finditer (self st) file_path skill_name
                   full_patterns (line :: rest) [])) as [e|] eqn:He;
    [|congruence].
  exists (fst (scan_lines finditer (self st) file_path skill_name
                 full_patterns (line :: rest) [])), e.
  split; [reflexivity|]. rewrite Hsame. split; [|reflexivity].
  apply Forall_forall, scan_lines_single_line.
Qed.

(** X4, witness: at level FULL, /skills/evil/run.py of the sample, whose
    line 2 calls [os.system], gives no finding and the warning. *)
Lemma full_level_first_line_witness :
  exists e,
    scan_file sample_finditer sample_fs run_py "evil"
      (mkState (new_scanner "/skills" FULL true None) [])
    = (inr [],
       mkState (new_scanner "/skills" FULL true None)
         [EvOpen run_py; EvPrint (MsgCannotRead run_py e)]).
Proof.
  assert (Hbad : forall l,
            sample_finditer
              "(?:while\s+True|for\s+\w+\s+in\s+range\(\s*\d{6,}" l = None)
    by reflexivity.
  destruct (@full_level_scans_first_line_only sample_finditer sample_fs
              run_py "evil"
              (mkState (new_scanner "/skills" FULL true None) [])
              line_plain [line_os_system] eq_refl eq_refl Hbad)
    as (findings & e & Hrun & _ & Hfirst).
  exists e. rewrite Hrun. rewrite Hfirst. vm_compute. reflexivity.
Defined.

(* ================================================================== *)
(** * The findings of a skill and the two highest-risk loops *)

Lemma in_concat_map {A B} (g : A -> list B) (l : list A) (b : B) :
  In b (List.concat (map g l)) -> exists a, In a l /\ In b (g a).
Proof.
  intros Hin. apply in_concat in Hin. destruct Hin as (x & Hx & Hb).
  apply in_map_iff in Hx. destruct Hx as (a & <- & Ha).
  exists a. split; assumption.
Qed.

(** Every finding of a result of [scan_skill] is a finding of one of the
    candidates. *)
Lemma scan_skill_findings finditer fs ext_iter skill_path st r st' :
  scan_skill finditer fs ext_iter skill_path st = (inr r, st') ->
  forall f, In f (ScanResult.findings r) ->
    exists p,
      In p (candidates fs skill_path ext_iter)
      /\ In f (fst (file_outcome finditer fs (self st) p
                      (path_name skill_path))).
Proof.
  intros Hrun f Hf.
  destruct (String.eqb_spec (path_name skill_path) "365skill") as [Hown|Hown].
  - rewrite scan_skill_own_package in Hrun by exact Hown.
    injection Hrun as <- _. destruct Hf.
  - destruct (str_in (path_name skill_path) (whitelist (self st))) eqn:Hwl.
    + rewrite scan_skill_whitelisted in Hrun by assumption.
      injection Hrun as <- _. destruct Hf.
    + rewrite scan_skill_scanned in Hrun by assumption.
      injection Hrun as <- _. cbn [ScanResult.findings] in Hf.
      apply in_concat_map in Hf. exact Hf.
Qed.

Lemma scan_skill_invariant finditer fs ext_iter skill_path st r st' :
  scan_skill finditer fs ext_iter skill_path st = (inr r, st') ->
  (ScanResult.is_safe r = true <-> ScanResult.findings r = []).
Proof.
  intros Hrun.
  destruct (String.eqb_spec (path_name skill_path) "365skill") as [Hown|Hown].
  - rewrite scan_skill_own_package in Hrun by exact Hown.
    injection Hrun as <- _. cbn. tauto.
  - destruct (str_in (path_name skill_path) (whitelist (self st))) eqn:Hwl.
    + rewrite scan_skill_whitelisted in Hrun by assumption.
      injection Hrun as <- _. cbn. tauto.
    + rewrite scan_skill_scanned in Hrun by assumption.
      injection Hrun as <- _.
      cbn [ScanResult.is_safe ScanResult.findings].
      rewrite Nat.eqb_eq. apply length_zero_iff_nil.
Qed.

(** X5. In a result of [scan_skill] every finding carries the name of
    the skill and a level that is not INFO, so the highest risk that
    [print_results] computes for it is the one [InteractiveScanner.run]
    computes, and for a result that is not safe it is not INFO: the two
    reports rank every scanned skill alike. *)
Theorem scan_skill_result_ranked_alike :
  forall finditer fs ext_iter skill_path st,
  exists r st',
    scan_skill finditer fs ext_iter skill_path st = (inr r, st')
    /\ (forall f, In f (ScanResult.findings r) ->
          RiskFinding.skill_name f = ScanResult.skill_name r
          /\ RiskFinding.risk_level f <> INFO)
    /\ print_results_highest (ScanResult.findings r)
       = run_highest (ScanResult.findings r)
    /\ (ScanResult.is_safe r = false ->
        run_highest (ScanResult.findings r) <> INFO).
Proof.
  intros finditer fs ext_iter skill_path st.
  destruct (scan_skill_returns finditer fs ext_iter skill_path st)
    as (r & st' & Hrun).
  exists r, st'. split; [exact Hrun|].
  assert (Hname : ScanResult.skill_name r = path_name skill_path).
  { destruct (String.eqb_spec (path_name skill_path) "365skill") as [Ho|Ho].
    - rewrite scan_skill_own_package in Hrun by exact Ho.
      injection Hrun as <- _. now rewrite Ho.
    - destruct (str_in (path_name skill_path) (whitelist (self st))) eqn:Hwl.
      + rewrite scan_skill_whitelisted in Hrun by assumption.
        now injection Hrun as <- _.
      + rewrite scan_skill_scanned in Hrun by assumption.
        now injection Hrun as <- _. }
  assert (Hall : forall f, In f (ScanResult.findings r) ->
                   RiskFinding.skill_name f = ScanResult.skill_name r
                   /\ RiskFinding.risk_level f <> INFO).
  { intros f Hf.
    destruct (@scan_skill_findings finditer fs ext_iter skill_path st r st'
                Hrun f Hf) as (p & _ & Hp).
    apply file_outcome_produced in Hp. destruct Hp as (lines & _ & Hprod).
    destruct Hprod as (n & line & c & pl & pat & d & rel
                       & _ & _ & _ & _ & _ & ->).
    cbn [RiskFinding.skill_name RiskFinding.risk_level].
    split; [now rewrite Hname | apply get_risk_level_not_info]. }
  split; [exact Hall|]. split.
  - apply loops_agree. intros f Hf. apply Hall, Hf.
  - intros Hunsafe Hinfo.
    destruct (ScanResult.findings r) as [|f0 rest] eqn:Hfs.
    + destruct (@scan_skill_invariant finditer fs ext_iter skill_path st r
                  st' Hrun) as [_ Hsafe].
      rewrite Hsafe in Hunsafe by exact Hfs. discriminate.
    + destruct (run_highest_attained (findings := f0 :: rest))
        as (f & Hf & Hlevel & _); [discriminate|].
      apply (proj2 (Hall f Hf)). unfold level_of in Hlevel. congruence.
Qed.

(** X5, witness: the skill /skills/evil of the sample is ranked CRITICAL
    by both loops. *)
Lemma scan_skill_result_ranked_witness :
  exists r st',
    scan_skill sample_finditer sample_fs extensions evil sample_state
    = (inr r, st')
    /\ print_results_highest (ScanResult.findings r) = CRITICAL
    /\ run_highest (ScanResult.findings r) = CRITICAL.
Proof.
  destruct (scan_skill_result_ranked_alike sample_finditer sample_fs
              extensions evil sample_state) as (r & st' & Hrun & _ & Hsame & _).
  exists r, st'. split; [exact Hrun|].
  assert (Hr : fst (scan_skill sample_finditer sample_fs extensions evil
                      sample_state) = inr r) by (rewrite Hrun; reflexivity).
  assert (Hcrit : run_highest (ScanResult.findings r) = CRITICAL)
    by (vm_compute in Hr; injection Hr as <-; reflexivity).
  split; [rewrite Hsame|]; exact Hcrit.
Defined.

(* ================================================================== *)
(** * What [scan_skill] and [scan_all_skills] do to the scanner *)

Section Frames.

Variable finditer : string -> text -> option (list (nat * nat)).
Variable fs : Node.
Variable ext_iter : list string.

(** [scan_skill] leaves the scanner as it is, but for the list of the
    skipped names. *)
Lemma scan_skill_frame skill_path st r st' :
  scan_skill finditer fs ext_iter skill_path st = (inr r, st') ->
  ScanResult.skill_name r = path_name skill_path
  /\ skills_dir (self st') = skills_dir (self st)
  /\ scan_level (self st') = scan_level (self st)
  /\ whitelist (self st') = whitelist (self st)
  /\ use_whitelist (self st') = use_whitelist (self st)
  /\ results (self st') = results (self st)
  /\ skipped_whitelist (self st')
     = skipped_whitelist (self st)
       ++ (if negb (String.eqb (path_name skill_path) "365skill")
              && str_in (path_name skill_path) (whitelist (self st))
           then [path_name skill_path] else [])
  /\ exists evs,
       trace st' = trace st ++ EvPrint (MsgScanning (path_name skill_path))
                               :: evs.
Proof.
  intros Hrun.
  destruct (String.eqb_spec (path_name skill_path) "365skill") as [Hown|Hown].
  - rewrite scan_skill_own_package in Hrun by exact Hown.
    injection Hrun as <- <-. cbn. rewrite app_nil_r, Hown.
    repeat split. exists []. reflexivity.
  - destruct (str_in (path_name skill_path) (whitelist (self st))) eqn:Hwl.
    + rewrite scan_skill_whitelisted in Hrun by assumption.
      injection Hrun as <- <-. cbn. repeat split.
      eexists. reflexivity.
    + rewrite scan_skill_scanned in Hrun by assumption.
      injection Hrun as <- <-. cbn. rewrite app_nil_r. repeat split.
      eexists. reflexivity.
Qed.

(** The loop of [scan_all_skills]: one result per path, in order, each
    appended to the list returned and to [self.results]. *)
Lemma scan_paths_run skill_paths : forall acc st,
  exists rs st',
    scan_paths finditer fs ext_iter skill_paths acc st = (inr (acc ++ rs), st')
    /\ map ScanResult.skill_name rs = map path_name skill_paths
    /\ results (self st') = results (self st) ++ rs
    /\ skills_dir (self st') = skills_dir (self st)
    /\ scan_level (self st') = scan_level (self st)
    /\ whitelist (self st') = whitelist (self st)
    /\ (forall r, In r rs ->
          (ScanResult.is_safe r = true <-> ScanResult.findings r = []))
    /\ exists evs, trace st' = trace st ++ evs.
Proof.
  induction skill_paths as [|p rest IH]; intros acc st; cbn [scan_paths].
  - exists [], st. cbn. rewrite !app_nil_r. repeat split; try tauto.
    exists []. now rewrite app_nil_r.
  - destruct (scan_skill_returns finditer fs ext_iter p st)
      as (r & st1 & Hrun).
    destruct (@scan_skill_frame p st r st1 Hrun)
      as (Hname & Hdir & Hlevel & Hwl & _ & Hres & _ & (evs1 & Htr1)).
    cbv [bind get_self set_self ret]. rewrite Hrun. cbn [self trace].
    destruct (IH (acc ++ [r])
                (mkState (extend_results [r] (self st1)) (trace st1)))
      as (rs & st' & Hloop & Hnames & Hresults & Hdir' & Hlevel' & Hwl'
          & Hinv & (evs2 & Htr2)).
    exists (r :: rs), st'. rewrite Hloop. cbn [self trace] in *.
    split; [now rewrite <- app_assoc|].
    split; [cbn; now rewrite Hname, Hnames|].
    split; [rewrite Hresults; cbn; rewrite Hres; now rewrite <- app_assoc|].
    split; [now rewrite Hdir'|]. split; [now rewrite Hlevel'|].
    split; [now rewrite Hwl'|]. split.
    + intros r' [<-|Hin]; [eapply scan_skill_invariant, Hrun | apply Hinv, Hin].
    + exists (EvPrint (MsgScanning (path_name p)) :: evs1 ++ evs2).
      rewrite Htr2, Htr1, <- app_assoc. reflexivity.
Qed.

End Frames.

Lemma with_findings_bounds {A B} (g : A -> list B) (l : list A) :
  let nonempty := fun x => match g x with [] => false | _ :: _ => true end in
  List.length (filter nonempty l) <= List.length (List.concat (map g l))
  /\ (List.length (filter nonempty l) = 0 <-> List.concat (map g l) = []).
Proof.
  cbv zeta. induction l as [|a l [IHle IHiff]]; cbn [filter map List.concat].
  - split; [apply Nat.le_refl | tauto].
  - destruct (g a) as [|b bs]; cbn [app List.length].
    + split; assumption.
    + rewrite length_app. split; [lia|]. split; [lia | discriminate].
Qed.

(** X6. The counters of a result of [scan_skill]: the files counted as
    having findings are at most the findings and at most the candidates,
    and the result is safe exactly when no file is counted. *)
Theorem scan_skill_counters_agree :
  forall finditer fs ext_iter skill_path st,
  exists r st',
    scan_skill finditer fs ext_iter skill_path st = (inr r, st')
    /\ ScanResult.scanned_files r <= List.length (ScanResult.findings r)
    /\ ScanResult.scanned_files r <= ScanResult.total_files r
    /\ (ScanResult.scanned_files r = 0 <-> ScanResult.is_safe r = true).
Proof.
  intros finditer fs ext_iter skill_path st.
  destruct (String.eqb_spec (path_name skill_path) "365skill") as [Hown|Hown].
  - eexists _, _. split; [apply scan_skill_own_package, Hown|].
    cbn. repeat split; auto.
  - destruct (str_in (path_name skill_path) (whitelist (self st))) eqn:Hwl.
    + eexists _, _. split; [apply scan_skill_whitelisted; assumption|].
      cbn. repeat split; auto.
    + eexists _, _. split; [apply scan_skill_scanned; assumption|].
      cbn [ScanResult.scanned_files ScanResult.findings ScanResult.is_safe
           ScanResult.total_files].
      destruct (with_findings_bounds
                  (fun p => fst (file_outcome finditer fs (self st) p
                                   (path_name skill_path)))
                  (candidates fs skill_path ext_iter)) as [Hle Hiff].
      split; [exact Hle|]. split; [apply filter_length_le|].
      rewrite Nat.eqb_eq. etransitivity; [exact Hiff|].
      symmetry. apply length_zero_iff_nil.
Qed.

(** X6, witness: the skill /skills/evil of the sample, with two files
    counted, two findings and five candidates. *)
Lemma scan_skill_counters_witness :
  exists r st',
    scan_skill sample_finditer sample_fs extensions evil sample_state
    = (inr r, st')
    /\ ScanResult.scanned_files r = 2
    /\ ScanResult.scanned_files r <= List.length (ScanResult.findings r).
Proof.
  destruct (scan_skill_counters_agree sample_finditer sample_fs extensions
              evil sample_state) as (r & st' & Hrun & Hle & _).
  exists r, st'. split; [exact Hrun|]. split; [|exact Hle].
  assert (Hr : fst (scan_skill sample_finditer sample_fs extensions evil
                      sample_state) = inr r) by (rewrite Hrun; reflexivity).
  vm_compute in Hr. injection Hr as <-. reflexivity.
Defined.

(** X7. [scan_skill] changes nothing of the scanner but the list of
    skipped names: the skills directory, the level, the whitelist and
    [self.results] stay as they are. The name of the skill is appended to
    the skipped names exactly when it is whitelisted and is not the
    tool's own package, which is never recorded as skipped. The first
    event of the call is the line that announces the skill. *)
Theorem scan_skill_changes_skipped_names_only :
  forall finditer fs ext_iter skill_path st,
  exists r st',
    scan_skill finditer fs ext_iter skill_path st = (inr r, st')
    /\ ScanResult.skill_name r = path_name skill_path
    /\ skills_dir (self st') = skills_dir (self st)
    /\ scan_level (self st') = scan_level (self st)
    /\ whitelist (self st') = whitelist (self st)
    /\ results (self st') = results (self st)
    /\ skipped_whitelist (self st')
       = skipped_whitelist (self st)
         ++ (if negb (String.eqb (path_name skill_path) "365skill")
                && str_in (path_name skill_path) (whitelist (self st))
             then [path_name skill_path] else [])
    /\ exists evs,
         trace st' = trace st ++ EvPrint (MsgScanning (path_name skill_path))
                                 :: evs.
Proof.
  intros finditer fs ext_iter skill_path st.
  destruct (scan_skill_returns finditer fs ext_iter skill_path st)
    as (r & st' & Hrun).
  exists r, st'. split; [exact Hrun|].
  destruct (@scan_skill_frame finditer fs ext_iter skill_path st r st' Hrun)
    as (H1 & H2 & H3 & H4 & _ & H6 & H7 & H8).
  repeat split; assumption.
Qed.

(** X7, witness: the whitelisted skill /skills/trusted of the sample is
    recorded as skipped. *)
Lemma scan_skill_skipped_witness :
  exists r st',
    scan_skill sample_finditer sample_fs extensions
      (path_div (skills_dir sample_scanner) "trusted") sample_state
    = (inr r, st')
    /\ skipped_whitelist (self st') = ["trusted"]
    /\ results (self st') = [].
Proof.
  destruct (scan_skill_changes_skipped_names_only sample_finditer sample_fs
              extensions (path_div (skills_dir sample_scanner) "trusted")
              sample_state)
    as (r & st' & Hrun & _ & _ & _ & _ & Hres & Hskip & _).
  exists r, st'. split; [exact Hrun|]. split; [exact Hskip | exact Hres].
Defined.

(** X8. Whatever [scan_all_skills] returns is appended, in the same
    order, to [self.results], which is never cleared: a second call adds
    its results after those of the first. The skills directory, the level
    and the whitelist are unchanged, the trace only grows, and every
    result returned is safe exactly when it has no findings. *)
Theorem scan_all_skills_appends_to_results :
  forall finditer fs ext_iter target_skill st rs st',
    scan_all_skills finditer fs ext_iter target_skill st = (inr rs, st') ->
    results (self st') = results (self st) ++ rs
    /\ skills_dir (self st') = skills_dir (self st)
    /\ scan_level (self st') = scan_level (self st)
    /\ whitelist (self st') = whitelist (self st)
    /\ (forall r, In r rs ->
          (ScanResult.is_safe r = true <-> ScanResult.findings r = []))
    /\ exists evs, trace st' = trace st ++ evs.
Proof.
  intros finditer fs ext_iter target_skill st rs st' Hrun.
  unfold scan_all_skills in Hrun. cbv [bind get_self] in Hrun.
  destruct (truthy target_skill) as [target|].
  - cbv [exists_ bind emit ret print] in Hrun. cbn [self trace hd] in Hrun.
    destruct (path_exists fs (path_div (skills_dir (self st)) target)).
    + cbn [negb] in Hrun.
      destruct (scan_paths_run finditer fs ext_iter
                  [path_div (skills_dir (self st)) target] []
                  (mkState (self st)
                     (trace st ++
                      [EvExists (path_div (skills_dir (self st)) target)])))
        as (rs1 & st1 & Hloop & _ & Hres & Hdir & Hlevel & Hwl & Hinv
            & (evs & Htr)).
      rewrite Hloop in Hrun. injection Hrun as <- <-.
      cbn [self trace app] in *. repeat split; try assumption;
        try (apply Hinv; assumption).
      eexists. rewrite Htr, <- app_assoc. reflexivity.
    + cbn [negb] in Hrun. injection Hrun as <- <-. cbn [self trace].
      rewrite app_nil_r.
      split; [reflexivity|]. split; [reflexivity|]. split; [reflexivity|].
      split; [reflexivity|]. split; [intros r []|].
      eexists. rewrite <- app_assoc. reflexivity.
  - cbv [iterdir bind emit ret raise] in Hrun. cbn [self trace] in Hrun.
    destruct (resolve fs (skills_dir (self st))) as [[c|es]|];
      try discriminate Hrun.
    rewrite visible_dirs_run in Hrun. cbn [self trace] in Hrun.
    match type of Hrun with
    | context [scan_paths _ _ _ ?ps [] ?s] =>
        destruct (scan_paths_run finditer fs ext_iter ps [] s)
          as (rs1 & st1 & Hloop & _ & Hres & Hdir & Hlevel & Hwl & Hinv
              & (evs & Htr))
    end.
    rewrite Hloop in Hrun. injection Hrun as <- <-.
    cbn [self trace app] in *. repeat split; try assumption;
      try (apply Hinv; assumption).
    eexists. rewrite Htr, <- !app_assoc. reflexivity.
Qed.

(** X8, witness: two scans of the sample in a row leave four results in
    [self.results], those of the first scan twice. *)
Lemma scan_all_skills_twice_witness :
  exists rs st1 st2,
    scan_all_skills sample_finditer sample_fs extensions None sample_state
    = (inr rs, st1)
    /\ scan_all_skills sample_finditer sample_fs extensions None st1
       = (inr rs, st2)
    /\ results (self st2) = rs ++ rs
    /\ List.length rs = 2.
Proof.
  destruct (scan_all_skills sample_finditer sample_fs extensions None
              sample_state) as [[e|rs] st1] eqn:H1;
    [vm_compute in H1; discriminate H1|].
  destruct (scan_all_skills sample_finditer sample_fs extensions None st1)
    as [[e|rs2] st2] eqn:H2.
  { exfalso. vm_compute in H1. injection H1 as _ <-.
    vm_compute in H2. discriminate H2. }
  destruct (@scan_all_skills_appends_to_results sample_finditer sample_fs
              extensions None sample_state rs st1 H1) as (Hr1 & _).
  destruct (@scan_all_skills_appends_to_results sample_finditer sample_fs
              extensions None st1 rs2 st2 H2) as (Hr2 & _).
  assert (Hsame : rs2 = rs).
  { vm_compute in H1. injection H1 as <- <-.
    vm_compute in H2. injection H2 as <- _. reflexivity. }
  subst rs2. exists rs, st1, st2. split; [reflexivity|]. split; [exact H2|].
  split.
  - rewrite Hr2, Hr1. reflexivity.
  - vm_compute in H1. injection H1 as <- _. reflexivity.
Defined.

(** X9. Without a target, on a skills directory that can be listed,
    [scan_all_skills] returns one result for each entry that is a
    directory and whose name does not start with a dot, in the order of
    the listing, each named after its directory; so no result has a name
    that starts with a dot. *)
Theorem scan_all_skills_one_result_per_visible_directory :
  forall finditer fs ext_iter st es,
    resolve fs (skills_dir (self st)) = Some (Dir es) ->
    exists rs st',
      scan_all_skills finditer fs ext_iter None st = (inr rs, st')
      /\ map ScanResult.skill_name rs
         = map path_name
             (filter (visible_dir fs)
                (map (child (skills_dir (self st))) (entry_names es)))
      /\ forall r, In r rs -> startswith (ScanResult.skill_name r) "." = false.
Proof.
  intros finditer fs ext_iter st es Hres.
  unfold scan_all_skills. cbv [bind get_self truthy iterdir emit ret].
  cbn [self trace]. rewrite Hres. rewrite visible_dirs_run. cbn [self trace].
  match goal with
  | |- context [scan_paths _ _ _ ?ps [] ?s] =>
      destruct (scan_paths_run finditer fs ext_iter ps [] s)
        as (rs & st' & Hloop & Hnames & _)
  end.
  exists rs, st'. split; [exact Hloop|]. split; [exact Hnames|].
  intros r Hr. apply (in_map ScanResult.skill_name) in Hr.
  rewrite Hnames in Hr. apply in_map_iff in Hr.
  destruct Hr as (d & <- & Hd). apply filter_In in Hd.
  destruct Hd as [_ Hvis]. unfold visible_dir in Hvis.
  apply andb_true_iff in Hvis. destruct Hvis as [_ Hdot].
  now apply negb_true_iff in Hdot.
Qed.

(** X9, witness: the sample gives the results of evil and trusted, in
    that order; .hidden and README.txt are left out. *)
Lemma scan_all_skills_visible_witness :
  exists rs st',
    scan_all_skills sample_finditer sample_fs extensions None sample_state
    = (inr rs, st')
    /\ map ScanResult.skill_name rs = ["evil"; "trusted"].
Proof.
  destruct (@scan_all_skills_one_result_per_visible_directory sample_finditer
              sample_fs extensions sample_state _ eq_refl)
    as (rs & st' & Hrun & Hnames & _).
  exists rs, st'. split; [exact Hrun|]. rewrite Hnames. reflexivity.
Defined.

(** X10. The edge cases of [scan_all_skills]. A target that does not
    exist gives the empty list and the error line, and leaves the scanner
    as it was. The empty string as target is no target. Without a target,
    a skills directory that does not exist, or that is a file, makes the
    call raise after the attempt to list it, with nothing scanned. *)
Theorem scan_all_skills_edge_cases :
  forall finditer fs ext_iter st,
    (forall target,
       target <> "" ->
       path_exists fs (path_div (skills_dir (self st)) target) = false ->
       scan_all_skills finditer fs ext_iter (Some target) st
       = (inr [],
          mkState (self st)
            (trace st ++
             [EvExists (path_div (skills_dir (self st)) target);
              EvPrint (MsgSkillNotFound target)])))
    /\ scan_all_skills finditer fs ext_iter (Some "") st
       = scan_all_skills finditer fs ext_iter None st
    /\ (resolve fs (skills_dir (self st)) = None ->
        scan_all_skills finditer fs ext_iter None st
        = (inl FileNotFoundError,
           mkState (self st) (trace st ++ [EvIterdir (skills_dir (self st))])))
    /\ (forall c,
          resolve fs (skills_dir (self st)) = Some (File c) ->
          scan_all_skills finditer fs ext_iter None st
          = (inl NotADirectoryError,
             mkState (self st)
               (trace st ++ [EvIterdir (skills_dir (self st))]))).
Proof.
  intros finditer fs ext_iter st. split; [|split; [|split]].
  - intros target Hne Hmissing.
    assert (Htruthy : truthy (Some target) = Some target)
      by (destruct target; [congruence | reflexivity]).
    unfold scan_all_skills. cbv [bind get_self]. rewrite Htruthy.
    cbv [exists_ bind emit ret print]. cbn [self trace hd].
    rewrite Hmissing. cbn [negb self trace]. now rewrite <- app_assoc.
  - reflexivity.
  - intros Hres. unfold scan_all_skills.
    cbv [bind get_self truthy iterdir emit ret raise]. cbn [self trace].
    now rewrite Hres.
  - intros c Hres. unfold scan_all_skills.
    cbv [bind get_self truthy iterdir emit ret raise]. cbn [self trace].
    now rewrite Hres.
Qed.

(** X10, witness: the target "nope" in the sample, and a scanner whose
    skills directory /missing does not exist. *)
Lemma scan_all_skills_edge_witness :
  fst (scan_all_skills sample_finditer sample_fs extensions (Some "nope")
         sample_state) = inr []
  /\ fst (scan_all_skills sample_finditer sample_fs extensions None
            (mkState (new_scanner "/missing" DEEP true None) []))
     = inl FileNotFoundError.
Proof.
  destruct (scan_all_skills_edge_cases sample_finditer sample_fs extensions
              sample_state) as (Hmissing & _).
  destruct (scan_all_skills_edge_cases sample_finditer sample_fs extensions
              (mkState (new_scanner "/missing" DEEP true None) []))
    as (_ & _ & Hnodir & _).
  split.
  - rewrite (Hmissing "nope"); [reflexivity | discriminate | reflexivity].
  - rewrite Hnodir; reflexivity.
Defined.

(* ================================================================== *)
(** * The report of [print_results] *)

Lemma classify_step_filed g gs r :
  members g (classify_step gs r)
  = members g gs
    ++ (if filed_under g r then [(ScanResult.skill_name r, r)] else []).
Proof.
  unfold classify_step, filed_under, unsafe, group_of_level.
  destruct (ScanResult.is_safe r); cbn [negb andb].
  - now rewrite app_nil_r.
  - destruct (print_results_highest (ScanResult.findings r)), g; cbn;
      rewrite ?app_nil_r; reflexivity.
Qed.

Lemma classify_filed g rs : forall gs,
  members g (fold_left classify_step rs gs)
  = members g gs
    ++ map (fun r => (ScanResult.skill_name r, r)) (filter (filed_under g) rs).
Proof.
  induction rs as [|r rs IH]; intros gs; cbn [fold_left filter map].
  - now rewrite app_nil_r.
  - rewrite IH, classify_step_filed, <- app_assoc. f_equal.
    destruct (filed_under g r); reflexivity.
Qed.

Lemma filed_under_one_group r :
  unsafe r = true ->
  exists g, filed_under g r = true
            /\ forall g', filed_under g' r = true -> g' = g.
Proof.
  intros Hunsafe. unfold filed_under. rewrite Hunsafe. cbn [andb].
  exists (group_of_level (print_results_highest (ScanResult.findings r))).
  split.
  - destruct (group_of_level _); reflexivity.
  - intros g'.
    destruct (group_of_level _), g'; cbn; congruence.
Qed.

Lemma filed_count rs :
  List.length (filter (filed_under GCritical) rs)
  + List.length (filter (filed_under GHigh) rs)
  + List.length (filter (filed_under GMedium) rs)
  + List.length (filter (filed_under GLow) rs)
  = List.length (filter unsafe rs).
Proof.
  assert (Heq : forall g r,
            filed_under g r
            = unsafe r
              && Group_eqb
                   (group_of_level
                      (print_results_highest (ScanResult.findings r))) g)
    by reflexivity.
  induction rs as [|r rs IH]; [reflexivity|]. cbn [filter].
  rewrite !Heq.
  destruct (unsafe r); cbn [andb]; [|exact IH].
  destruct (group_of_level (print_results_highest (ScanResult.findings r)));
    cbn [Group_eqb List.length]; lia.
Qed.

Lemma safe_plus_unsafe rs :
  List.length (filter ScanResult.is_safe rs) + List.length (filter unsafe rs)
  = List.length rs.
Proof.
  induction rs as [|r rs IH]; [reflexivity|]. cbn [filter]. unfold unsafe at 1.
  destruct (ScanResult.is_safe r); cbn [negb List.length]; lia.
Qed.

(** X11. [print_results] files the results that are not safe under the
    four groups in the order of [self.results]: each group is the
    sub-list of the unsafe results whose highest risk belongs to it, every
    unsafe result is in one group only, and the safe ones are in none. *)
Theorem print_results_groups_keep_order :
  forall slf g,
    members g (print_results_classify slf)
    = map (fun r => (ScanResult.skill_name r, r))
        (filter (filed_under g) (results slf))
    /\ (forall r, unsafe r = true ->
          exists g0, filed_under g0 r = true
                     /\ forall g', filed_under g' r = true -> g' = g0)
    /\ (forall r, ScanResult.is_safe r = true -> filed_under g r = false).
Proof.
  intros slf g. split; [|split].
  - unfold print_results_classify. rewrite classify_filed.
    destruct g; reflexivity.
  - apply filed_under_one_group.
  - intros r Hsafe. unfold filed_under, unsafe. now rewrite Hsafe.
Qed.

(** X11, witness: the sample result with a LOW and a MEDIUM finding is
    the only member of the medium group. *)
Lemma print_results_groups_witness :
  members GMedium (print_results_classify scanner_with_results)
  = [("mixed", result_mixed)]
  /\ members GLow (print_results_classify scanner_with_results) = [].
Proof.
  split.
  - rewrite (proj1 (print_results_groups_keep_order scanner_with_results
                      GMedium)). reflexivity.
  - rewrite (proj1 (print_results_groups_keep_order scanner_with_results
                      GLow)). reflexivity.
Defined.

Lemma risky_listed_count slf :
  List.length
    (critical_skills (print_results_classify slf)
     ++ high_risk_skills (print_results_classify slf)
     ++ medium_risk_skills (print_results_classify slf)
     ++ low_risk_skills (print_results_classify slf))
  = List.length (filter unsafe (results slf)).
Proof.
  pose proof (fun g => classify_filed g (results slf) (mkGroups [] [] [] []))
    as Hg.
  pose proof (Hg GCritical) as H1. pose proof (Hg GHigh) as H2.
  pose proof (Hg GMedium) as H3. pose proof (Hg GLow) as H4.
  cbn [members critical_skills high_risk_skills medium_risk_skills
       low_risk_skills app] in H1, H2, H3, H4.
  unfold print_results_classify. rewrite H1, H2, H3, H4.
  rewrite !length_app, !length_map, <- filed_count. lia.
Qed.

(** X12. With no results the report is the single line that says so.
    Otherwise it has the statistics line, on which the safe and the risky
    skills add up to the skills scanned, and it ends with the line "all
    skills are safe" when every result is safe and else with the number of
    skills with risks, which is the number of risky skills of the
    statistics line. *)
Theorem print_results_statistics_add_up :
  forall slf,
    (results slf = [] -> print_results slf = [LNoSkills])
    /\ (results slf <> [] ->
        let safe := List.length (filter ScanResult.is_safe (results slf)) in
        let risky := List.length (filter unsafe (results slf)) in
        safe + risky = List.length (results slf)
        /\ exists before blocks total_risks,
             print_results slf
             = before
               ++ LStatistics (List.length (results slf)) safe risky
                    total_risks
                  :: blocks
               ++ [match risky with
                   | 0 => LAllSafe
                   | S _ => LFound risky
                   end]).
Proof.
  intros slf. split.
  - intros Hnone. unfold print_results. now rewrite Hnone.
  - intros Hsome. cbv zeta. split; [apply safe_plus_unsafe|].
    unfold print_results.
    destruct (results slf) as [|r0 rs] eqn:Hres; [congruence|].
    rewrite <- Hres. clear Hsome. cbv zeta.
    pose proof (risky_listed_count slf) as Hlen. rewrite <- length_map with (f := fst) in Hlen.
    match goal with
    | |- exists before blocks total_risks,
           ?skipped ++ [LReportHeader; LStatistics _ _ _ ?total]
           ++ ?b1 ++ ?b2 ++ ?b3 ++ ?b4 ++ ?closing = _ =>
        exists (skipped ++ [LReportHeader]), (b1 ++ b2 ++ b3 ++ b4), total
    end.
    rewrite <- !app_assoc. cbn [app]. do 3 f_equal. do 4 f_equal.
    destruct (map fst _) as [|n0 ns]; cbn [List.length] in Hlen;
      rewrite <- Hlen; reflexivity.
Qed.

(** X12, witness: the report on the scanner that holds the sample result
    with two findings counts one risky skill out of one. *)
Lemma print_results_statistics_witness :
  exists before blocks total_risks,
    print_results scanner_with_results
    = before ++ LStatistics 1 0 1 total_risks :: blocks ++ [LFound 1].
Proof.
  destruct (print_results_statistics_add_up scanner_with_results)
    as [_ Hreport].
  destruct Hreport as [_ Hlines]; [discriminate|].
  exact Hlines.
Defined.

(** The whole report for that scanner. *)
Example print_results_sample :
  print_results scanner_with_results
  = [LReportHeader; LStatistics 1 0 1 2;
     LGroupHeader GMedium 1; LListed "mixed"; LFound 1].
Proof. reflexivity. Qed.

(* ================================================================== *)
(** * The whitelist commands *)

Lemma named_name_or_empty name item :
  named name item = true -> name_or_empty item = name.
Proof.
  unfold named, name_or_empty. destruct (item_name item) as [n|];
    [|discriminate]. apply String.eqb_eq.
Qed.

Lemma name_or_empty_named name item :
  name <> "" -> name_or_empty item = name -> named name item = true.
Proof.
  unfold named, name_or_empty. destruct (item_name item) as [n|].
  - intros _ ->. apply String.eqb_refl.
  - intros Hne <-. congruence.
Qed.

Lemma filter_all_kept {A} (p : A -> bool) (l : list A) :
  List.length (filter p l) = List.length l -> filter p l = l.
Proof.
  induction l as [|a l IH]; [reflexivity|]. cbn [filter].
  destruct (p a); cbn [List.length]; intros Hlen.
  - f_equal. apply IH. lia.
  - pose proof (filter_length_le p l). lia.
Qed.

Lemma filter_none_named name items :
  existsb (named name) items = false ->
  filter (fun item => negb (named name item)) items = items.
Proof.
  induction items as [|i items IH]; [reflexivity|]. cbn [existsb filter].
  intros Hex. apply orb_false_iff in Hex. destruct Hex as [Hi Hrest].
  rewrite Hi. cbn [negb]. f_equal. apply IH, Hrest.
Qed.

Lemma load_from_stored data :
  load_from true (Stored data) = map name_or_empty (entries data).
Proof. reflexivity. Qed.

(** What [whitelist_add] stores for a name that no entry has. *)
Lemma whitelist_add_fresh name today data items :
  whitelisted_skills data = Some items ->
  existsb (named name) items = false ->
  whitelist_add name today (Stored data)
  = inr (Stored
           (mkData
              (Some (items ++
                     [mkItem (Some name) (Some "Manually added via CLI")
                        (Some today)]))
              (notes data)),
         [CliAdded name]).
Proof.
  intros Hitems Hfresh. unfold whitelist_add, json_load, entries.
  now rewrite Hitems, Hfresh.
Qed.

(** After [whitelist_add] the name is read from the file. *)
Lemma whitelist_add_in_loaded name today file file' out :
  whitelist_add name today file = inr (file', out) ->
  In name (load_from true file').
Proof.
  intros Hadd. unfold whitelist_add in Hadd.
  destruct file as [| |data]; cbn [json_load] in Hadd; [|discriminate|].
  - cbn in Hadd. injection Hadd as <- <-. left. reflexivity.
  - destruct (existsb (named name) (entries data)) eqn:Hex.
    + injection Hadd as <- <-.
      apply existsb_exists in Hex. destruct Hex as (item & Hin & Hnamed).
      rewrite load_from_stored. apply in_map_iff.
      exists item. split; [apply named_name_or_empty, Hnamed | exact Hin].
    + unfold entries in Hex.
      destruct (whitelisted_skills data) as [items|] eqn:Hitems;
        [|discriminate Hadd].
      injection Hadd as <- <-. rewrite load_from_stored. unfold entries.
      cbn [whitelisted_skills]. rewrite map_app.
      apply in_or_app. right. left. reflexivity.
Qed.

(** After [whitelist_remove] a name that is not empty is not read from
    the file. *)
Lemma whitelist_remove_not_loaded name file file' out :
  name <> "" ->
  whitelist_remove name file = inr (file', out) ->
  ~ In name (load_from true file').
Proof.
  intros Hne Hrem. unfold whitelist_remove in Hrem.
  destruct file as [| |data]; [| discriminate |].
  - injection Hrem as <- <-. intros [].
  - cbv zeta in Hrem.
    assert (Hgone : ~ In name
                      (map name_or_empty
                         (filter (fun item => negb (named name item))
                            (entries data)))).
    { intros Hin. apply in_map_iff in Hin. destruct Hin as (item & Hn & Hi).
      apply filter_In in Hi. destruct Hi as [_ Hnot].
      rewrite (name_or_empty_named item Hne Hn) in Hnot. discriminate. }
    destruct (Nat.eqb_spec
                (List.length (filter (fun item => negb (named name item))
                                (entries data)))
                (List.length (entries data))) as [Hsame|Hless];
      injection Hrem as <- <-; rewrite load_from_stored.
    + apply filter_all_kept in Hsame. now rewrite Hsame in Hgone.
    + exact Hgone.
Qed.

(** X13. When [--whitelist-add] returns, the file holds the name: the
    set [_load_whitelist] reads from it, with the whitelist enabled, has
    the name, every name it had before and no other. When an entry of the
    file had the name already, the file is left as it was and the command
    says that the skill is already whitelisted; when none had it, the
    command says that it added the name, and the entries of the file are
    those it had followed by one new entry with the name, the reason
    "Manually added via CLI" and the date, so one more name is read. *)
Theorem whitelist_add_then_load :
  forall name today file file' out,
    whitelist_add name today file = inr (file', out) ->
    In name (load_from true file')
    /\ (forall n, In n (load_from true file') <->
                  n = name \/ In n (load_from true file))
    /\ (existsb (named name) (file_entries file) = true ->
        out = [CliAlready name] /\ file' = file)
    /\ (existsb (named name) (file_entries file) = false ->
        out = [CliAdded name]
        /\ file_entries file'
           = file_entries file
             ++ [mkItem (Some name) (Some "Manually added via CLI")
                   (Some today)]
        /\ List.length (load_from true file')
           = S (List.length (load_from true file))).
Proof.
  intros name today file file' out Hadd.
  unfold whitelist_add in Hadd.
  destruct file as [| |data]; cbn [json_load] in Hadd; [|discriminate|].
  - cbn in Hadd. injection Hadd as <- <-. cbn.
    split; [left; reflexivity|]. split.
    + intros n. split; [intros [<-|[]]; left; reflexivity|].
      intros [->|[]]. left. reflexivity.
    + split; [discriminate|]. intros _. repeat split.
  - cbn [file_entries].
    destruct (existsb (named name) (entries data)) eqn:Hex.
    + injection Hadd as <- <-.
      apply existsb_exists in Hex. destruct Hex as (item & Hin & Hnamed).
      assert (Hname : In name (load_from true (Stored data))).
      { rewrite load_from_stored. apply in_map_iff.
        exists item. split; [apply named_name_or_empty, Hnamed | exact Hin]. }
      split; [exact Hname|]. split.
      * intros n. split; [tauto | intros [->|H]; assumption].
      * split; [intros _; split; reflexivity | discriminate].
    + unfold entries in Hex.
      destruct (whitelisted_skills data) as [items|] eqn:Hitems;
        [|discriminate Hadd].
      injection Hadd as <- <-. rewrite !load_from_stored. unfold entries.
      cbn [whitelisted_skills]. rewrite Hitems, map_app. cbn [map].
      change (name_or_empty (mkItem (Some name) _ _)) with name.
      split; [apply in_or_app; right; left; reflexivity|]. split.
      * intros n. rewrite in_app_iff. cbn [In]. intuition.
      * split; [discriminate|]. intros _.
        split; [reflexivity|]. split; [reflexivity|].
        rewrite length_app. cbn. lia.
Qed.

(** X13, witness: adding "pdf-tools" when there is no file yet. *)
Lemma whitelist_add_witness :
  exists file',
    whitelist_add "pdf-tools" "2024-01-01" Absent
    = inr (file', [CliAdded "pdf-tools"])
    /\ In "pdf-tools" (load_from true file').
Proof.
  destruct (whitelist_add "pdf-tools" "2024-01-01" Absent)
    as [e|[file' out]] eqn:Hadd; [discriminate Hadd|].
  destruct (@whitelist_add_then_load "pdf-tools" "2024-01-01" Absent file'
              out Hadd) as (Hin & _).
  exists file'. split; [|exact Hin].
  cbn in Hadd. injection Hadd as <- <-. reflexivity.
Defined.

Lemma kept_all_iff_none_named name items :
  (List.length (filter (fun item => negb (named name item)) items)
   =? List.length items)%nat
  = negb (existsb (named name) items).
Proof.
  destruct (existsb (named name) items) eqn:Hex; cbn [negb].
  - apply Nat.eqb_neq. intros Hsame. apply filter_all_kept in Hsame.
    apply existsb_exists in Hex. destruct Hex as (item & Hin & Hnamed).
    rewrite <- Hsame in Hin. apply filter_In in Hin.
    destruct Hin as [_ Hnot]. rewrite Hnamed in Hnot. discriminate.
  - apply Nat.eqb_eq. now rewrite (filter_none_named _ _ Hex).
Qed.

(** X14. When [--whitelist-remove] returns for a name that is not empty
    (the command is not run for the empty string), the set
    [_load_whitelist] reads from the file no longer has the name and has
    the other names exactly as before. When no entry of the file has the
    name, the file is left as it was and the command says that the skill
    was not found (or that there is no whitelist, when there is no file);
    when an entry has it, the command says that it removed the name, and
    the entries of the file are those it had without every entry of that
    name, in their order. *)
Theorem whitelist_remove_then_load :
  forall name file file' out,
    name <> "" ->
    whitelist_remove name file = inr (file', out) ->
    ~ In name (load_from true file')
    /\ (forall n, n <> name ->
          (In n (load_from true file') <-> In n (load_from true file)))
    /\ (existsb (named name) (file_entries file) = false ->
        file' = file
        /\ out = match file with
                 | Absent => [CliNoWhitelist]
                 | _ => [CliNotFound name]
                 end)
    /\ (existsb (named name) (file_entries file) = true ->
        out = [CliRemoved name]
        /\ file_entries file'
           = filter (fun item => negb (named name item)) (file_entries file)).
Proof.
  intros name file file' out Hne Hrem. unfold whitelist_remove in Hrem.
  destruct file as [| |data]; [| discriminate |].
  - injection Hrem as <- <-. cbn.
    split; [tauto|]. split; [tauto|].
    split; [intros _; split; reflexivity | discriminate].
  - cbv zeta in Hrem. cbn [file_entries].
    rewrite kept_all_iff_none_named in Hrem.
    assert (Hgone : ~ In name
                      (map name_or_empty
                         (filter (fun item => negb (named name item))
                            (entries data)))).
    { intros Hin. apply in_map_iff in Hin. destruct Hin as (item & Hn & Hi).
      apply filter_In in Hi. destruct Hi as [_ Hnot].
      rewrite (name_or_empty_named item Hne Hn) in Hnot. discriminate. }
    assert (Hothers : forall n, n <> name ->
              (In n (map name_or_empty
                       (filter (fun item => negb (named name item))
                          (entries data)))
               <-> In n (map name_or_empty (entries data)))).
    { intros n Hn. rewrite !in_map_iff. split.
      - intros (item & Hi & Hin). apply filter_In in Hin.
        exists item. tauto.
      - intros (item & Hi & Hin). exists item. split; [exact Hi|].
        apply filter_In. split; [exact Hin|].
        destruct (named name item) eqn:Hnamed; [|reflexivity].
        apply named_name_or_empty in Hnamed. congruence. }
    destruct (existsb (named name) (entries data)) eqn:Hex;
      cbn [negb] in Hrem.
    + injection Hrem as <- <-. rewrite !load_from_stored.
      unfold entries at 1 3. cbn [whitelisted_skills].
      split; [exact Hgone|]. split; [exact Hothers|].
      split; [discriminate|]. intros _. split; reflexivity.
    + injection Hrem as <- <-. rewrite load_from_stored.
      rewrite (filter_none_named _ _ Hex) in Hgone.
      split; [exact Hgone|]. split; [tauto|].
      split; [intros _; split; reflexivity | discriminate].
Qed.

(** X14, witness: removing "b" from a file that lists "a", "b", "b". *)
Lemma whitelist_remove_witness :
  exists file',
    whitelist_remove "b"
      (Stored (mkData (Some [mkItem (Some "a") None None;
                             mkItem (Some "b") None None;
                             mkItem (Some "b") (Some "twice") None])
                 None))
    = inr (file', [CliRemoved "b"])
    /\ load_from true file' = ["a"]
    /\ ~ In "b" (load_from true file').
Proof.
  match goal with
  | |- exists file', whitelist_remove ?n ?f = _ /\ _ =>
      destruct (whitelist_remove n f) as [e|[file' out]] eqn:Hrem;
      [discriminate Hrem|];
      destruct (@whitelist_remove_then_load n f file' out) as (Hgone & _);
      [discriminate | exact Hrem |]
  end.
  exists file'. cbn in Hrem. injection Hrem as <- <-.
  split; [reflexivity|]. split; [reflexivity | exact Hgone].
Defined.

(** X15. Adding a name a second time changes nothing: once
    [--whitelist-add] has returned, the same command on the resulting file
    leaves it as it is and says that the skill is already whitelisted.
    Removing the name after it was added to a stored list that did not
    have it gives that list back. *)
Theorem whitelist_add_twice_and_undo :
  forall name today file file' out,
    whitelist_add name today file = inr (file', out) ->
    (forall today2,
       whitelist_add name today2 file' = inr (file', [CliAlready name]))
    /\ (forall data,
          file = Stored data ->
          out = [CliAdded name] ->
          whitelist_remove name file' = inr (file, [CliRemoved name])).
Proof.
  intros name today file file' out Hadd.
  unfold whitelist_add in Hadd.
  destruct file as [| |data]; cbn [json_load] in Hadd; [|discriminate|].
  - cbn in Hadd. injection Hadd as <- <-. split; [|discriminate].
    intros today2. unfold whitelist_add. cbn.
    now rewrite String.eqb_refl.
  - destruct (existsb (named name) (entries data)) eqn:Hex.
    + injection Hadd as <- <-. split; [|discriminate].
      intros today2. unfold whitelist_add. cbn [json_load].
      now rewrite Hex.
    + unfold entries in Hex.
      destruct (whitelisted_skills data) as [items|] eqn:Hitems;
        [|discriminate Hadd].
      injection Hadd as <- <-. split.
      * intros today2. unfold whitelist_add, entries.
        cbn [json_load whitelisted_skills].
        rewrite existsb_app. cbn [existsb named item_name].
        now rewrite String.eqb_refl, orb_true_r.
      * intros data0 Hfile _. injection Hfile as <-.
        unfold whitelist_remove, entries. cbn [whitelisted_skills notes].
        rewrite filter_app, (filter_none_named _ _ Hex).
        cbn [filter named item_name]. rewrite String.eqb_refl. cbn [negb].
        rewrite app_nil_r, length_app. cbn [List.length].
        destruct (Nat.eqb_spec (List.length items) (List.length items + 1));
          [lia|].
        destruct data as [ws ns]. cbn in *. now subst ws.
Qed.

(** X15, witness: "b" added to a file that lists "a", then removed. *)
Lemma whitelist_add_undo_witness :
  exists file',
    whitelist_add "b" "2024-01-01"
      (Stored (mkData (Some [mkItem (Some "a") None None]) None))
    = inr (file', [CliAdded "b"])
    /\ whitelist_remove "b" file'
       = inr (Stored (mkData (Some [mkItem (Some "a") None None]) None),
              [CliRemoved "b"]).
Proof.
  match goal with
  | |- exists file', whitelist_add ?n ?t ?f = _ /\ _ =>
      destruct (whitelist_add n t f) as [e|[file' out]] eqn:Hadd;
      [discriminate Hadd|];
      destruct (@whitelist_add_twice_and_undo n t f file' out Hadd)
        as (_ & Hundo)
  end.
  exists file'.
  assert (Hout : out = [CliAdded "b"])
    by (cbn in Hadd; injection Hadd as _ <-; reflexivity).
  split; [now rewrite Hout|]. apply (Hundo _ eq_refl Hout).
Defined.

Lemma str_in_In x xs : str_in x xs = true <-> In x xs.
Proof.
  unfold str_in. rewrite existsb_exists. split.
  - intros (y & Hy & Heq). apply String.eqb_eq in Heq. now subst.
  - intros Hin. exists x. split; [exact Hin | apply String.eqb_refl].
Qed.

(** X17. The whitelist commands take effect on the next scanner. Once
    [--whitelist-add] has returned for a name, a scanner created on the
    resulting file with the whitelist enabled returns a safe result without
    findings for a skill of that name and opens none of its files. Once
    [--whitelist-remove] has returned for a name that is not empty and not
    the tool's own, such a scanner enumerates and scans the skill again. *)
Theorem whitelist_commands_take_effect :
  forall finditer fs ext_iter dir level skill_path tr name file file' out,
    path_name skill_path = name ->
    (forall today,
       whitelist_add name today file = inr (file', out) ->
       exists st',
         scan_skill finditer fs ext_iter skill_path
           (mkState (scanner_on dir level true file') tr)
         = (inr (ScanResult.mk name true [] 0 0), st')
         /\ exists evs, trace st' = tr ++ evs /\ forallb is_print evs = true)
    /\ (name <> "" -> name <> "365skill" ->
        whitelist_remove name file = inr (file', out) ->
        exists r st',
          scan_skill finditer fs ext_iter skill_path
            (mkState (scanner_on dir level true file') tr)
          = (inr r, st')
          /\ ScanResult.total_files r
             = List.length (candidates fs skill_path ext_iter)
          /\ exists evs,
               trace st'
               = tr ++ EvPrint (MsgScanning name)
                       :: map (EvRglob skill_path) ext_iter ++ evs).
Proof.
  intros finditer fs ext_iter dir level skill_path tr name file file' out
    Hname.
  split.
  - intros today Hadd.
    pose proof (@whitelist_add_in_loaded name today file file' out Hadd)
      as Hin.
    apply str_in_In in Hin.
    destruct (String.eqb_spec (path_name skill_path) "365skill") as [Ho|Ho].
    + eexists. split.
      * rewrite scan_skill_own_package by exact Ho.
        rewrite <- Hname, Ho. reflexivity.
      * eexists. split; reflexivity.
    + eexists. split.
      * rewrite scan_skill_whitelisted; [now rewrite Hname | exact Ho |].
        cbn [self]. rewrite Hname. exact Hin.
      * eexists. split; reflexivity.
  - intros Hne Hown Hrem.
    pose proof (@whitelist_remove_not_loaded name file file' out Hne Hrem)
      as Hgone.
    assert (Hwl : str_in (path_name skill_path)
                    (whitelist (self (mkState (scanner_on dir level true file')
                                        tr))) = false).
    { rewrite Hname. destruct (str_in name _) eqn:Hin; [|reflexivity].
      apply str_in_In in Hin. contradiction. }
    eexists _, _. split.
    + apply scan_skill_scanned; [now rewrite Hname | exact Hwl].
    + cbn [ScanResult.total_files trace]. split; [reflexivity|].
      rewrite Hname. eexists. reflexivity.
Qed.

(** X17, witness: "evil" is whitelisted by the command, and the next
    scanner skips /skills/evil of the sample. *)
Lemma whitelist_commands_witness :
  exists file' st',
    whitelist_add "evil" "2024-01-01" Absent = inr (file', [CliAdded "evil"])
    /\ scan_skill sample_finditer sample_fs extensions evil
         (mkState (scanner_on "/skills" DEEP true file') [])
       = (inr (ScanResult.mk "evil" true [] 0 0), st').
Proof.
  destruct (whitelist_add "evil" "2024-01-01" Absent)
    as [e|[file' out]] eqn:Hadd; [discriminate Hadd|].
  destruct (@whitelist_commands_take_effect sample_finditer sample_fs
              extensions "/skills" DEEP evil [] "evil" Absent file' out
              eq_refl) as [Hskip _].
  destruct (Hskip "2024-01-01" Hadd) as (st' & Hrun & _).
  exists file', st'. split; [|exact Hrun].
  cbn in Hadd. injection Hadd as <- <-. reflexivity.
Defined.

(* ================================================================== *)
(** * The interactive scanner: the order of the risky skills *)

Lemma insert_desc_perm x l : Permutation (x :: l) (insert_desc x l).
Proof.
  induction l as [|y rest IH]; cbn [insert_desc]; [reflexivity|].
  destruct (_ <=? _)%nat; [reflexivity|].
  etransitivity; [apply perm_swap|]. apply perm_skip, IH.
Qed.

Lemma insert_desc_sorted x l :
  StronglySorted not_below l -> StronglySorted not_below (insert_desc x l).
Proof.
  induction 1 as [|y rest Hs IH Hall]; cbn [insert_desc].
  - constructor; constructor.
  - destruct (Nat.leb_spec (risk_priority (level_of_entry y))
                (risk_priority (level_of_entry x))) as [Hle|Hlt].
    + constructor; [constructor; assumption|].
      constructor; [exact Hle|].
      eapply Forall_impl; [|exact Hall].
      unfold not_below. intros z Hz. lia.
    + constructor; [exact IH|].
      eapply Permutation_Forall; [apply insert_desc_perm|].
      constructor; [unfold not_below; lia | exact Hall].
Qed.

(** Entries of one level keep their order: the sort is stable. *)
Lemma insert_desc_stable level x l :
  filter (has_level level) (insert_desc x l)
  = filter (has_level level) (x :: l).
Proof.
  induction l as [|y rest IH]; cbn [insert_desc]; [reflexivity|].
  destruct (Nat.leb_spec (risk_priority (level_of_entry y))
              (risk_priority (level_of_entry x))) as [Hle|Hlt];
    [reflexivity|].
  cbn [filter] in *. rewrite IH. unfold has_level.
  destruct (level_of_entry x), (level_of_entry y), level;
    cbn in *; try reflexivity; lia.
Qed.

Lemma sort_risky_returns l sorted :
  sort_risky l = inr sorted ->
  Permutation l sorted
  /\ StronglySorted not_below sorted
  /\ forall level,
       filter (has_level level) sorted = filter (has_level level) l.
Proof.
  unfold sort_risky. destruct (forallb _ l); [|discriminate].
  intros H. injection H as <-.
  induction l as [|x l (Hp & Hs & Hst)]; cbn [fold_right].
  - repeat split; constructor.
  - split; [|split].
    + etransitivity; [apply perm_skip, Hp | apply insert_desc_perm].
    + apply insert_desc_sorted, Hs.
    + intros level. rewrite insert_desc_stable. cbn [filter].
      now rewrite Hst.
Qed.

Lemma sort_risky_raises l :
  sort_risky l = inl LevelKeyError
  <-> exists x, In x l /\ level_of_entry x = INFO.
Proof.
  unfold sort_risky.
  destruct (forallb _ l) eqn:Hall.
  - split; [discriminate|]. intros (x & Hin & Hx).
    rewrite forallb_forall in Hall. specialize (Hall x Hin).
    rewrite Hx in Hall. discriminate.
  - split; [|reflexivity]. intros _.
    induction l as [|x l IH]; [discriminate|].
    cbn [forallb] in Hall. apply andb_false_iff in Hall.
    destruct Hall as [Hx|Hl].
    + exists x. split; [left; reflexivity|].
      destruct (level_of_entry x); cbn in Hx; try discriminate; reflexivity.
    + destruct (IH Hl) as (y & Hin & Hy). exists y. split; [right|]; assumption.
Qed.

Lemma sort_risky_total l :
  (exists sorted, sort_risky l = inr sorted)
  \/ sort_risky l = inl LevelKeyError.
Proof.
  unfold sort_risky. destruct (forallb _ l); [left; eexists|right]; reflexivity.
Qed.

Lemma risky_skills_In results x :
  In x (risky_skills results)
  <-> exists r,
        In r results
        /\ ScanResult.is_safe r = false
        /\ ScanResult.skill_name r <> "365skill"
        /\ x = (ScanResult.skill_name r,
                run_highest (ScanResult.findings r),
                List.length (ScanResult.findings r)).
Proof.
  unfold risky_skills. rewrite in_map_iff. split.
  - intros (r & <- & Hin). apply filter_In in Hin. destruct Hin as [Hin Hf].
    apply andb_true_iff in Hf. destruct Hf as [Hs Hn].
    exists r. split; [exact Hin|]. split.
    + now destruct (ScanResult.is_safe r).
    + split; [|reflexivity].
      destruct (String.eqb_spec (ScanResult.skill_name r) "365skill");
        [discriminate | assumption].
  - intros (r & Hin & Hs & Hn & ->). exists r. split; [reflexivity|].
    apply filter_In. split; [exact Hin|]. rewrite Hs.
    apply String.eqb_neq in Hn. now rewrite Hn.
Qed.

(** X18. The sort of [risky_skills] in [run]: it raises [KeyError]
    exactly when a result that is not safe, other than the tool's own
    package, is ranked INFO (its findings are none, or all INFO);
    otherwise the list it leaves holds the same entries, none ranked
    below a later one, and the entries of each level are in the order of
    [self.scanner.results]. *)
Theorem run_sorts_risky_skills_stably :
  forall results,
    (sort_risky (risky_skills results) = inl LevelKeyError
     <-> exists r, In r results /\ ranked_info r)
    /\ ((exists sorted, sort_risky (risky_skills results) = inr sorted)
        \/ sort_risky (risky_skills results) = inl LevelKeyError)
    /\ forall sorted,
         sort_risky (risky_skills results) = inr sorted ->
         Permutation (risky_skills results) sorted
         /\ StronglySorted not_below sorted
         /\ forall level,
              filter (has_level level) sorted
              = filter (has_level level) (risky_skills results).
Proof.
  intros results. split; [|split].
  - rewrite sort_risky_raises. split.
    + intros (x & Hin & Hx). apply risky_skills_In in Hin.
      destruct Hin as (r & Hin & Hs & Hn & ->).
      exists r. split; [exact Hin|]. repeat split; assumption.
    + intros (r & Hin & Hs & Hn & Hi).
      exists (ScanResult.skill_name r, run_highest (ScanResult.findings r),
              List.length (ScanResult.findings r)).
      split; [|exact Hi]. apply risky_skills_In. exists r. repeat split; assumption.
  - apply sort_risky_total.
  - intros sorted. apply sort_risky_returns.
Qed.

(** X18, sample: three risky skills, the first LOW, the others CRITICAL,
    come out with the two CRITICAL ones first, in their order. *)
Lemma run_sorts_risky_skills_witness :
  let results :=
    [ScanResult.mk "c" false [finding_low] 1 1;
     ScanResult.mk "a" false [finding_run_py] 1 1;
     ScanResult.mk "safe" true [] 1 0;
     ScanResult.mk "b" false [finding_low; finding_run_py] 1 1] in
  sort_risky (risky_skills results)
  = inr [("a", CRITICAL, 1); ("b", CRITICAL, 2); ("c", LOW, 1)]
  /\ Permutation (risky_skills results)
       [("a", CRITICAL, 1); ("b", CRITICAL, 2); ("c", LOW, 1)].
Proof.
  cbv zeta. split; [vm_compute; reflexivity|].
  apply (proj2 (proj2 (run_sorts_risky_skills_stably _))).
  vm_compute. reflexivity.
Defined.

(* ================================================================== *)
(** * The interactive scanner: the details of a skill *)

Lemma group_by_level_returns findings : forall bl,
  (forall f, In f findings -> RiskFinding.risk_level f <> INFO) ->
  group_by_level findings bl
  = Some (mkByLevel
            (bl_critical bl ++ filter (at_level CRITICAL) findings)
            (bl_high bl ++ filter (at_level HIGH) findings)
            (bl_medium bl ++ filter (at_level MEDIUM) findings)
            (bl_low bl ++ filter (at_level LOW) findings)).
Proof.
  induction findings as [|f rest IH]; intros bl Hno;
    cbn [group_by_level filter].
  - rewrite !app_nil_r. destruct bl; reflexivity.
  - pose proof (Hno f (or_introl eq_refl)) as Hf.
    unfold by_level_append, at_level in *.
    destruct (RiskFinding.risk_level f) eqn:Hl; try congruence;
      rewrite IH by (intros; apply Hno; right; assumption);
      cbn; rewrite <- ?app_assoc; reflexivity.
Qed.

Lemma group_by_level_raises findings : forall bl,
  (exists f, In f findings /\ RiskFinding.risk_level f = INFO) ->
  group_by_level findings bl = None.
Proof.
  induction findings as [|f rest IH]; intros bl (f0 & Hin & Hl).
  - destruct Hin.
  - cbn [group_by_level]. unfold by_level_append.
    destruct Hin as [->|Hin]; [now rewrite Hl|].
    destruct (RiskFinding.risk_level f); try reflexivity;
      apply IH; exists f0; split; assumption.
Qed.

Lemma info_or_not findings :
  (forall f, In f findings -> RiskFinding.risk_level f <> INFO)
  \/ exists f, In f findings /\ RiskFinding.risk_level f = INFO.
Proof.
  induction findings as [|f rest [IH|(f0 & Hin & Hl)]].
  - left. intros f [].
  - destruct (RiskFinding.risk_level f) eqn:Hl;
      try (left; intros f' [<-|Hin]; [congruence | apply IH, Hin]).
    right. exists f. split; [left; reflexivity | exact Hl].
  - right. exists f0. split; [right|]; assumption.
Qed.

Lemma shown_findings_app a b :
  shown_findings (a ++ b) = shown_findings a ++ shown_findings b.
Proof. apply flat_map_app. Qed.

Lemma shown_findings_level_lines level findings :
  shown_findings (level_lines level findings) = findings.
Proof.
  assert (H : forall l, shown_findings (map RDetail l) = l).
  { induction l as [|f l IH]; [reflexivity|].
    unfold shown_findings in *. cbn [map flat_map app]. now rewrite IH. }
  destruct findings as [|f rest]; [reflexivity|].
  unfold level_lines. change (shown_findings (RDetailsLevel level
    (List.length (f :: rest)) :: map RDetail (f :: rest)))
    with (shown_findings (map RDetail (f :: rest))).
  apply H.
Qed.

Lemma levels_partition findings :
  (forall f, In f findings -> RiskFinding.risk_level f <> INFO) ->
  Permutation
    (filter (at_level CRITICAL) findings ++ filter (at_level HIGH) findings
     ++ filter (at_level MEDIUM) findings ++ filter (at_level LOW) findings)
    findings.
Proof.
  induction findings as [|f rest IH]; intros Hno; [constructor|].
  pose proof (Hno f (or_introl eq_refl)) as Hf.
  assert (IH' := IH (fun f' H => Hno f' (or_intror H))). clear IH.
  assert (Hat : forall level,
            at_level level f = RiskLevel_eqb (RiskFinding.risk_level f) level)
    by reflexivity.
  cbn [filter]. rewrite !Hat. clear Hat.
  destruct (RiskFinding.risk_level f) eqn:Hl; try congruence;
    cbn [RiskLevel_eqb].
  - cbn [app]. apply perm_skip, IH'.
  - etransitivity; [symmetry; apply Permutation_middle|].
    apply perm_skip, IH'.
  - rewrite app_assoc.
    etransitivity; [symmetry; apply Permutation_middle|].
    rewrite <- app_assoc. apply perm_skip, IH'.
  - rewrite !app_assoc.
    etransitivity; [symmetry; apply Permutation_middle|].
    rewrite <- !app_assoc. apply perm_skip, IH'.
Qed.

Lemma shown_findings_details_of skill_name r :
  shown_findings (details_of skill_name r)
  = filter (at_level CRITICAL) (ScanResult.findings r)
    ++ filter (at_level HIGH) (ScanResult.findings r)
    ++ filter (at_level MEDIUM) (ScanResult.findings r)
    ++ filter (at_level LOW) (ScanResult.findings r).
Proof.
  unfold details_of. cbn [flat_map].
  change (shown_findings (RDetailsHeader skill_name :: ?l))
    with (shown_findings l).
  rewrite !shown_findings_app, !shown_findings_level_lines.
  cbn [shown_findings flat_map]. now rewrite app_nil_r.
Qed.

Lemma print_finding_details_returns results skill_name :
  (forall r, In r results -> detailed skill_name r = true ->
     forall f, In f (ScanResult.findings r) ->
       RiskFinding.risk_level f <> INFO) ->
  print_finding_details results skill_name
  = (flat_map (details_of skill_name) (filter (detailed skill_name) results),
     None).
Proof.
  induction results as [|r rest IH]; intros Hno; [reflexivity|].
  cbn [print_finding_details filter].
  change (String.eqb (ScanResult.skill_name r) skill_name
          && negb (ScanResult.is_safe r))
    with (detailed skill_name r).
  rewrite IH by (intros r' Hin; apply Hno; right; exact Hin).
  destruct (detailed skill_name r) eqn:Hd; [|reflexivity].
  rewrite group_by_level_returns
    by (apply Hno; [left; reflexivity | exact Hd]).
  cbn [bl_critical bl_high bl_medium bl_low app flat_map].
  unfold details_of. cbn [flat_map app]. rewrite app_nil_r.
  rewrite <- !app_assoc. reflexivity.
Qed.

Lemma print_finding_details_raises results skill_name :
  (exists r f, In r results /\ detailed skill_name r = true
               /\ In f (ScanResult.findings r)
               /\ RiskFinding.risk_level f = INFO) ->
  snd (print_finding_details results skill_name) = Some LevelKeyError.
Proof.
  induction results as [|r rest IH]; intros (r0 & f & Hin & Hd & Hf & Hl).
  - destruct Hin.
  - cbn [print_finding_details].
    change (String.eqb (ScanResult.skill_name r) skill_name
            && negb (ScanResult.is_safe r))
      with (detailed skill_name r).
    destruct Hin as [->|Hin].
    + rewrite Hd. rewrite group_by_level_raises; [reflexivity|].
      exists f. split; assumption.
    + assert (Hrest : snd (print_finding_details rest skill_name)
                      = Some LevelKeyError)
        by (apply IH; exists r0, f; repeat split; assumption).
      destruct (detailed skill_name r); [|exact Hrest].
      destruct (group_by_level _ _); [|reflexivity].
      destruct (print_finding_details rest skill_name). exact Hrest.
Qed.

Lemma details_info_or_not results skill_name :
  (forall r, In r results -> detailed skill_name r = true ->
     forall f, In f (ScanResult.findings r) ->
       RiskFinding.risk_level f <> INFO)
  \/ exists r f, In r results /\ detailed skill_name r = true
                 /\ In f (ScanResult.findings r)
                 /\ RiskFinding.risk_level f = INFO.
Proof.
  induction results as [|r rest [IH|(r0 & f & Hin & H)]].
  - left. intros r [].
  - destruct (detailed skill_name r) eqn:Hd.
    + destruct (info_or_not (ScanResult.findings r)) as [Hno|(f & Hf & Hl)].
      * left. intros r' [<-|Hin] Hd'; [exact Hno | apply IH; assumption].
      * right. exists r, f. repeat split; try assumption. left; reflexivity.
    + left. intros r' [<-|Hin] Hd'; [congruence | apply IH; assumption].
  - right. exists r0, f. split; [right|]; assumption.
Qed.

(** X19. [print_finding_details] raises [KeyError] exactly when a
    result of the name that is not safe has a finding of level INFO, for
    which [by_level] has no key. Otherwise it prints, for each such
    result in order, the header and then the findings level by level from
    CRITICAL to LOW, those of one level in their order and a level
    without findings left out: every finding of these results is shown
    exactly once. *)
Theorem print_finding_details_groups_by_level :
  forall results skill_name,
    (snd (print_finding_details results skill_name) = Some LevelKeyError
     <-> exists r f, In r results /\ detailed skill_name r = true
                     /\ In f (ScanResult.findings r)
                     /\ RiskFinding.risk_level f = INFO)
    /\ (snd (print_finding_details results skill_name) <> Some LevelKeyError ->
        print_finding_details results skill_name
        = (flat_map (details_of skill_name)
             (filter (detailed skill_name) results), None)
        /\ Permutation
             (shown_findings (fst (print_finding_details results skill_name)))
             (flat_map ScanResult.findings
                (filter (detailed skill_name) results))).
Proof.
  intros results skill_name.
  destruct (details_info_or_not results skill_name) as [Hno|Hex].
  - pose proof (print_finding_details_returns results skill_name Hno) as Hrun.
    split.
    + split; [rewrite Hrun; discriminate|].
      intros (r & f & Hin & Hd & Hf & Hl). exfalso.
      exact (Hno r Hin Hd f Hf Hl).
    + intros _. split; [exact Hrun|]. rewrite Hrun. cbn [fst].
      clear Hrun.
      assert (Hno' : forall r, In r (filter (detailed skill_name) results) ->
                forall f, In f (ScanResult.findings r) ->
                  RiskFinding.risk_level f <> INFO).
      { intros r Hin. apply filter_In in Hin. destruct Hin as [Hin Hd].
        apply Hno; assumption. }
      induction (filter (detailed skill_name) results) as [|r rs IH];
        [constructor|].
      cbn [flat_map]. rewrite shown_findings_app.
      apply Permutation_app.
      * rewrite shown_findings_details_of. apply levels_partition.
        apply Hno'. left; reflexivity.
      * apply IH. intros r' Hin. apply Hno'. right; exact Hin.
  - pose proof (print_finding_details_raises results skill_name Hex) as Hr.
    split; [split; [intros _; exact Hex | intros _; exact Hr]|].
    intros Hne. contradiction.
Qed.

(** X19, sample: the details of the result with a LOW and then a MEDIUM
    finding show the MEDIUM one first. *)
Lemma print_finding_details_witness :
  print_finding_details [result_mixed] "mixed"
  = ([RDetailsHeader "mixed";
      RDetailsLevel MEDIUM 1; RDetail finding_medium;
      RDetailsLevel LOW 1; RDetail finding_low], None)
  /\ Permutation
       (shown_findings (fst (print_finding_details [result_mixed] "mixed")))
       [finding_low; finding_medium].
Proof.
  assert (Hne : snd (print_finding_details [result_mixed] "mixed")
                <> Some LevelKeyError) by (vm_compute; discriminate).
  destruct (proj2 (print_finding_details_groups_by_level
                     [result_mixed] "mixed") Hne) as [Hrun Hperm].
  split; [rewrite Hrun; vm_compute; reflexivity | exact Hperm].
Defined.

(* ================================================================== *)
(** * The interactive scanner: the dialogue *)

Lemma quiet_app a b : quiet (a ++ b) <-> quiet a /\ quiet b.
Proof. apply Forall_app. Qed.

Lemma quiet_deleted_names lines : quiet lines -> deleted_names lines = [].
Proof.
  induction 1 as [|l lines Hl _ IH]; [reflexivity|].
  unfold deleted_names in *. cbn [flat_map]. rewrite IH.
  destruct l; try reflexivity; discriminate.
Qed.

Lemma deleted_names_app a b :
  deleted_names (a ++ b) = deleted_names a ++ deleted_names b.
Proof. apply flat_map_app. Qed.

Lemma level_lines_quiet level findings : quiet (level_lines level findings).
Proof.
  destruct findings as [|f rest]; [constructor|].
  unfold level_lines. constructor; [reflexivity|].
  apply Forall_forall. intros l Hin. apply in_map_iff in Hin.
  destruct Hin as (x & <- & _). reflexivity.
Qed.

Lemma print_finding_details_quiet results skill_name :
  quiet (fst (print_finding_details results skill_name)).
Proof.
  induction results as [|r rest IH]; [constructor|].
  cbn [print_finding_details].
  destruct (_ && _); [|exact IH].
  destruct (group_by_level _ _) as [bl|].
  - destruct (print_finding_details rest skill_name) as [more raised].
    cbn [fst] in *. constructor; [reflexivity|].
    repeat (apply quiet_app; split; [apply level_lines_quiet|]). exact IH.
  - constructor; [reflexivity | constructor].
Qed.

Lemma first_risks_quiet results name : quiet (first_risks results name).
Proof.
  induction results as [|r rest IH]; [constructor|].
  cbn [first_risks]. destruct (String.eqb _ _); [|exact IH].
  apply quiet_app. split.
  - apply Forall_forall. intros l Hin. apply in_map_iff in Hin.
    destruct Hin as (x & <- & _). reflexivity.
  - destruct (_ <? _)%nat; repeat constructor.
Qed.

Lemma summary_lines_quiet risky : quiet (summary_lines risky).
Proof.
  unfold summary_lines. apply Forall_forall. intros l Hin.
  apply in_map_iff in Hin. destruct Hin as ([i [[name level] count]] & <- & _).
  reflexivity.
Qed.

Lemma final_report_quiet risky deleted : quiet (final_report risky deleted).
Proof.
  unfold final_report. constructor; [reflexivity|].
  apply quiet_app. split.
  - destruct deleted as [|d ds]; [repeat constructor|].
    constructor; [reflexivity|].
    apply Forall_forall. intros l Hin. apply in_map_iff in Hin.
    destruct Hin as (x & <- & _). reflexivity.
  - destruct (_ <? _)%nat; repeat constructor.
Qed.

Lemma lines_of_say {A} before (s : Step A) :
  lines_of (say before s) = before ++ lines_of s.
Proof. destruct s; reflexivity. Qed.

Section Dialogue.

Variable normalize : text -> string.
Variable rmtree : Node -> Path -> Node * bool.
Variable results_ : list ScanResult.t.
Variable skills_dir_ : Path.

Lemma confirm_loop_done skill_name inputs : forall b rest lines,
  confirm_loop normalize results_ skill_name inputs = Done b rest lines ->
  exists before answer,
    inputs = before ++ answer :: rest
    /\ Forall (undecided normalize) before
    /\ normalize answer = (if b then "y" else "n").
Proof.
  induction inputs as [|typed more IH]; intros b rest lines Hrun;
    cbn [confirm_loop] in Hrun; [discriminate|].
  destruct (String.eqb_spec (normalize typed) "y") as [Hy|Hy].
  { injection Hrun as <- <- _. exists [], typed. repeat split; auto. }
  destruct (String.eqb_spec (normalize typed) "n") as [Hn|Hn].
  { injection Hrun as <- <- _. exists [], typed. repeat split; auto. }
  assert (Hrec : exists lines',
             confirm_loop normalize results_ skill_name more
             = Done b rest lines').
  { destruct (String.eqb (normalize typed) "v").
    - destruct (print_finding_details results_ skill_name) as [l [e|]];
        [discriminate|].
      destruct (confirm_loop normalize results_ skill_name more);
        cbn [say] in Hrun; [|discriminate].
      injection Hrun as <- <- _. eexists; reflexivity.
    - destruct (confirm_loop normalize results_ skill_name more);
        cbn [say] in Hrun; [|discriminate].
      injection Hrun as <- <- _. eexists; reflexivity. }
  destruct Hrec as (lines' & Hrec).
  destruct (IH _ _ _ Hrec) as (before & answer & -> & Hbefore & Hanswer).
  exists (typed :: before), answer. split; [reflexivity|].
  split; [|exact Hanswer]. constructor; [split; assumption | exact Hbefore].
Qed.

Lemma confirm_loop_undecided skill_name inputs :
  Forall (undecided normalize) inputs ->
  exists e lines,
    confirm_loop normalize results_ skill_name inputs = Stop e lines.
Proof.
  induction 1 as [|typed more [Hy Hn] _ (e & lines & IH)];
    cbn [confirm_loop]; [eexists _, _; reflexivity|].
  apply String.eqb_neq in Hy, Hn. rewrite Hy, Hn, IH.
  destruct (String.eqb (normalize typed) "v").
  - destruct (print_finding_details results_ skill_name) as [l [e'|]];
      eexists _, _; reflexivity.
  - eexists _, _; reflexivity.
Qed.

Lemma confirm_loop_reaches skill_name before answer rest :
  snd (print_finding_details results_ skill_name) = None ->
  Forall (undecided normalize) before ->
  ~ undecided normalize answer ->
  exists lines,
    confirm_loop normalize results_ skill_name (before ++ answer :: rest)
    = Done (String.eqb (normalize answer) "y") rest lines.
Proof.
  intros Hpfd Hbefore Hanswer.
  induction Hbefore as [|typed more [Hy Hn] _ (lines & IH)];
    cbn [app confirm_loop].
  - destruct (String.eqb_spec (normalize answer) "y") as [Hy|Hy];
      [eexists; reflexivity|].
    destruct (String.eqb_spec (normalize answer) "n") as [Hn|Hn];
      [eexists; reflexivity|].
    exfalso. apply Hanswer. split; assumption.
  - apply String.eqb_neq in Hy, Hn. rewrite Hy, Hn, IH.
    destruct (String.eqb (normalize typed) "v").
    + destruct (print_finding_details results_ skill_name) as [l raised].
      cbn [snd] in Hpfd. subst raised. eexists; reflexivity.
    + eexists; reflexivity.
Qed.

Lemma confirm_loop_quiet skill_name inputs :
  quiet (lines_of (confirm_loop normalize results_ skill_name inputs)).
Proof.
  induction inputs as [|typed more IH]; cbn [confirm_loop]; [constructor|].
  destruct (String.eqb _ "y"); [constructor|].
  destruct (String.eqb _ "n"); [constructor|].
  destruct (String.eqb _ "v").
  - pose proof (print_finding_details_quiet results_ skill_name) as Hq.
    destruct (print_finding_details results_ skill_name) as [l [e|]];
      cbn [fst] in Hq; [exact Hq|].
    rewrite lines_of_say. apply quiet_app. split; assumption.
  - rewrite lines_of_say. apply quiet_app. split; [|exact IH].
    constructor; [reflexivity | constructor].
Qed.

Lemma confirm_deletion_quiet skill_name inputs :
  quiet (lines_of (confirm_deletion normalize results_ skill_name inputs)).
Proof.
  unfold confirm_deletion. rewrite lines_of_say. apply quiet_app.
  split; [constructor; [reflexivity | constructor]|].
  apply confirm_loop_quiet.
Qed.

Lemma confirm_deletion_done skill_name inputs b rest lines :
  confirm_deletion normalize results_ skill_name inputs = Done b rest lines ->
  exists before answer,
    inputs = before ++ answer :: rest
    /\ Forall (undecided normalize) before
    /\ normalize answer = (if b then "y" else "n").
Proof.
  unfold confirm_deletion. intros Hrun.
  destruct (confirm_loop normalize results_ skill_name inputs) eqn:Hloop;
    cbn [say] in Hrun; [|discriminate].
  injection Hrun as <- <- _. eapply confirm_loop_done, Hloop.
Qed.

End Dialogue.

(** X20. [confirm_deletion] is decided by the first answer that is y or
    n once stripped and lowered: it returns True for y and False for n,
    with the answers after it left to read, and every answer before it
    was neither. When no answer is y or n it does not return: it ends
    with an exception, as the input ends. When showing the details raises
    nothing, such a first answer always decides it, whatever was typed
    before. *)
Theorem confirm_deletion_first_yes_or_no :
  forall normalize results skill_name inputs,
    (forall b rest lines,
       confirm_deletion normalize results skill_name inputs
       = Done b rest lines ->
       exists before answer,
         inputs = before ++ answer :: rest
         /\ Forall (undecided normalize) before
         /\ normalize answer = (if b then "y" else "n"))
    /\ (Forall (undecided normalize) inputs ->
        exists e lines,
          confirm_deletion normalize results skill_name inputs
          = Stop e lines)
    /\ (snd (print_finding_details results skill_name) = None ->
        forall before answer rest,
          inputs = before ++ answer :: rest ->
          Forall (undecided normalize) before ->
          ~ undecided normalize answer ->
          exists lines,
            confirm_deletion normalize results skill_name inputs
            = Done (String.eqb (normalize answer) "y") rest lines).
Proof.
  intros normalize results skill_name inputs. split; [|split].
  - intros b rest lines. apply confirm_deletion_done.
  - intros Hall.
    destruct (confirm_loop_undecided results skill_name Hall)
      as (e & lines & Hloop).
    unfold confirm_deletion. rewrite Hloop. eexists _, _; reflexivity.
  - intros Hpfd before answer rest -> Hbefore Hanswer.
    destruct (@confirm_loop_reaches normalize results skill_name before
                answer rest Hpfd Hbefore Hanswer) as (lines & Hloop).
    unfold confirm_deletion. rewrite Hloop. eexists; reflexivity.
Qed.

(** X20, sample: after a request for the details and an invalid answer,
    [ Y ] confirms, and the answer after it is left to read. *)
Lemma confirm_deletion_witness :
  let inputs := [text_of_string "v"; text_of_string "maybe";
                 text_of_string " Y "; text_of_string "s"] in
  exists lines,
    confirm_deletion ascii_normalize [result_mixed] "mixed" inputs
    = Done true [text_of_string "s"] lines.
Proof.
  cbv zeta.
  destruct (proj2 (proj2 (confirm_deletion_first_yes_or_no ascii_normalize
                            [result_mixed] "mixed"
                            [text_of_string "v"; text_of_string "maybe";
                             text_of_string " Y "; text_of_string "s"]))
              eq_refl
              [text_of_string "v"; text_of_string "maybe"]
              (text_of_string " Y ") [text_of_string "s"] eq_refl)
    as (lines & Hrun).
  - repeat constructor; vm_compute; discriminate.
  - intros [Hy _]. apply Hy. vm_compute. reflexivity.
  - exists lines. exact Hrun.
Defined.

Lemma never_suffix normalize answer used rest :
  never normalize answer (used ++ rest) -> never normalize answer rest.
Proof. unfold never. rewrite Forall_app. tauto. Qed.

Lemma never_In normalize answer used rest :
  never normalize answer (used ++ rest) ->
  In answer (map normalize used) -> False.
Proof.
  unfold never. rewrite Forall_app. intros [Hused _] Hin.
  apply in_map_iff in Hin. destruct Hin as (x & Hx & Hin).
  rewrite Forall_forall in Hused. exact (Hused x Hin Hx).
Qed.

Lemma removed_app rmtree skills_dir_ tree a b :
  removed rmtree skills_dir_ tree (a ++ b)
  = removed rmtree skills_dir_ (removed rmtree skills_dir_ tree a) b.
Proof. apply fold_left_app. Qed.

Lemma quiet_attempted_names lines : quiet lines -> attempted_names lines = [].
Proof.
  induction 1 as [|l lines Hl _ IH]; [reflexivity|].
  unfold attempted_names in *. cbn [flat_map]. rewrite IH.
  destruct l; try reflexivity; discriminate.
Qed.

Lemma attempted_names_app a b :
  attempted_names (a ++ b) = attempted_names a ++ attempted_names b.
Proof. apply flat_map_app. Qed.

(** The names reported as deleted are among those [delete_skill] was
    called for. *)
Lemma deleted_names_attempted lines :
  incl (deleted_names lines) (attempted_names lines)
  /\ List.length (deleted_names lines) <= List.length (attempted_names lines).
Proof.
  induction lines as [|l lines [IHi IHl]].
  - split; [intros x [] | apply Nat.le_refl].
  - change (l :: lines) with ([l] ++ lines).
    rewrite deleted_names_app, attempted_names_app, !length_app.
    split.
    + apply incl_app; [|apply incl_appr, IHi].
      apply incl_appl. destruct l; cbn; intros x Hx; (exact Hx || destruct Hx).
    + destruct l; cbn; lia.
Qed.

(** Lines put together from quiet parts are quiet. *)
Ltac solve_quiet :=
  repeat first
    [ assumption
    | apply first_risks_quiet
    | apply summary_lines_quiet
    | apply final_report_quiet
    | apply Forall_nil
    | apply Forall_cons; [reflexivity|]
    | apply Forall_app; split ].

Section Remediation.

Variable normalize : text -> string.
Variable rmtree : Node -> Path -> Node * bool.
Variable results_ : list ScanResult.t.
Variable skills_dir_ : Path.

Lemma choice_again name tree typed more before tree' s :
  quiet before ->
  choice_outcome normalize rmtree skills_dir_ name tree more tree' s ->
  choice_outcome normalize rmtree skills_dir_ name tree (typed :: more) tree'
    (say before s).
Proof.
  intros Hq [(Ht & Hqs & Hdone)
            |(used & rest & lines & -> & Hd & Hy & -> & Ht & Hatt & Hnames)].
  - left. split; [exact Ht|]. split.
    + rewrite lines_of_say. apply quiet_app. split; assumption.
    + intros v rest lines Hs. destruct s; cbn [say] in Hs; [|discriminate].
      injection Hs as <- <- _.
      destruct (Hdone _ _ _ eq_refl) as [Hne (used & ->)].
      split; [exact Hne | exists (typed :: used); reflexivity].
  - right. exists (typed :: used), rest, (before ++ lines).
    split; [reflexivity|]. split; [right; exact Hd|].
    split; [right; exact Hy|]. split; [reflexivity|].
    rewrite deleted_names_app, attempted_names_app,
      (quiet_deleted_names Hq), (quiet_attempted_names Hq). cbn [app].
    repeat split; assumption.
Qed.

Lemma choice_loop_outcome name tree inputs : forall tree' s,
  choice_loop normalize rmtree results_ skills_dir_ name tree inputs
  = (tree', s) ->
  choice_outcome normalize rmtree skills_dir_ name tree inputs tree' s.
Proof.
  induction inputs as [|typed more IH]; intros tree' s Hrun;
    cbn [choice_loop] in Hrun.
  { injection Hrun as <- <-. left. split; [reflexivity|].
    split; [repeat constructor|]. intros; discriminate. }
  destruct (String.eqb_spec (normalize typed) "v") as [Hv|Hv].
  { pose proof (print_finding_details_quiet results_ name) as Hq.
    destruct (print_finding_details results_ name) as [l [e|]];
      cbn [fst] in Hq.
    - injection Hrun as <- <-. left. split; [reflexivity|].
      split; [constructor; [reflexivity | exact Hq]|]. intros; discriminate.
    - destruct (choice_loop normalize rmtree results_ skills_dir_ name tree
                  more) as [t1 s1] eqn:Hrec.
      injection Hrun as <- <-. apply choice_again; [|apply IH; reflexivity].
      constructor; [reflexivity | exact Hq]. }
  destruct (String.eqb_spec (normalize typed) "d") as [Hd|Hd].
  { pose proof (confirm_deletion_quiet normalize results_ name more) as Hq.
    destruct (confirm_deletion normalize results_ name more)
      as [b rest' lines|e lines] eqn:Hc; cbn [lines_of] in Hq.
    - destruct (confirm_deletion_done _ _ _ _ Hc)
        as (before & answer & Hmore & _ & Hans).
      destruct b.
      + unfold delete_skill in Hrun. right.
        exists (typed :: before ++ [answer]), rest'.
        destruct (rmtree tree (path_div skills_dir_ name)) as [t ok] eqn:Hrm.
        cbn [fst snd].
        destruct ok; injection Hrun as <- <-; eexists;
          (split; [rewrite Hmore; cbn [app]; rewrite <- app_assoc; reflexivity|]);
          (split; [left; exact Hd|]);
          (split; [right; rewrite map_app; apply in_or_app; right; left;
                   exact Hans|]);
          (split; [reflexivity|]);
          (split; [reflexivity|]);
          match goal with
          | |- context [deleted_names (RMenu :: ?l ++ ?said)] =>
              change (RMenu :: l ++ said) with ([RMenu] ++ l ++ said)
          end;
          rewrite !deleted_names_app, !attempted_names_app,
            (quiet_deleted_names Hq), (quiet_attempted_names Hq);
          split; reflexivity.
      + injection Hrun as <- <-. left. split; [reflexivity|].
        split; [constructor; [reflexivity | exact Hq]|].
        intros v rest lines' Hs. injection Hs as <- <- _.
        split; [discriminate|]. exists (typed :: before ++ [answer]).
        rewrite Hmore. cbn [app]. rewrite <- app_assoc. reflexivity.
    - injection Hrun as <- <-. left. split; [reflexivity|].
      split; [constructor; [reflexivity | exact Hq]|]. intros; discriminate. }
  destruct (String.eqb (normalize typed) "s").
  { injection Hrun as <- <-. left. split; [reflexivity|].
    split; [repeat constructor|].
    intros v rest lines Hs. injection Hs as <- <- _.
    split; [discriminate | exists [typed]; reflexivity]. }
  destruct (String.eqb (normalize typed) "q").
  { injection Hrun as <- <-. left. split; [reflexivity|].
    split; [repeat constructor|].
    intros v rest lines Hs. injection Hs as <- <- _.
    split; [discriminate | exists [typed]; reflexivity]. }
  destruct (choice_loop normalize rmtree results_ skills_dir_ name tree more)
    as [t1 s1] eqn:Hrec.
  injection Hrun as <- <-. apply choice_again; [|apply IH; reflexivity].
  repeat constructor.
Qed.

Lemma skills_loop_outcome risky : forall tree acc inputs tree' s,
  skills_loop normalize rmtree results_ skills_dir_ risky tree acc inputs
  = (tree', s) ->
  tree' = removed rmtree skills_dir_ tree (attempted_names (lines_of s))
  /\ incl (attempted_names (lines_of s)) (map name_of_entry risky)
  /\ List.length (attempted_names (lines_of s)) <= List.length risky
  /\ (forall q deleted rest lines,
        s = Done (q, deleted) rest lines ->
        deleted = acc ++ deleted_names (lines_of s)
        /\ exists used, inputs = used ++ rest)
  /\ (never normalize "y" inputs \/ never normalize "d" inputs ->
      quiet (lines_of s)).
Proof.
  induction risky as [|[[name level] count] more IH];
    intros tree acc inputs tree' s Hrun; cbn [skills_loop] in Hrun.
  { injection Hrun as <- <-.
    cbn [lines_of deleted_names attempted_names flat_map removed
         fold_left List.length map].
    split; [reflexivity|]. split; [intros x []|]. split; [apply Nat.le_refl|].
    split; [|intros _; constructor].
    intros q deleted rest lines Hs. injection Hs as _ <- <- _.
    split; [now rewrite app_nil_r | exists []; reflexivity]. }
  destruct (choice_loop normalize rmtree results_ skills_dir_ name tree inputs)
    as [t1 s1] eqn:Hc.
  pose proof (choice_loop_outcome _ _ _ Hc) as Hspec.
  assert (Hshown : quiet (RProcessing name level count
                          :: first_risks results_ name))
    by (constructor; [reflexivity | apply first_risks_quiet]).
  assert (Hunsafe : forall used rest,
            inputs = used ++ rest ->
            In "d" (map normalize used) -> In "y" (map normalize used) ->
            never normalize "y" inputs \/ never normalize "d" inputs ->
            False).
  { intros used rest -> Hd Hy [Hn|Hn]; eapply never_In; eauto. }
  cbn [map List.length].
  destruct s1 as [[ok|] rest lines | e lines].
  - destruct (skills_loop normalize rmtree results_ skills_dir_ more t1
                (if ok then acc ++ [name] else acc) rest)
      as [t2 s2] eqn:Hrec.
    injection Hrun as <- <-.
    destruct (IH _ _ _ _ _ Hrec) as (Ht & Hincl & Hlen & Hdone & Hsafe).
    change (RProcessing name level count :: first_risks results_ name ++ ?m)
      with ((RProcessing name level count :: first_risks results_ name) ++ m).
    rewrite lines_of_say, !deleted_names_app, !attempted_names_app,
      (quiet_deleted_names Hshown), (quiet_attempted_names Hshown).
    cbn [app].
    destruct Hspec as [(Ht1 & Hq1 & Hd1)
                      |(used & rest0 & lines0 & Hin & Hd & Hy & Hs & Ht1
                        & Hatt & Hn)].
    + destruct (Hd1 _ _ _ eq_refl) as [Hne (used & Hused)].
      cbn [lines_of] in Hq1.
      rewrite (quiet_deleted_names Hq1), (quiet_attempted_names Hq1).
      cbn [app].
      assert (Hok : ok = false) by (destruct ok; congruence).
      subst ok t1. split; [exact Ht|].
      split; [apply incl_tl, Hincl|]. split; [lia|]. split.
      * intros q deleted rest' lines' Hs.
        destruct s2 as [[q2 d2] r2 l2|]; cbn [say] in Hs; [|discriminate].
        injection Hs as <- <- <- _.
        destruct (Hdone _ _ _ _ eq_refl) as [Hacc (used2 & Hused2)].
        split; [exact Hacc|]. exists (used ++ used2).
        rewrite Hused, Hused2, app_assoc. reflexivity.
      * intros Hnever. rewrite Hused in Hnever. solve_quiet.
        apply Hsafe.
        destruct Hnever as [Hnv|Hnv]; [left|right];
          eapply never_suffix; exact Hnv.
    + injection Hs as Hok <- <-. cbn [lines_of] in *.
      rewrite Hatt, Hn. cbn [app]. split; [|split; [|split; [|split]]].
      * cbn [removed fold_left]. rewrite <- Ht1. exact Ht.
      * apply incl_cons; [left; reflexivity | apply incl_tl, Hincl].
      * cbn [List.length]. lia.
      * intros q deleted rest' lines' Hs.
        destruct s2 as [[q2 d2] r2 l2|]; cbn [say] in Hs; [|discriminate].
        injection Hs as <- <- <- _.
        destruct (Hdone _ _ _ _ eq_refl) as [Hacc (used2 & Hused2)].
        split.
        -- rewrite Hacc, Hok.
           destruct (snd (rmtree tree (path_div skills_dir_ name)));
             cbn [app]; [now rewrite <- app_assoc | reflexivity].
        -- exists (used ++ used2). rewrite Hin, Hused2, app_assoc.
           reflexivity.
      * intros Hnever. exfalso. eapply Hunsafe; eauto.
  - injection Hrun as <- <-. cbn [lines_of].
    change (RProcessing name level count :: first_risks results_ name ++ ?m)
      with ((RProcessing name level count :: first_risks results_ name) ++ m).
    rewrite !deleted_names_app, !attempted_names_app,
      (quiet_deleted_names Hshown), (quiet_attempted_names Hshown).
    cbn [app].
    destruct Hspec as [(Ht1 & Hq1 & Hd1)
                      |(used & rest0 & lines0 & _ & _ & _ & Hs & _)];
      [|discriminate].
    cbn [lines_of] in Hq1.
    rewrite (quiet_deleted_names Hq1), (quiet_attempted_names Hq1).
    cbn [removed fold_left List.length].
    split; [exact Ht1|]. split; [intros x []|]. split; [lia|]. split.
    + intros q deleted rest' lines' Hs. injection Hs as _ <- <- _.
      split; [now rewrite app_nil_r|].
      destruct (Hd1 _ _ _ eq_refl) as [_ Hused]. exact Hused.
    + intros _. solve_quiet.
  - injection Hrun as <- <-. cbn [lines_of].
    change (RProcessing name level count :: first_risks results_ name ++ ?m)
      with ((RProcessing name level count :: first_risks results_ name) ++ m).
    rewrite !deleted_names_app, !attempted_names_app,
      (quiet_deleted_names Hshown), (quiet_attempted_names Hshown).
    cbn [app].
    destruct Hspec as [(Ht1 & Hq1 & Hd1)
                      |(used & rest0 & lines0 & _ & _ & _ & Hs & _)];
      [|discriminate].
    cbn [lines_of] in Hq1.
    rewrite (quiet_deleted_names Hq1), (quiet_attempted_names Hq1).
    cbn [removed fold_left List.length].
    split; [exact Ht1|]. split; [intros x []|]. split; [lia|]. split.
    + intros; discriminate.
    + intros _. solve_quiet.
Qed.

Lemma remediate_outcome tree inputs tree' s :
  remediate normalize rmtree results_ skills_dir_ tree inputs = (tree', s) ->
  tree' = removed rmtree skills_dir_ tree (attempted_names (lines_of s))
  /\ incl (attempted_names (lines_of s))
       (map name_of_entry (risky_skills results_))
  /\ List.length (attempted_names (lines_of s))
     <= List.length (risky_skills results_)
  /\ (forall deleted rest lines,
        s = Done deleted rest lines ->
        deleted = deleted_names (lines_of s)
        /\ exists used, inputs = used ++ rest)
  /\ (never normalize "y" inputs \/ never normalize "d" inputs ->
      quiet (lines_of s)).
Proof.
  unfold remediate. intros Hrun.
  destruct (sort_risky (risky_skills results_)) as [e|sorted] eqn:Hsort.
  { injection Hrun as <- <-. cbn. split; [reflexivity|].
    split; [intros x []|]. split; [lia|].
    split; [intros; discriminate | intros _; constructor]. }
  apply sort_risky_returns in Hsort. destruct Hsort as (Hperm & _).
  destruct sorted as [|x xs].
  { injection Hrun as <- <-. cbn. split; [reflexivity|].
    split; [intros y []|]. split; [lia|]. split; [|repeat constructor].
    intros deleted rest lines Hs. injection Hs as <- <- _.
    split; [reflexivity | exists []; reflexivity]. }
  remember (x :: xs) as sorted eqn:Hsorted. clear Hsorted x xs.
  destruct (skills_loop normalize rmtree results_ skills_dir_ sorted tree []
              inputs) as [t1 s1] eqn:Hloop.
  destruct (skills_loop_outcome _ _ _ _ Hloop)
    as (Ht & Hincl & Hlen & Hdone & Hsafe).
  assert (Hshown : quiet (RFound (List.length sorted) :: summary_lines sorted))
    by (constructor; [reflexivity | apply summary_lines_quiet]).
  assert (Hincl' : incl (attempted_names (lines_of s1))
                     (map name_of_entry (risky_skills results_))).
  { intros n Hn. apply Hincl in Hn.
    eapply Permutation_in; [|exact Hn].
    apply Permutation_map. symmetry. exact Hperm. }
  assert (Hlen' : List.length (attempted_names (lines_of s1))
                  <= List.length (risky_skills results_))
    by (rewrite (Permutation_length Hperm); exact Hlen).
  destruct s1 as [[[|] deleted] rest lines | e lines];
    injection Hrun as <- <-; cbn [lines_of] in *;
    change (RFound (List.length sorted) :: summary_lines sorted ++ ?m)
      with ((RFound (List.length sorted) :: summary_lines sorted) ++ m);
    rewrite ?deleted_names_app, ?attempted_names_app,
      (quiet_deleted_names Hshown), (quiet_attempted_names Hshown),
      ?(quiet_deleted_names (final_report_quiet sorted deleted)),
      ?(quiet_attempted_names (final_report_quiet sorted deleted)),
      ?app_nil_r; cbn [app].
  - split; [exact Ht|]. split; [exact Hincl'|]. split; [exact Hlen'|]. split.
    + intros d r l Hs. injection Hs as <- <- _.
      destruct (Hdone _ _ _ _ eq_refl) as [Hacc Hused].
      split; [exact Hacc | exact Hused].
    + intros Hn. solve_quiet. apply Hsafe, Hn.
  - split; [exact Ht|]. split; [exact Hincl'|]. split; [exact Hlen'|]. split.
    + intros d r l Hs. injection Hs as <- <- _.
      destruct (Hdone _ _ _ _ eq_refl) as [Hacc Hused].
      split; [exact Hacc | exact Hused].
    + intros Hn. solve_quiet. apply Hsafe, Hn.
  - split; [exact Ht|]. split; [exact Hincl'|]. split; [exact Hlen'|]. split.
    + intros; discriminate.
    + intros Hn. solve_quiet. apply Hsafe, Hn.
Qed.

End Remediation.

(** X21. Nothing is deleted without both a d and a y: when no answer is
    y, or none is d, once stripped and lowered, [run] calls
    [delete_skill] for no skill, the tree is left as it was, and the list
    of deleted skills is empty when the method returns, however many
    risky skills there are and whatever else is typed. *)
Theorem nothing_deleted_without_d_and_y :
  forall normalize rmtree results skills_dir_ tree inputs,
    never normalize "y" inputs \/ never normalize "d" inputs ->
    fst (remediate normalize rmtree results skills_dir_ tree inputs) = tree
    /\ quiet (lines_of
                (snd (remediate normalize rmtree results skills_dir_ tree
                        inputs)))
    /\ forall deleted rest lines,
         snd (remediate normalize rmtree results skills_dir_ tree inputs)
         = Done deleted rest lines ->
         deleted = [].
Proof.
  intros normalize rmtree results skills_dir_ tree inputs Hnever.
  destruct (remediate normalize rmtree results skills_dir_ tree inputs)
    as [tree' s] eqn:Hrun.
  destruct (remediate_outcome _ _ _ _ _ _ Hrun)
    as (Ht & _ & _ & Hdone & Hsafe).
  specialize (Hsafe Hnever). cbn [fst snd].
  rewrite (quiet_deleted_names Hsafe), (quiet_attempted_names Hsafe) in *.
  split; [exact Ht|]. split; [exact Hsafe|].
  intros deleted rest lines Hs. apply (Hdone _ _ _ Hs).
Qed.

(** X21, sample: d, then n at the confirmation, deletes nothing. *)
Lemma nothing_deleted_witness :
  let inputs := [text_of_string "d"; text_of_string "n"] in
  fst (remediate ascii_normalize rmtree_plain [result_mixed]
         (parse_path "skills") mixed_fs inputs) = mixed_fs
  /\ exists lines,
       snd (remediate ascii_normalize rmtree_plain [result_mixed]
              (parse_path "skills") mixed_fs inputs)
       = Done [] [] lines.
Proof.
  cbv zeta.
  assert (Hnever : never ascii_normalize "y"
                     [text_of_string "d"; text_of_string "n"]
                   \/ never ascii_normalize "d"
                        [text_of_string "d"; text_of_string "n"])
    by (left; repeat constructor; vm_compute; discriminate).
  destruct (@nothing_deleted_without_d_and_y ascii_normalize rmtree_plain
              [result_mixed] (parse_path "skills") mixed_fs
              [text_of_string "d"; text_of_string "n"] Hnever)
    as (Ht & _ & _).
  split; [exact Ht|]. eexists. vm_compute. reflexivity.
Defined.



(** With a [shutil.rmtree] that removes the directory, d and y delete
    the skill mixed, which the final report lists. *)
Example deletion_confirmed_sample :
  exists lines,
    remediate ascii_normalize rmtree_plain [result_mixed]
      (parse_path "skills") mixed_fs
      [text_of_string "D"; text_of_string "y"; text_of_string "q"]
    = (Dir (ECons "skills" (Dir (ECons "other" (Dir ENil) ENil)) ENil),
       Done ["mixed"] [text_of_string "q"] lines)
    /\ deleted_names lines = ["mixed"]
    /\ In (RDeletedName "mixed") lines.
Proof.
  eexists. split; [vm_compute; reflexivity|].
  split; [vm_compute; reflexivity|]. vm_compute. tauto.
Qed.

(* ================================================================== *)
(** * The interactive scanner on the results of a scan *)

Section KeyErrors.

Variable normalize : text -> string.
Variable rmtree : Node -> Path -> Node * bool.
Variable results_ : list ScanResult.t.
Variable skills_dir_ : Path.

Hypothesis details_return :
  forall name, snd (print_finding_details results_ name) = None.

Hypothesis sort_returns :
  forall e, sort_risky (risky_skills results_) <> inl e.

Lemma confirm_loop_stop skill_name inputs : forall e lines,
  confirm_loop normalize results_ skill_name inputs = Stop e lines ->
  e = EOFError.
Proof.
  induction inputs as [|typed more IH]; intros e lines Hrun;
    cbn [confirm_loop] in Hrun; [now injection Hrun as <- _|].
  destruct (String.eqb _ "y"); [discriminate|].
  destruct (String.eqb _ "n"); [discriminate|].
  pose proof (details_return skill_name) as Hd.
  destruct (String.eqb _ "v").
  - destruct (print_finding_details results_ skill_name) as [l raised].
    cbn [snd] in Hd. subst raised.
    destruct (confirm_loop normalize results_ skill_name more);
      cbn [say] in Hrun; [discriminate|].
    injection Hrun as <- _. eapply IH. reflexivity.
  - destruct (confirm_loop normalize results_ skill_name more);
      cbn [say] in Hrun; [discriminate|].
    injection Hrun as <- _. eapply IH. reflexivity.
Qed.

Lemma choice_loop_stop name tree inputs : forall tree' e lines,
  choice_loop normalize rmtree results_ skills_dir_ name tree inputs
  = (tree', Stop e lines) ->
  e = EOFError.
Proof.
  induction inputs as [|typed more IH]; intros tree' e lines Hrun;
    cbn [choice_loop] in Hrun; [now injection Hrun as _ <- _|].
  pose proof (details_return name) as Hd.
  destruct (String.eqb _ "v").
  { destruct (print_finding_details results_ name) as [l raised].
    cbn [snd] in Hd. subst raised.
    destruct (choice_loop normalize rmtree results_ skills_dir_ name tree
                more) as [t1 [v r l1|e1 l1]];
      cbn [say] in Hrun; [discriminate|].
    injection Hrun as _ <- _. eapply IH. reflexivity. }
  destruct (String.eqb _ "d").
  { unfold confirm_deletion, delete_skill in Hrun.
    destruct (confirm_loop normalize results_ name more)
      as [[|] r l1|e1 l1] eqn:Hc; cbn [say] in Hrun.
    - destruct (rmtree tree (path_div skills_dir_ name)) as [t [|]];
        discriminate.
    - discriminate.
    - injection Hrun as _ <- _. eapply confirm_loop_stop, Hc. }
  destruct (String.eqb _ "s"); [discriminate|].
  destruct (String.eqb _ "q"); [discriminate|].
  destruct (choice_loop normalize rmtree results_ skills_dir_ name tree more)
    as [t1 [v r l1|e1 l1]]; cbn [say] in Hrun; [discriminate|].
  injection Hrun as _ <- _. eapply IH. reflexivity.
Qed.

Lemma skills_loop_stop risky : forall tree acc inputs tree' e lines,
  skills_loop normalize rmtree results_ skills_dir_ risky tree acc inputs
  = (tree', Stop e lines) ->
  e = EOFError.
Proof.
  induction risky as [|[[name level] count] more IH];
    intros tree acc inputs tree' e lines Hrun; cbn [skills_loop] in Hrun;
    [discriminate|].
  destruct (choice_loop normalize rmtree results_ skills_dir_ name tree inputs)
    as [t1 [[ok|] r l1|e1 l1]] eqn:Hc.
  - destruct (skills_loop normalize rmtree results_ skills_dir_ more t1
                (if ok then acc ++ [name] else acc) r)
      as [t2 [a r2 l2|e2 l2]] eqn:Hrec; cbn [say] in Hrun; [discriminate|].
    injection Hrun as _ <- _. eapply IH, Hrec.
  - discriminate.
  - injection Hrun as _ <- _. eapply choice_loop_stop, Hc.
Qed.

Lemma remediate_stop tree inputs tree' e lines :
  remediate normalize rmtree results_ skills_dir_ tree inputs
  = (tree', Stop e lines) ->
  e = EOFError.
Proof.
  unfold remediate. intros Hrun.
  destruct (sort_risky (risky_skills results_)) as [e0|sorted] eqn:Hsort;
    [exfalso; eapply sort_returns; reflexivity|].
  destruct sorted as [|x xs]; [discriminate|].
  destruct (skills_loop normalize rmtree results_ skills_dir_ (x :: xs) tree []
              inputs) as [t1 [[[|] d] r l1|e1 l1]] eqn:Hloop;
    try discriminate.
  injection Hrun as _ <- _. eapply skills_loop_stop, Hloop.
Qed.

End KeyErrors.

Lemma scan_skill_well_ranked finditer fs ext_iter skill_path st r st' :
  scan_skill finditer fs ext_iter skill_path st = (inr r, st') ->
  well_ranked r.
Proof.
  intros Hrun. split.
  - intros f Hf.
    destruct (@scan_skill_findings finditer fs ext_iter skill_path st r st'
                Hrun f Hf) as (p & _ & Hp).
    apply file_outcome_produced in Hp. destruct Hp as (lines & _ & Hprod).
    destruct Hprod as (n & line & c & pl & pat & d & rel
                       & _ & _ & _ & _ & _ & ->).
    cbn [RiskFinding.risk_level]. apply get_risk_level_not_info.
  - intros Hunsafe Hnil.
    destruct (@scan_skill_invariant finditer fs ext_iter skill_path st r st'
                Hrun) as [_ Hsafe].
    rewrite Hsafe in Hunsafe by exact Hnil. discriminate.
Qed.

Lemma scan_paths_well_ranked finditer fs ext_iter skill_paths : forall acc st,
  exists rs st',
    scan_paths finditer fs ext_iter skill_paths acc st = (inr (acc ++ rs), st')
    /\ results (self st') = results (self st) ++ rs
    /\ Forall well_ranked rs.
Proof.
  induction skill_paths as [|p rest IH]; intros acc st; cbn [scan_paths].
  - exists [], st. cbn. rewrite !app_nil_r. repeat split. constructor.
  - destruct (scan_skill_returns finditer fs ext_iter p st)
      as (r & st1 & Hrun).
    destruct (@scan_skill_frame finditer fs ext_iter p st r st1 Hrun)
      as (_ & _ & _ & _ & _ & Hres & _).
    cbv [bind get_self set_self ret]. rewrite Hrun. cbn [self trace].
    destruct (IH (acc ++ [r])
                (mkState (extend_results [r] (self st1)) (trace st1)))
      as (rs & st' & Hloop & Hresults & Hall).
    exists (r :: rs), st'. rewrite Hloop. cbn [self trace] in *.
    split; [now rewrite <- app_assoc|].
    split; [rewrite Hresults; cbn; rewrite Hres; now rewrite <- app_assoc|].
    constructor; [eapply scan_skill_well_ranked, Hrun | exact Hall].
Qed.

Lemma scan_all_skills_well_ranked finditer fs ext_iter target_skill st rs st' :
  scan_all_skills finditer fs ext_iter target_skill st = (inr rs, st') ->
  results (self st') = results (self st) ++ rs /\ Forall well_ranked rs.
Proof.
  intros Hrun. unfold scan_all_skills in Hrun. cbv [bind get_self] in Hrun.
  destruct (truthy target_skill) as [target|].
  - cbv [exists_ bind emit ret print] in Hrun. cbn [self trace hd] in Hrun.
    destruct (path_exists fs (path_div (skills_dir (self st)) target)).
    + cbn [negb] in Hrun.
      destruct (scan_paths_well_ranked finditer fs ext_iter
                  [path_div (skills_dir (self st)) target] []
                  (mkState (self st)
                     (trace st ++
                      [EvExists (path_div (skills_dir (self st)) target)])))
        as (rs1 & st1 & Hloop & Hres & Hall).
      rewrite Hloop in Hrun. injection Hrun as <- <-.
      cbn [self trace app] in *. split; assumption.
    + cbn [negb] in Hrun. injection Hrun as <- <-. cbn [self trace].
      rewrite app_nil_r. split; [reflexivity | constructor].
  - cbv [iterdir bind emit ret raise] in Hrun. cbn [self trace] in Hrun.
    destruct (resolve fs (skills_dir (self st))) as [[c|es]|];
      try discriminate Hrun.
    rewrite visible_dirs_run in Hrun. cbn [self trace] in Hrun.
    match type of Hrun with
    | context [scan_paths _ _ _ ?ps [] ?s] =>
        destruct (scan_paths_well_ranked finditer fs ext_iter ps [] s)
          as (rs1 & st1 & Hloop & Hres & Hall)
    end.
    rewrite Hloop in Hrun. injection Hrun as <- <-.
    cbn [self trace app] in *. split; assumption.
Qed.

Lemma well_ranked_details results :
  Forall well_ranked results ->
  forall name, snd (print_finding_details results name) = None.
Proof.
  intros Hall name. rewrite print_finding_details_returns; [reflexivity|].
  intros r Hin _. rewrite Forall_forall in Hall. apply (Hall r Hin).
Qed.

Lemma well_ranked_sort results :
  Forall well_ranked results ->
  forall e, sort_risky (risky_skills results) <> inl e.
Proof.
  intros Hall e Hsort.
  assert (Hkey : sort_risky (risky_skills results) = inl LevelKeyError).
  { destruct (sort_risky_total (risky_skills results)) as [(l & Hl)|Hl];
      [congruence | exact Hl]. }
  apply sort_risky_raises in Hkey. destruct Hkey as (x & Hin & Hx).
  apply risky_skills_In in Hin. destruct Hin as (r & Hin & Hs & _ & ->).
  rewrite Forall_forall in Hall. destruct (Hall r Hin) as [Hno Hne].
  destruct (run_highest_attained (Hne Hs)) as (f & Hf & Hlevel & _).
  apply (Hno f Hf). unfold level_of in Hlevel. rewrite Hlevel. exact Hx.
Qed.

(** X23. On the results of its own scan the interactive scanner never
    raises [KeyError]: [get_risk_level] gives no INFO, so the
    dictionaries of [run] and of [print_finding_details], which have no
    key INFO, are only read at keys they have. When the scan returns, the
    dialogue either returns or ends because the input ends. This holds
    for a new scanner, whose list of results is empty. *)
Theorem run_never_raises_key_error :
  forall finditer normalize rmtree fs ext_iter st inputs st' tree e lines,
    Forall well_ranked (results (self st)) ->
    run finditer normalize rmtree fs ext_iter st inputs
    = (st', inr (tree, Stop e lines)) ->
    e = EOFError.
Proof.
  intros finditer normalize rmtree fs ext_iter st inputs st' tree e lines
    Hall Hrun.
  unfold run in Hrun.
  destruct (scan_all_skills finditer fs ext_iter None st)
    as [[e0|rs] st1] eqn:Hscan; [discriminate|].
  destruct (@scan_all_skills_well_ranked finditer fs ext_iter None st rs st1
              Hscan) as [Hres Hrs].
  assert (Hall1 : Forall well_ranked (results (self st1)))
    by (rewrite Hres; apply Forall_app; split; assumption).
  destruct (remediate normalize rmtree (results (self st1))
              (skills_dir (self st)) fs inputs) as [t s] eqn:Hrem.
  injection Hrun as _ _ Hs.
  destruct s as [d r l|e1 l]; cbn [say] in Hs; [discriminate|].
  injection Hs as <- _.
  eapply remediate_stop; [| |exact Hrem].
  - apply well_ranked_details, Hall1.
  - apply well_ranked_sort, Hall1.
Qed.

(** X23, sample: on the sample, with the details asked for and then no
    more input, the dialogue ends with [EOFError]. *)
Lemma run_key_error_witness :
  exists st' tree lines,
    run sample_finditer ascii_normalize rmtree_plain sample_fs extensions
      sample_state [text_of_string "v"]
    = (st', inr (tree, Stop EOFError lines)).
Proof.
  destruct (run sample_finditer ascii_normalize rmtree_plain sample_fs
              extensions sample_state [text_of_string "v"])
    as [st' [e0|[tree [d rest lines|e lines]]]] eqn:Hrun.
  - exfalso. vm_compute in Hrun. discriminate Hrun.
  - exfalso. vm_compute in Hrun. discriminate Hrun.
  - exists st', tree, lines.
    rewrite (@run_never_raises_key_error sample_finditer ascii_normalize
               rmtree_plain sample_fs extensions sample_state
               [text_of_string "v"] st' tree e lines (Forall_nil _) Hrun).
    reflexivity.
Defined.
